(** * The streaming chat relay of deep-agent: route.ts and useChat.ts

  A shallow embedding of the server route [POST] of
  [src/app/api/chat/route.ts] (with the provider module and the prompt
  builder it calls) and of the client hook [useChat], followed by the
  properties of the relay protocol proved about them.

  Conventions of the embedding.
  - A JavaScript string is a [string] of bytes (its UTF-8 encoding).
  - [undefined] and [null] are [None] where the code only tests for them.
  - A [Date] or [Date.now()] reading is an integer handed in by the caller.
  - A [setState] updater of React is applied at the point where the code
    queues it; every callback of the hook is the one of the latest render,
    so it reads the current state. *)

From Stdlib Require Import ZArith Ascii String DecimalString.
From stdpp Require Import base list strings gmap.
From Stdlib Require DecimalNat.

Local Open Scope Z_scope.
Local Set Warnings "-register-all,-clear-no-such-hyp".

(** ** JavaScript strings *)

Module JS.

Definition dquote : ascii := "034"%char.
Definition backslash : ascii := "092"%char.
Definition LF : ascii := "010"%char.

(** A string is truthy unless it is empty. *)
Definition truthy (s : string) : bool :=
  match s with
  | EmptyString => false
  | String _ _ => true
  end.

(** [value || fallback] on an optional string. *)
Definition orElse (value : option string) (fallback : string) : string :=
  match value with
  | Some (String a s) => String a s
  | _ => fallback
  end.

Fixpoint trimStart (s : string) : string :=
  match s with
  | String a s' => if Ascii.is_space a then trimStart s' else s
  | EmptyString => EmptyString
  end.

Definition trimEnd (s : string) : string :=
  String.rev (trimStart (String.rev s)).

(** [s.trim()]; of the white space of ECMAScript, the six ASCII characters
    are stripped (the others are not single bytes). *)
Definition trim (s : string) : string := trimEnd (trimStart s).

Fixpoint split_go (sep : ascii) (cur : string) (s : string) : list string :=
  match s with
  | EmptyString => [String.rev cur]
  | String a s' =>
      if Ascii.eqb a sep then String.rev cur :: split_go sep EmptyString s'
      else split_go sep (String a cur) s'
  end.

(** [s.split(sep)] for a separator of one character. *)
Definition split (sep : ascii) (s : string) : list string :=
  split_go sep EmptyString s.

(** [s.slice(n)] for [0 <= n]. *)
Fixpoint slice (n : nat) (s : string) : string :=
  match n, s with
  | O, _ => s
  | S n', String _ s' => slice n' s'
  | S _, EmptyString => EmptyString
  end.

(** [s.slice(0, n)]. *)
Fixpoint sliceTo (n : nat) (s : string) : string :=
  match n, s with
  | S n', String a s' => String a (sliceTo n' s')
  | _, _ => EmptyString
  end.

Definition startsWith (s p : string) : bool := String.prefix p s.

(** [s.includes(c)] for one character. *)
Fixpoint contains (c : ascii) (s : string) : bool :=
  match s with
  | EmptyString => false
  | String a s' => Ascii.eqb a c || contains c s'
  end.

(** [l.join(sep)]. *)
Definition join (sep : string) (l : list string) : string :=
  String.concat sep l.

(** [String(n)] for a natural number. *)
Definition ofNat (n : nat) : string :=
  NilEmpty.string_of_uint (Nat.to_uint n).

(** [s.replace(/\/+$/, '')]. *)
Fixpoint dropSlashes (s : string) : string :=
  match s with
  | String "/" s' => dropSlashes s'
  | _ => s
  end.

Definition stripTrailingSlashes (s : string) : string :=
  String.rev (dropSlashes (String.rev s)).

(** [n] slashes. *)
Fixpoint slashes (n : nat) : string :=
  match n with
  | O => EmptyString
  | S n' => String "/" (slashes n')
  end.

End JS.

(** ** JSON text, as [JSON.stringify] writes it and [JSON.parse] reads it *)

Module Json.

Inductive value : Type :=
| Null
| Bool (b : bool)
| Num (literal : string)
| Str (s : string)
| Arr (items : list value)
| Obj (members : list (string * value)).

(** *** Writing *)

Definition hexDigit (n : N) : ascii :=
  ascii_of_N (if (n <? 10)%N then 48 + n else 87 + n)%N.

(** QuoteJSONString on one byte: the two-character escapes, [\u00xx] for
    the other control characters, the byte itself otherwise. *)
Definition quoteChar (c : ascii) : string :=
  let n := N_of_ascii c in
  if (n =? 34)%N then String JS.backslash (String JS.dquote EmptyString)
  else if (n =? 92)%N then String JS.backslash (String JS.backslash EmptyString)
  else if (n =? 8)%N then "\b"
  else if (n =? 12)%N then "\f"
  else if (n =? 10)%N then "\n"
  else if (n =? 13)%N then "\r"
  else if (n =? 9)%N then "\t"
  else if (n <? 32)%N then
    "\u00" +:+ String (hexDigit (n / 16)) (String (hexDigit (n mod 16)) EmptyString)
  else String c EmptyString.

Fixpoint quoteBody (s : string) : string :=
  match s with
  | EmptyString => EmptyString
  | String c s' => quoteChar c +:+ quoteBody s'
  end.

Definition quote (s : string) : string :=
  String JS.dquote (quoteBody s +:+ String JS.dquote EmptyString).

Fixpoint stringify (v : value) : string :=
  match v with
  | Null => "null"
  | Bool true => "true"
  | Bool false => "false"
  | Num literal => literal
  | Str s => quote s
  | Arr items => "[" +:+ JS.join "," (map stringify items) +:+ "]"
  | Obj members =>
      "{" +:+ JS.join "," (map (fun kv => quote kv.1 +:+ ":" +:+ stringify kv.2) members)
          +:+ "}"
  end.

(** *** Reading *)

Definition isWs (c : ascii) : bool :=
  let n := N_of_ascii c in
  ((n =? 32) || (n =? 9) || (n =? 10) || (n =? 13))%N.

Fixpoint skipWs (s : string) : string :=
  match s with
  | String c s' => if isWs c then skipWs s' else s
  | EmptyString => EmptyString
  end.

Definition hexValue (c : ascii) : option N :=
  let n := N_of_ascii c in
  if ((48 <=? n) && (n <=? 57))%N then Some (n - 48)%N
  else if ((97 <=? n) && (n <=? 102))%N then Some (n - 87)%N
  else if ((65 <=? n) && (n <=? 70))%N then Some (n - 55)%N
  else None.

(** The four hexadecimal digits of a [\u] escape. *)
Definition hex4 (s : string) : option (N * string) :=
  match s with
  | String a (String b (String c (String d rest))) =>
      match hexValue a, hexValue b, hexValue c, hexValue d with
      | Some x, Some y, Some z, Some w =>
          Some (((x * 16 + y) * 16 + z) * 16 + w, rest)%N
      | _, _, _, _ => None
      end
  | _ => None
  end.

(** UTF-8 of a code unit of the basic plane; a surrogate has none. *)
Definition utf8 (u : N) : option string :=
  if (u <? 128)%N then Some (String (ascii_of_N u) EmptyString)
  else if (u <? 2048)%N then
    Some (String (ascii_of_N (192 + u / 64))
         (String (ascii_of_N (128 + u mod 64)) EmptyString))
  else if ((55296 <=? u) && (u <=? 57343))%N then None
  else
    Some (String (ascii_of_N (224 + u / 4096))
         (String (ascii_of_N (128 + (u / 64) mod 64))
         (String (ascii_of_N (128 + u mod 64)) EmptyString))).

Definition unescape (e : ascii) : option ascii :=
  let n := N_of_ascii e in
  if (n =? 34)%N then Some JS.dquote
  else if (n =? 92)%N then Some JS.backslash
  else if (n =? 47)%N then Some "/"%char
  else if (n =? 98)%N then Some "008"%char
  else if (n =? 102)%N then Some "012"%char
  else if (n =? 110)%N then Some "010"%char
  else if (n =? 114)%N then Some "013"%char
  else if (n =? 116)%N then Some "009"%char
  else None.

(** The characters of a string literal after its opening quote, up to and
    including the closing one. [acc] holds the decoded text, reversed. *)
Fixpoint stringBody (fuel : nat) (acc : string) (s : string) : option (string * string) :=
  match fuel, s with
  | S fuel', String c s' =>
      let n := N_of_ascii c in
      if (n =? 34)%N then Some (String.rev acc, s')
      else if (n =? 92)%N then
        match s' with
        | String e s'' =>
            if (N_of_ascii e =? 117)%N then
              match hex4 s'' with
              | Some (u, rest) =>
                  match utf8 u with
                  | Some bytes => stringBody fuel' (String.rev_app bytes acc) rest
                  | None => None
                  end
              | None => None
              end
            else
              match unescape e with
              | Some a => stringBody fuel' (String a acc) s''
              | None => None
              end
        | EmptyString => None
        end
      else if (n <? 32)%N then None
      else stringBody fuel' (String c acc) s'
  | _, _ => None
  end.

Definition isDigit (c : ascii) : bool :=
  let n := N_of_ascii c in ((48 <=? n) && (n <=? 57))%N.

Fixpoint digits (acc : string) (s : string) : string * string :=
  match s with
  | String c s' => if isDigit c then digits (String c acc) s' else (acc, s)
  | EmptyString => (acc, s)
  end.

(** A number literal: [-? int frac? exp?]. The literal is kept as text. *)
Definition number (s : string) : option (string * string) :=
  let '(sign, s1) :=
    match s with
    | String "-" r => (String "-" EmptyString, r)
    | _ => (EmptyString, s)
    end in
  let '(int, s2) := digits EmptyString s1 in
  match String.rev int with
  | EmptyString => None
  | String "0" (String _ _) => None
  | _ =>
      let acc := String.rev_app sign EmptyString in
      let acc := String.app int acc in
      let frac :=
        match s2 with
        | String "." r =>
            let '(f, r') := digits EmptyString r in
            match f with
            | EmptyString => None
            | _ => Some (String.app f (String "." acc), r')
            end
        | _ => Some (acc, s2)
        end in
      match frac with
      | None => None
      | Some (acc, s3) =>
          let isE (c : ascii) := ((N_of_ascii c =? 101) || (N_of_ascii c =? 69))%N in
          match s3 with
          | String e r =>
              if isE e then
                let '(sg, r1) :=
                  match r with
                  | String "+" r' => (String "+" EmptyString, r')
                  | String "-" r' => (String "-" EmptyString, r')
                  | _ => (EmptyString, r)
                  end in
                let '(ex, r2) := digits EmptyString r1 in
                match ex with
                | EmptyString => None
                | _ => Some (String.rev (String.app ex (String.app sg (String e acc))), r2)
                end
              else Some (String.rev acc, s3)
          | EmptyString => Some (String.rev acc, s3)
          end
      end
  end.

Definition literal (word : string) (v : value) (s : string) : option (value * string) :=
  if JS.startsWith s word then Some (v, JS.slice (String.length word) s) else None.

(** One JSON value at the head of [s], and the text after it. *)
Fixpoint parseValue (fuel : nat) (s : string) : option (value * string) :=
  match fuel with
  | O => None
  | S fuel' =>
      match skipWs s with
      | EmptyString => None
      | String c r =>
          let n := N_of_ascii c in
          if (n =? 34)%N then
            match stringBody (String.length r) EmptyString r with
            | Some (str, rest) => Some (Str str, rest)
            | None => None
            end
          else if (n =? 123)%N then
            match skipWs r with
            | String "}" rest => Some (Obj [], rest)
            | r' =>
                match parseMembers fuel' r' with
                | Some (ms, rest) => Some (Obj ms, rest)
                | None => None
                end
            end
          else if (n =? 91)%N then
            match skipWs r with
            | String "]" rest => Some (Arr [], rest)
            | r' =>
                match parseElements fuel' r' with
                | Some (vs, rest) => Some (Arr vs, rest)
                | None => None
                end
            end
          else if (n =? 116)%N then literal "true" (Bool true) (String c r)
          else if (n =? 102)%N then literal "false" (Bool false) (String c r)
          else if (n =? 110)%N then literal "null" Null (String c r)
          else
            match number (String c r) with
            | Some (lit, rest) => Some (Num lit, rest)
            | None => None
            end
      end
  end
with parseMembers (fuel : nat) (s : string) : option (list (string * value) * string) :=
  match fuel with
  | O => None
  | S fuel' =>
      match skipWs s with
      | String c r =>
          if (N_of_ascii c =? 34)%N then
            match stringBody (String.length r) EmptyString r with
            | Some (key, r1) =>
                match skipWs r1 with
                | String ":" r2 =>
                    match parseValue fuel' r2 with
                    | Some (v, r3) =>
                        match skipWs r3 with
                        | String "," r4 =>
                            match parseMembers fuel' r4 with
                            | Some (ms, rest) => Some ((key, v) :: ms, rest)
                            | None => None
                            end
                        | String "}" rest => Some ([(key, v)], rest)
                        | _ => None
                        end
                    | None => None
                    end
                | _ => None
                end
            | None => None
            end
          else None
      | EmptyString => None
      end
  end
with parseElements (fuel : nat) (s : string) : option (list value * string) :=
  match fuel with
  | O => None
  | S fuel' =>
      match parseValue fuel' s with
      | Some (v, r) =>
          match skipWs r with
          | String "," r' =>
              match parseElements fuel' r' with
              | Some (vs, rest) => Some (v :: vs, rest)
              | None => None
              end
          | String "]" rest => Some ([v], rest)
          | _ => None
          end
      | None => None
      end
  end.

(** [JSON.parse(s)]: [None] when it throws a SyntaxError. The calls nest
    no deeper than the text is long: a value inside another comes after an
    opening bracket, a key or a comma. *)
Definition parse (s : string) : option value :=
  match parseValue (S (String.length s)) s with
  | Some (v, rest) =>
      match skipWs rest with
      | EmptyString => Some v
      | String _ _ => None
      end
  | None => None
  end.

(** [o.key] on a parsed object: of duplicate keys the last one counts. *)
Fixpoint lookupLast (key : string) (members : list (string * value)) : option value :=
  match members with
  | [] => None
  | (k, v) :: rest =>
      match lookupLast key rest with
      | Some v' => Some v'
      | None => if String.eqb k key then Some v else None
      end
  end.

Definition field (key : string) (v : value) : option value :=
  match v with
  | Obj members => lookupLast key members
  | _ => None
  end.

(** A member whose value is a string: the member, and its text. *)
Definition stringMember (kv : string * string) : string * value := (kv.1, Str kv.2).

Definition memberText (kv : string * string) : string :=
  quote kv.1 +:+ ":" +:+ quote kv.2.

End Json.

(** ** Effects: mutable state and exceptions *)

Module Eff.

(** What a [throw] carries: an [Error] with its message, or another value
    (for which [instanceof Error] is false and [.message] is undefined). *)
Inductive Thrown : Type :=
| ErrorObject (message : string)
| OtherValue.

Definition messageOf (e : Thrown) : option string :=
  match e with
  | ErrorObject m => Some m
  | OtherValue => None
  end.

Inductive Completion (A : Type) : Type :=
| Normal (a : A)
| Abrupt (e : Thrown).
Arguments Normal {A} a.
Arguments Abrupt {A} e.

(** A computation on a state [S]: the state it leaves and how it ended.
    What was written before a [throw] stays written. *)
Definition M (S A : Type) : Type := S -> Completion A * S.

Definition ret {S A} (a : A) : M S A := fun s => (Normal a, s).
Definition throw {S A} (e : Thrown) : M S A := fun s => (Abrupt e, s).

Definition bind {S A B} (m : M S A) (k : A -> M S B) : M S B :=
  fun s =>
    match m s with
    | (Normal a, s') => k a s'
    | (Abrupt e, s') => (Abrupt e, s')
    end.

Definition gets {S A} (f : S -> A) : M S A := fun s => (Normal (f s), s).
Definition modify {S} (f : S -> S) : M S unit := fun s => (Normal tt, f s).

(** [try { m } catch (e) { handler e }]. *)
Definition tryCatch {S A} (m : M S A) (handler : Thrown -> M S A) : M S A :=
  fun s =>
    match m s with
    | (Normal a, s') => (Normal a, s')
    | (Abrupt e, s') => handler e s'
    end.

(** [try { m } finally { fin }]: [fin] runs on every exit of [m]; when it
    throws itself, that is what leaves the block. *)
Definition tryFinally {S A} (m : M S A) (fin : M S unit) : M S A :=
  fun s =>
    match m s with
    | (c, s') =>
        match fin s' with
        | (Normal _, s'') => (c, s'')
        | (Abrupt e, s'') => (Abrupt e, s'')
        end
    end.

(** Lifting a completion that reads no state. *)
Definition lift {S A} (c : Completion A) : M S A := fun s => (c, s).

Definition when {S} (b : bool) (m : M S unit) : M S unit :=
  if b then m else ret tt.

End Eff.

Import Eff.

Declare Scope eff_scope.
Delimit Scope eff_scope with eff.
Notation "x ← y ; z" := (bind y (fun x => z))
  (at level 20, y at level 100, z at level 200, only parsing) : eff_scope.
Notation "x ;; z" := (bind x (fun _ => z))
  (at level 100, z at level 200, only parsing, right associativity) : eff_scope.
Local Open Scope eff_scope.

(** ** The wire protocol shared by route.ts and useChat.ts *)

Module SSE.

Inductive SSEEventType : Type := CONTENT | DONE | ERROR | METADATA.

(** The string value of each member of the enum. *)
Definition name (t : SSEEventType) : string :=
  match t with
  | CONTENT => "content"
  | DONE => "done"
  | ERROR => "error"
  | METADATA => "metadata"
  end.

Definition ofName (s : string) : option SSEEventType :=
  if String.eqb s "content" then Some CONTENT
  else if String.eqb s "done" then Some DONE
  else if String.eqb s "error" then Some ERROR
  else if String.eqb s "metadata" then Some METADATA
  else None.

(** [interface SSEMessage] (its [retry] field is never written or read). *)
Record SSEMessage : Type := Message {
  type : SSEEventType;
  data : string;
  id : option string;
}.

Definition isTerminal (t : SSEEventType) : bool :=
  match t with
  | DONE | ERROR => true
  | CONTENT | METADATA => false
  end.

End SSE.

(** ** The server: route.ts, with modelProvider.ts and unifiedPrompt.ts *)

Module Server.

Definition nl : string := String JS.LF EmptyString.

(** *** lib/providers/modelProvider.ts *)

Inductive ProviderName : Type := openai | qwen.

#[global] Instance ProviderName_eq_dec : EqDecision ProviderName.
Proof. solve_decision. Defined.

#[global] Instance ProviderName_countable : Countable ProviderName :=
  inj_countable'
    (fun p => match p with openai => false | qwen => true end)
    (fun b : bool => if b then qwen else openai)
    (fun p => match p with openai => eq_refl | qwen => eq_refl end).

(** A [ProviderName] is its own name at run time. *)
Definition providerString (p : ProviderName) : string :=
  match p with
  | openai => "openai"
  | qwen => "qwen"
  end.

Record ProviderConfig : Type := {
  apiKeyEnv : string;
  baseUrlEnv : string;
  defaultBaseUrl : string;
  chatModelEnv : string;
  fallbackChatModel : string;
  displayName : string;
}.

Record ResolvedProviderConfig : Type := {
  provider : ProviderName;
  apiKey : string;
  baseURL : string;
  chatModel : string;
}.

Definition PROVIDER_CONFIGS (p : ProviderName) : ProviderConfig :=
  match p with
  | openai =>
      {| apiKeyEnv := "OPENAI_API_KEY";
         baseUrlEnv := "OPENAI_API_URL";
         defaultBaseUrl := "https://api.openai.com/v1";
         chatModelEnv := "OPENAI_MODEL";
         fallbackChatModel := "gpt-4o-mini";
         displayName := "OpenAI" |}
  | qwen =>
      {| apiKeyEnv := "QWEN_API_KEY";
         baseUrlEnv := "QWEN_API_URL";
         defaultBaseUrl := "https://dashscope.aliyuncs.com/compatible-mode/v1";
         chatModelEnv := "QWEN_MODEL";
         fallbackChatModel := "qwen-max";
         displayName := "Qwen" |}
  end.

(** [new OpenAI({ apiKey, baseURL })]. *)
Record OpenAI : Type := { clientApiKey : string; clientBaseURL : string }.

Record CacheEntry : Type := { client : OpenAI; config : ResolvedProviderConfig }.

Inductive Role : Type := user | assistant | system.

Definition roleString (r : Role) : string :=
  match r with
  | user => "user"
  | assistant => "assistant"
  | system => "system"
  end.

Record ProviderChatMessage : Type := { pRole : Role; pContent : string }.

(** The temperature, in tenths. *)
Record ChatCompletionParams : Type := {
  paramMessages : list ProviderChatMessage;
  paramTemperature : option Z;
  paramModel : option string;
  paramProvider : option string;
}.

(** The argument of [client.chat.completions.create], and the client it is
    called on: one call of the upstream provider. *)
Record CreateCall : Type := {
  callClient : OpenAI;
  callModel : string;
  callMessages : list ProviderChatMessage;
  callTemperature : Z;
  callStream : bool;
}.

(** [ChatCompletionChunk], as far as the route looks into it. *)
Record Delta : Type := { content : option Json.value }.
Record Choice : Type := { delta : option Delta }.
Record ChatCompletionChunk : Type := { choices : option (list Choice) }.

(** [AsyncIterable<ChatCompletionChunk>]: the chunks the provider yields,
    until it ends the stream or the iteration throws. *)
Inductive ChatCompletionStream : Type :=
| StreamEnd
| StreamChunk (chunk : option ChatCompletionChunk) (rest : ChatCompletionStream)
| StreamThrow (e : Thrown).

(** *** route.ts: the records of one request *)

Record PerformanceMetrics : Type := {
  requestId : string;
  startTime : Z;
  messageCount : nat;
  errorCount : nat;
}.

(** The line [logPerformanceMetrics] writes to the console. *)
Record MetricsLog : Type := {
  logRequestId : string;
  logDuration : Z;
  logMessageCount : nat;
  logErrorCount : nat;
  logError : option string;
  logTimestamp : string;
}.

(** The [ReadableStreamDefaultController] of the response: what was
    enqueued, oldest first, whether [close] was called, and whether the
    stream was put in error because [start] rejected. *)
Record Controller : Type := { queue : list string; closed : bool; errored : bool }.

(** What a request runs in: the module-level client cache, the calls the
    upstream provider has received, the console, and the request's own
    metrics and stream controller. *)
Record State : Type := {
  clientCache : gmap ProviderName CacheEntry;
  invocations : list CreateCall;
  console : list MetricsLog;
  metrics : PerformanceMetrics;
  controller : Controller;
}.

Definition withCache (f : gmap ProviderName CacheEntry -> gmap ProviderName CacheEntry)
    (s : State) : State :=
  {| clientCache := f (clientCache s); invocations := invocations s;
     console := console s; metrics := metrics s; controller := controller s |}.

Definition withInvocations (f : list CreateCall -> list CreateCall) (s : State) : State :=
  {| clientCache := clientCache s; invocations := f (invocations s);
     console := console s; metrics := metrics s; controller := controller s |}.

Definition withConsole (f : list MetricsLog -> list MetricsLog) (s : State) : State :=
  {| clientCache := clientCache s; invocations := invocations s;
     console := f (console s); metrics := metrics s; controller := controller s |}.

Definition withMetrics (f : PerformanceMetrics -> PerformanceMetrics) (s : State) : State :=
  {| clientCache := clientCache s; invocations := invocations s;
     console := console s; metrics := f (metrics s); controller := controller s |}.

Definition withController (f : Controller -> Controller) (s : State) : State :=
  {| clientCache := clientCache s; invocations := invocations s;
     console := console s; metrics := metrics s; controller := f (controller s) |}.

Definition incMessageCount (m : PerformanceMetrics) : PerformanceMetrics :=
  {| requestId := requestId m; startTime := startTime m;
     messageCount := S (messageCount m); errorCount := errorCount m |}.

Definition incErrorCount (m : PerformanceMetrics) : PerformanceMetrics :=
  {| requestId := requestId m; startTime := startTime m;
     messageCount := messageCount m; errorCount := S (errorCount m) |}.

Record VercelChatMessage : Type := { role : Role; messageContent : string }.

(** The body as [req.json()] delivers it, read at the types the route
    declares: [messages] when present, [provider] when it is a string. *)
Record RequestBody : Type := {
  bodyMessages : option (list VercelChatMessage);
  bodyProvider : option string;
}.

(** A request: its headers under their lower-case names, and what
    [await req.json()] gives. A body that is not JSON makes it throw; a body
    that is JSON and has no members to read ([null]) makes the next line
    throw, into the same [catch], and is an [Abrupt] here too. *)
Record NextRequest : Type := {
  headers : gmap string string;
  json : Completion RequestBody;
}.

(** What the platform hands to the request: the UUID of
    [crypto.randomUUID()] and the clock readings. *)
Record Platform : Type := {
  randomUUID : string;
  nowAtStart : Z;
  nowAtLog : Z;
  isoAtMetadata : string;
  isoAtLog : string;
}.

Inductive ResponseBody : Type :=
| JsonBody (error : option string) (errorRequestId : option string)
| EventStream (chunks : list string).

Record Response : Type := {
  status : nat;
  responseHeaders : gmap string string;
  body : ResponseBody;
}.

(** *** The functions *)

Section Route.

(** [process.env]. *)
Variable env : gmap string string.

(** [normalizeProviderName] of lib/providers/types, which route.ts and
    modelProvider.ts import: it is given the selector, or nothing, and returns
    a provider name or throws. *)
Variable normalizeProviderName : option string -> Completion ProviderName.

(** [UNIFIED_SYSTEM_PROMPT] of lib/prompts/systemPrompts. *)
Variable UNIFIED_SYSTEM_PROMPT : string.

(** The provider behind [client.chat.completions.create]: the stream it
    opens for a call, unless the call throws. *)
Variable completionsCreate : CreateCall -> Completion ChatCompletionStream.

Definition sanitizeBaseUrl (url : string) : string := JS.stripTrailingSlashes url.

Definition resolveConfig (provider : ProviderName) : Completion ResolvedProviderConfig :=
  let definition := PROVIDER_CONFIGS provider in
  match env !! apiKeyEnv definition with
  | Some (String a k) =>
      Normal
        {| provider := provider;
           apiKey := String a k;
           baseURL := sanitizeBaseUrl (default (defaultBaseUrl definition)
                                         (env !! baseUrlEnv definition));
           chatModel := default (fallbackChatModel definition)
                          (env !! chatModelEnv definition) |}
  | _ =>
      Abrupt (ErrorObject
        (displayName definition +:+ " API key not configured. Please set "
           +:+ apiKeyEnv definition +:+ " in your environment."))
  end.

Definition getClient (provider : ProviderName) : M State CacheEntry :=
  cached ← gets (fun s => clientCache s !! provider);
  match cached with
  | Some entry => ret entry
  | None =>
      resolved ← lift (resolveConfig provider);
      let entry :=
        {| client := {| clientApiKey := apiKey resolved; clientBaseURL := baseURL resolved |};
           config := resolved |} in
      modify (withCache (insert provider entry));;
      ret entry
  end.

Definition resolveProvider (provider : option string) : Completion ProviderName :=
  match provider with
  | Some (String a p) => normalizeProviderName (Some (String a p))
  | _ => normalizeProviderName (env !! "PROVIDER")
  end.

Definition chatCompletionStream (params : ChatCompletionParams)
    : M State (ChatCompletionStream * ProviderName * string) :=
  targetProvider ← lift (resolveProvider (paramProvider params));
  entry ← getClient targetProvider;
  let model := default (chatModel (config entry)) (paramModel params) in
  let call :=
    {| callClient := client entry;
       callModel := model;
       callMessages := paramMessages params;
       callTemperature := default 2 (paramTemperature params);
       callStream := true |} in
  modify (withInvocations (fun calls => calls ++ [call]));;
  stream ← lift (completionsCreate call);
  ret (stream, targetProvider, model).

(** *** lib/prompts/unifiedPrompt.ts *)

Definition pushSection (label : string) (value : option string)
    (sections : list string) : list string :=
  match value with
  | None => sections
  | Some v =>
      let trimmed := JS.trim v in
      if JS.truthy trimmed then sections ++ ["## " +:+ label +:+ nl +:+ trimmed]
      else sections
  end.

Definition buildUnifiedUserPrompt (question : string) (chatHistory instructions : option string)
    : string :=
  let sections :=
    match instructions with
    | Some i => if JS.truthy (JS.trim i) then [JS.trim i] else []
    | None => []
    end in
  let sections := pushSection "Conversation History" chatHistory sections in
  let sections := pushSection "User Question" (Some question) sections in
  JS.join (nl +:+ nl +:+ "---" +:+ nl +:+ nl) sections.

(** Without a [systemPrompt] option, as the route calls it. *)
Definition buildProviderMessages (question : string) (chatHistory instructions : option string)
    : list ProviderChatMessage :=
  let userPrompt := buildUnifiedUserPrompt question chatHistory instructions in
  let systemPrompt := JS.trim UNIFIED_SYSTEM_PROMPT in
  [ {| pRole := system; pContent := systemPrompt |};
    {| pRole := user; pContent := userPrompt |} ].

(** *** app/api/chat/route.ts *)

Definition formatMessage (message : VercelChatMessage) : string :=
  roleString (role message) +:+ ": " +:+ messageContent message.

Definition CHAT_USER_PROMPT_INSTRUCTIONS : string :=
  "### Task" +:+ nl +:+
  "- Follow the system guidelines above." +:+ nl +:+
  "- Use the conversation history for additional context when crafting your response.".

Definition buildSSEMessage (type : SSE.SSEEventType) (data : string) (id : option string)
    : string :=
  let message := [("type", Json.Str (SSE.name type)); ("data", Json.Str data)] in
  let message :=
    match id with
    | Some (String a i) => message ++ [("id", Json.Str (String a i))]
    | _ => message
    end in
  "data: " +:+ Json.stringify (Json.Obj message) +:+ nl +:+ nl.

Definition createPerformanceMetrics (platform : Platform) : PerformanceMetrics :=
  {| requestId := randomUUID platform;
     startTime := nowAtStart platform;
     messageCount := 0;
     errorCount := 0 |}.

Definition logPerformanceMetrics (platform : Platform) (error : option Thrown) : M State unit :=
  modify (fun s =>
    let m := metrics s in
    withConsole (fun lines => lines ++
      [ {| logRequestId := requestId m;
           logDuration := nowAtLog platform - startTime m;
           logMessageCount := messageCount m;
           logErrorCount := errorCount m;
           logError := error ≫= messageOf;
           logTimestamp := isoAtLog platform |} ]) s).

Definition baseOrigins : list string := ["https://intranet.bank.local"].

Definition envOrigins : list string :=
  match env !! "ALLOWED_ORIGINS" with
  | Some (String a s) =>
      filter (fun o => JS.truthy o = true) (map JS.trim (JS.split "," (String a s)))
  | _ => []
  end.

Definition isProduction : bool :=
  bool_decide (env !! "NODE_ENV" = Some "production").

Definition devOrigins : list string :=
  if isProduction then []
  else ["http://localhost:3000"; "http://127.0.0.1:3000";
        "http://localhost:3001"; "http://127.0.0.1:3001"].

(** [[...new Set(l)]]: the first occurrence of each element, in order. *)
Fixpoint newSet (seen l : list string) : list string :=
  match l with
  | [] => []
  | x :: l' =>
      if bool_decide (x ∈ seen) then newSet seen l' else x :: newSet (x :: seen) l'
  end.

Definition allowedOrigins : list string :=
  newSet [] (baseOrigins ++ envOrigins ++ devOrigins).

Definition includes (l : list string) (x : string) : bool := bool_decide (x ∈ l).

(** [allowedOrigins[0]] in a header. *)
Definition firstAllowedOrigin : string := default "undefined" (head allowedOrigins).

Definition corsHeaders (allowOrigin : string) : gmap string string :=
  {[ "Access-Control-Allow-Origin" := allowOrigin; "Vary" := "Origin" ]}.

Definition jsonResponse (error requestId : option string) (status : nat)
    (allowOrigin : string) : Response :=
  {| status := status;
     responseHeaders := corsHeaders allowOrigin;
     body := JsonBody error requestId |}.

Definition streamHeaders (allowOrigin : string) : gmap string string :=
  {[ "Content-Type" := "text/event-stream";
     "Cache-Control" := "no-cache";
     "Connection" := "keep-alive";
     "X-Accel-Buffering" := "no";
     "Access-Control-Allow-Origin" := allowOrigin;
     "Access-Control-Allow-Methods" := "POST, OPTIONS";
     "Access-Control-Allow-Headers" := "Content-Type, X-Internal-User-Id, X-Tenant-Id";
     "Vary" := "Origin" ]}.

(** [controller.enqueue(encoder.encode(text))]: a TypeError once the
    stream is closed. *)
Definition enqueue (text : string) : M State unit :=
  fun s =>
    if closed (controller s)
    then (Abrupt (ErrorObject "Invalid state: Controller is already closed"), s)
    else (Normal tt,
          withController (fun c =>
            {| queue := queue c ++ [text]; closed := closed c; errored := errored c |}) s).

(** [controller.close()]. *)
Definition close : M State unit :=
  fun s =>
    if closed (controller s)
    then (Abrupt (ErrorObject "Invalid state: Controller is already closed"), s)
    else (Normal tt,
          withController (fun c =>
            {| queue := queue c; closed := true; errored := errored c |}) s).

(** [chunk?.choices?.[0]?.delta?.content]. *)
Definition tokenOf (chunk : option ChatCompletionChunk) : option Json.value :=
  match chunk with
  | Some c =>
      match choices c with
      | Some (first :: _) =>
          match delta first with
          | Some d => content d
          | None => None
          end
      | _ => None
      end
  | None => None
  end.

(** [typeof token === 'string'], with the string. *)
Definition asString (token : option Json.value) : option string :=
  match token with
  | Some (Json.Str s) => Some s
  | _ => None
  end.

(** One turn of [for await (const chunk of stream)]. *)
Definition relayChunk (chunk : option ChatCompletionChunk) : M State unit :=
  match asString (tokenOf chunk) with
  | None => ret tt
  | Some token =>
      modify (withMetrics incMessageCount);;
      m ← gets metrics;
      enqueue (buildSSEMessage SSE.CONTENT token
                 (Some (requestId m +:+ "-" +:+ JS.ofNat (messageCount m))))
  end.

Fixpoint forAwait (stream : ChatCompletionStream) : M State unit :=
  match stream with
  | StreamEnd => ret tt
  | StreamThrow e => throw e
  | StreamChunk chunk rest => relayChunk chunk;; forAwait rest
  end.

Definition metadataJson (platform : Platform) (m : PerformanceMetrics)
    (model : string) (provider : ProviderName) : string :=
  Json.stringify (Json.Obj
    [ ("requestId", Json.Str (requestId m));
      ("timestamp", Json.Str (isoAtMetadata platform));
      ("model", Json.Str model);
      ("provider", Json.Str (providerString provider)) ]).

(** The [start] callback of the [ReadableStream]. *)
Definition start (platform : Platform) (stream : ChatCompletionStream)
    (model : string) (provider : ProviderName) : M State unit :=
  tryCatch
    (m ← gets metrics;
     enqueue (buildSSEMessage SSE.METADATA (metadataJson platform m model provider)
                (Some (requestId m)));;
     forAwait stream;;
     enqueue (buildSSEMessage SSE.DONE "" (Some (requestId m +:+ "-done")));;
     close;;
     logPerformanceMetrics platform None)
    (fun error =>
       modify (withMetrics incErrorCount);;
       m ← gets metrics;
       let errorMessage := default "Unknown error" (messageOf error) in
       enqueue (buildSSEMessage SSE.ERROR errorMessage (Some (requestId m +:+ "-error")));;
       close;;
       logPerformanceMetrics platform (Some error)).

(** [new ReadableStream({ start })]: a fresh controller, on which [start]
    runs; should [start] reject, the stream is put in error. The chunks are
    those the client can read. The reader stays to the end: a stream that its
    reader cancels while [start] runs is not part of this model. *)
Definition readableStream (platform : Platform) (stream : ChatCompletionStream)
    (model : string) (provider : ProviderName) : M State (list string) :=
  modify (withController (fun _ => {| queue := []; closed := false; errored := false |}));;
  tryCatch (start platform stream model provider)
    (fun _ =>
       modify (withController (fun c =>
         {| queue := queue c; closed := closed c; errored := true |})));;
  gets (fun s => queue (controller s)).

(** The checks of [POST] on the headers. *)

(** [origin && !allowedOrigins.includes(origin)]. *)
Definition originRejected (req : NextRequest) : bool :=
  match headers req !! "origin" with
  | Some origin => JS.truthy origin && negb (includes allowedOrigins origin)
  | None => false
  end.

(** [origin && allowedOrigins.includes(origin) ? origin : allowedOrigins[0]]. *)
Definition effectiveOrigin (req : NextRequest) : string :=
  match headers req !! "origin" with
  | Some origin =>
      if JS.truthy origin && includes allowedOrigins origin then origin
      else firstAllowedOrigin
  | None => firstAllowedOrigin
  end.

(** [header ?? (isProduction ? null : fallback)]. *)
Definition identityOf (header : option string) (fallback : string) : option string :=
  match header with
  | Some value => Some value
  | None => if isProduction then None else Some fallback
  end.

Definition userId (req : NextRequest) : option string :=
  identityOf (headers req !! "x-internal-user-id")
    (JS.orElse (env !! "DEFAULT_INTERNAL_USER_ID") "dev-user").

Definition tenantId (req : NextRequest) : option string :=
  identityOf (headers req !! "x-tenant-id")
    (JS.orElse (env !! "DEFAULT_TENANT_ID") "dev-tenant").

(** [!userId || !tenantId]. *)
Definition identityMissing (req : NextRequest) : bool :=
  negb (JS.truthy (default "" (userId req))) || negb (JS.truthy (default "" (tenantId req))).

Definition invalidRequest (origin : string) : M State Response :=
  modify (withMetrics incErrorCount);;
  ret (jsonResponse (Some "Invalid request: missing messages or content") None 400 origin).

(** [POST]. The call of [tracePrompt], which at most writes a debug line to
    the console, is left out. *)
Definition POST (platform : Platform) (req : NextRequest) : M State Response :=
  modify (withMetrics (fun _ => createPerformanceMetrics platform));;
  if originRejected req then
    ret (jsonResponse (Some "Origin not allowed.") None 403 firstAllowedOrigin)
  else if identityMissing req then
    ret (jsonResponse (Some "Missing authentication context.") None 401 (effectiveOrigin req))
  else
    tryCatch
      (body ← lift (json req);
       let messages := default [] (bodyMessages body) in
       let requestedProvider := bodyProvider body in
       provider ← lift (resolveProvider requestedProvider);
       match last messages with
       | None => invalidRequest (effectiveOrigin req)
       | Some lastMessage =>
           if negb (JS.truthy (messageContent lastMessage)) then
             invalidRequest (effectiveOrigin req)
           else
             let formattedPreviousMessages :=
               map formatMessage (take (length messages - 1) messages) in
             let chatHistory := JS.join nl formattedPreviousMessages in
             let currentMessageContent := messageContent lastMessage in
             let providerMessages :=
               buildProviderMessages currentMessageContent
                 (if JS.truthy chatHistory then Some chatHistory else None)
                 (Some CHAT_USER_PROMPT_INSTRUCTIONS) in
             opened ← chatCompletionStream
               {| paramMessages := providerMessages;
                  paramTemperature := Some 4;
                  paramModel := None;
                  paramProvider := Some (providerString provider) |};
             let '(stream, _, model) := opened in
             chunks ← readableStream platform stream model provider;
             ret {| status := 200;
                    responseHeaders := streamHeaders (effectiveOrigin req);
                    body := EventStream chunks |}
       end)
      (fun error =>
         modify (withMetrics incErrorCount);;
         logPerformanceMetrics platform (Some error);;
         m ← gets metrics;
         ret (jsonResponse (messageOf error) (Some (requestId m)) 500 (effectiveOrigin req))).

(** *** The frames of a relayed stream, for stating what [start] writes *)

(** The chunks a stream yields, and the error that ends it, if one does. *)
Fixpoint chunksOf (stream : ChatCompletionStream) : list (option ChatCompletionChunk) :=
  match stream with
  | StreamEnd | StreamThrow _ => []
  | StreamChunk chunk rest => chunk :: chunksOf rest
  end.

Fixpoint failureOf (stream : ChatCompletionStream) : option Thrown :=
  match stream with
  | StreamEnd => None
  | StreamThrow e => Some e
  | StreamChunk _ rest => failureOf rest
  end.

(** The tokens of the chunks whose first choice has a string for its delta
    content, in the order of the chunks. *)
Definition stringTokens (chunks : list (option ChatCompletionChunk)) : list string :=
  omap (fun chunk => asString (tokenOf chunk)) chunks.

(** A frame on the wire. *)
Definition encode (m : SSE.SSEMessage) : string :=
  buildSSEMessage (SSE.type m) (SSE.data m) (SSE.id m).

(** Content frames for [tokens], numbered from [n + 1]. *)
Fixpoint contentMessages (requestId : string) (n : nat) (tokens : list string)
    : list SSE.SSEMessage :=
  match tokens with
  | [] => []
  | token :: rest =>
      SSE.Message SSE.CONTENT token (Some (requestId +:+ "-" +:+ JS.ofNat (S n)))
        :: contentMessages requestId (S n) rest
  end.

Definition metadataMessage (platform : Platform) (model : string) (provider : ProviderName)
    : SSE.SSEMessage :=
  SSE.Message SSE.METADATA
    (metadataJson platform (createPerformanceMetrics platform) model provider)
    (Some (randomUUID platform)).

Definition terminalMessage (requestId : string) (failure : option Thrown) : SSE.SSEMessage :=
  match failure with
  | None => SSE.Message SSE.DONE "" (Some (requestId +:+ "-done"))
  | Some error =>
      SSE.Message SSE.ERROR (default "Unknown error" (messageOf error))
        (Some (requestId +:+ "-error"))
  end.

End Route.

(** The members [buildSSEMessage] writes for a frame. *)
Definition membersOf (m : SSE.SSEMessage) : list (string * string) :=
  ("type", SSE.name (SSE.type m)) :: ("data", SSE.data m)
    :: match SSE.id m with
       | Some (String a i) => [("id", String a i)]
       | _ => []
       end.

(** The text of the content frames before the first terminal frame. *)
Fixpoint textOf (frames : list SSE.SSEMessage) : string :=
  match frames with
  | [] => ""
  | m :: rest =>
      match SSE.type m with
      | SSE.CONTENT => SSE.data m +:+ textOf rest
      | SSE.METADATA => textOf rest
      | SSE.DONE | SSE.ERROR => ""
      end
  end.

(** The line of a frame: its text up to the two line feeds that end it. *)
Definition lineOf (m : SSE.SSEMessage) : string :=
  "data: " +:+ Json.stringify (Json.Obj (map Json.stringMember (membersOf m))).


(** A frame that writes no other request id than the metadata frame of the
    response does: that metadata frame itself, or a frame of another type. *)
Definition writesNoOtherId (platform : Platform) (model : string) (provider : ProviderName)
    (m : SSE.SSEMessage) : Prop :=
  m = metadataMessage platform model provider \/ SSE.type m <> SSE.METADATA.

(** Modelled from the spec: [normalizeProviderName] of lib/providers/types
    is not among the sources. The spec has the resolver return the canonical
    provider of a selector, fall back to a process-wide default when there is
    none, and fail loudly, not default, on a selector it does not recognise.
    The providers are the two keys of [PROVIDER_CONFIGS]; the default is taken
    to be [openai]. *)
Definition normalizeProviderName_spec (value : option string) : Completion ProviderName :=
  match value with
  | None => Normal openai
  | Some v =>
      if String.eqb v "openai" then Normal openai
      else if String.eqb v "qwen" then Normal qwen
      else Abrupt (ErrorObject ("Unsupported provider: " +:+ v))
  end.

(** A state in which no request has run yet. *)
Definition fresh : State :=
  {| clientCache := ∅; invocations := []; console := [];
     metrics := {| requestId := ""; startTime := 0; messageCount := 0; errorCount := 0 |};
     controller := {| queue := []; closed := false; errored := false |} |}.

End Server.

(** ** The client: hooks/useChat.ts *)

Module Client.

Inductive ConnectionStatus : Type := DISCONNECTED | CONNECTING | CONNECTED | ERROR.

Inductive Role : Type := user | assistant | system.

#[global] Instance Role_eq_dec : EqDecision Role.
Proof. solve_decision. Defined.

(** [Record<string, unknown>]. *)
Abbreviation JsRecord := (gmap string Json.value).

(** [interface ChatMessage] of components/ChatWindow/types. *)
Record ChatMessage : Type := {
  role : Role;
  content : string;
  timestamp : option Z;
  metadata : option JsRecord;
}.

Record PerformanceMetrics : Type := {
  requestId : option string;
  startTime : Z;
  messageCount : nat;
  errorCount : nat;
  latency : list Z;
}.

Record UseChatOptions : Type := {
  apiUrl : string;
  maxRetries : option Z;
  retryDelay : option Z;
}.

(** A call of one of the optional callbacks of the options. *)
Inductive Callback : Type :=
| onStart
| onSuccess (message : ChatMessage)
| onError (message : option string)
| onComplete
| onConnectionChange (status : ConnectionStatus).

(** One call of [fetch]: the URL, and the two parts of the JSON body,
    [{ messages, ...(payload ?? {}) }]. *)
Record FetchCall : Type := {
  fetchUrl : string;
  fetchMessages : list ChatMessage;
  fetchPayload : JsRecord;
}.

(** The body of a response, by what [reader.read()] gives: the text of a
    chunk with the clock at its arrival, the end, or a failed read. *)
Inductive ReadableBody : Type :=
| Done
| Read (value : string) (arrival : Z) (rest : ReadableBody)
| ReadError (e : Thrown).

(** A [Response]: [json] is what [response.json()] gives, reduced to the
    [error] member of the payload when it has one; [text] is what
    [response.text()] gives. *)
Record HttpResponse : Type := {
  status : nat;
  json : Completion (option string);
  text : Completion string;
  body : option ReadableBody;
}.

Definition ok (r : HttpResponse) : bool :=
  (200 <=? status r)%nat && (status r <=? 299)%nat.

(** What one [sendMessageCore] finds outside the hook: the result of
    [fetch], the request id drawn for the stream, and the clock at the call
    and once [fetch] has settled. *)
Record Network : Type := {
  fetchResult : Completion HttpResponse;
  uuid : string;
  now : Z;
  later : Z;
}.

(** The state of the hook: its seven [useState] cells, its two refs, and
    the record of what it did to the outside. *)
Record Hook : Type := {
  messages : list ChatMessage;
  input : string;
  isLoading : bool;
  error : option string;
  retryCount : Z;
  connectionStatus : ConnectionStatus;
  metrics : PerformanceMetrics;
  streamingMessageRef : option (nat * string);
  lastPayloadRef : option JsRecord;
  fetched : list FetchCall;
  called : list Callback;
}.

Definition initial : Hook :=
  {| messages := []; input := ""; isLoading := false; error := None; retryCount := 0;
     connectionStatus := DISCONNECTED;
     metrics := {| requestId := None; startTime := 0; messageCount := 0;
                   errorCount := 0; latency := [] |};
     streamingMessageRef := None; lastPayloadRef := None;
     fetched := []; called := [] |}.

Definition setMessages (f : list ChatMessage -> list ChatMessage) : M Hook unit :=
  modify (fun h =>
    {| messages := f (messages h); input := input h; isLoading := isLoading h;
       error := error h; retryCount := retryCount h;
       connectionStatus := connectionStatus h; metrics := metrics h;
       streamingMessageRef := streamingMessageRef h; lastPayloadRef := lastPayloadRef h;
       fetched := fetched h; called := called h |}).

Definition setIsLoading (b : bool) : M Hook unit :=
  modify (fun h =>
    {| messages := messages h; input := input h; isLoading := b;
       error := error h; retryCount := retryCount h;
       connectionStatus := connectionStatus h; metrics := metrics h;
       streamingMessageRef := streamingMessageRef h; lastPayloadRef := lastPayloadRef h;
       fetched := fetched h; called := called h |}).

Definition setError (e : option string) : M Hook unit :=
  modify (fun h =>
    {| messages := messages h; input := input h; isLoading := isLoading h;
       error := e; retryCount := retryCount h;
       connectionStatus := connectionStatus h; metrics := metrics h;
       streamingMessageRef := streamingMessageRef h; lastPayloadRef := lastPayloadRef h;
       fetched := fetched h; called := called h |}).

Definition setRetryCount (f : Z -> Z) : M Hook unit :=
  modify (fun h =>
    {| messages := messages h; input := input h; isLoading := isLoading h;
       error := error h; retryCount := f (retryCount h);
       connectionStatus := connectionStatus h; metrics := metrics h;
       streamingMessageRef := streamingMessageRef h; lastPayloadRef := lastPayloadRef h;
       fetched := fetched h; called := called h |}).

Definition setConnectionStatus (c : ConnectionStatus) : M Hook unit :=
  modify (fun h =>
    {| messages := messages h; input := input h; isLoading := isLoading h;
       error := error h; retryCount := retryCount h;
       connectionStatus := c; metrics := metrics h;
       streamingMessageRef := streamingMessageRef h; lastPayloadRef := lastPayloadRef h;
       fetched := fetched h; called := called h |}).

Definition setMetrics (f : PerformanceMetrics -> PerformanceMetrics) : M Hook unit :=
  modify (fun h =>
    {| messages := messages h; input := input h; isLoading := isLoading h;
       error := error h; retryCount := retryCount h;
       connectionStatus := connectionStatus h; metrics := f (metrics h);
       streamingMessageRef := streamingMessageRef h; lastPayloadRef := lastPayloadRef h;
       fetched := fetched h; called := called h |}).

(** [streamingMessageRef.current = r]. *)
Definition setStreamingMessageRef (r : option (nat * string)) : M Hook unit :=
  modify (fun h =>
    {| messages := messages h; input := input h; isLoading := isLoading h;
       error := error h; retryCount := retryCount h;
       connectionStatus := connectionStatus h; metrics := metrics h;
       streamingMessageRef := r; lastPayloadRef := lastPayloadRef h;
       fetched := fetched h; called := called h |}).

(** [lastPayloadRef.current = p]. *)
Definition setLastPayloadRef (p : option JsRecord) : M Hook unit :=
  modify (fun h =>
    {| messages := messages h; input := input h; isLoading := isLoading h;
       error := error h; retryCount := retryCount h;
       connectionStatus := connectionStatus h; metrics := metrics h;
       streamingMessageRef := streamingMessageRef h; lastPayloadRef := p;
       fetched := fetched h; called := called h |}).

Definition recordFetch (c : FetchCall) : M Hook unit :=
  modify (fun h =>
    {| messages := messages h; input := input h; isLoading := isLoading h;
       error := error h; retryCount := retryCount h;
       connectionStatus := connectionStatus h; metrics := metrics h;
       streamingMessageRef := streamingMessageRef h; lastPayloadRef := lastPayloadRef h;
       fetched := fetched h ++ [c]; called := called h |}).

(** [optionsRef.current.cb?.(...)]. *)
Definition call (cb : Callback) : M Hook unit :=
  modify (fun h =>
    {| messages := messages h; input := input h; isLoading := isLoading h;
       error := error h; retryCount := retryCount h;
       connectionStatus := connectionStatus h; metrics := metrics h;
       streamingMessageRef := streamingMessageRef h; lastPayloadRef := lastPayloadRef h;
       fetched := fetched h; called := called h ++ [cb] |}).

(** [String(v)] on a parsed value; a number gives its literal. *)
Fixpoint coerce (v : Json.value) : string :=
  match v with
  | Json.Null => "null"
  | Json.Bool true => "true"
  | Json.Bool false => "false"
  | Json.Num literal => literal
  | Json.Str s => s
  | Json.Arr items =>
      JS.join "," (map (fun i => match i with Json.Null => "" | _ => coerce i end) items)
  | Json.Obj _ => "[object Object]"
  end.

(** The same on a member that may be missing. *)
Definition coerceMember (v : option Json.value) : string :=
  match v with
  | Some v => coerce v
  | None => "undefined"
  end.

(** The updaters handed to [setMetrics]. *)
Definition metricsOnMetadata (metadata : Json.value) (clock : Z) (prev : PerformanceMetrics)
    : PerformanceMetrics :=
  {| requestId :=
       match Json.field "requestId" metadata with
       | None | Some Json.Null => requestId prev
       | Some v => Some (coerce v)
       end;
     startTime := clock;
     messageCount := messageCount prev;
     errorCount := errorCount prev;
     latency := latency prev |}.

Definition metricsOnContent (elapsed : Z) (prev : PerformanceMetrics) : PerformanceMetrics :=
  {| requestId := requestId prev;
     startTime := startTime prev;
     messageCount := S (messageCount prev);
     errorCount := errorCount prev;
     latency := drop (length (latency prev) - 9) (latency prev) ++ [elapsed] |}.

Definition metricsOnError (prev : PerformanceMetrics) : PerformanceMetrics :=
  {| requestId := requestId prev;
     startTime := startTime prev;
     messageCount := messageCount prev;
     errorCount := S (errorCount prev);
     latency := latency prev |}.

Definition metricsOnSend (clock : Z) : PerformanceMetrics :=
  {| requestId := None; startTime := clock; messageCount := 0; errorCount := 0;
     latency := [] |}.

(** [{ ...target, content: (target.content || '') + data }]. *)
Definition appendContent (target : ChatMessage) (data : string) : ChatMessage :=
  {| role := role target;
     content := content target +:+ data;
     timestamp := timestamp target;
     metadata := metadata target |}.

Section UseChat.

Variable options : UseChatOptions.

Definition clearMessages : M Hook unit :=
  setMessages (fun _ => []);;
  setError None;;
  setRetryCount (fun _ => 0).

Definition updateConnectionStatus (status : ConnectionStatus) : M Hook unit :=
  setConnectionStatus status;;
  call (onConnectionChange status).

(** [case SSEEventType.CONTENT]: the updater of [setMessages], then the one
    of [setMetrics]. *)
Definition onContent (requestId data : string) (startTime arrival : Z) : M Hook unit :=
  context ← gets streamingMessageRef;
  setMessages (fun prev =>
    match context with
    | None => prev
    | Some (index, contextId) =>
        if negb (String.eqb contextId requestId) then prev
        else
          match prev !! index with
          | None => prev
          | Some target =>
              <[index := appendContent target data]> prev
          end
    end);;
  setMetrics (metricsOnContent (arrival - startTime)).

(** The [switch] on a parsed record; [true] when it returns from
    [handleStreamingResponse]. A record of another type falls through. *)
Definition onRecord (requestId : string) (startTime arrival : Z) (sseMessage : Json.value)
    : M Hook bool :=
  match sseMessage with
  | Json.Null => throw (ErrorObject "Cannot read properties of null (reading 'type')")
  | _ =>
      let data := coerceMember (Json.field "data" sseMessage) in
      let type :=
        match Json.field "type" sseMessage with
        | Some (Json.Str t) => SSE.ofName t
        | _ => None
        end in
      match type with
      | Some SSE.METADATA =>
          match Json.parse data with
          | None => throw (ErrorObject "Unexpected token in JSON")
          | Some Json.Null =>
              throw (ErrorObject "Cannot read properties of null (reading 'requestId')")
          | Some metadata =>
              setMetrics (metricsOnMetadata metadata arrival);;
              ret false
          end
      | Some SSE.CONTENT =>
          onContent requestId data startTime arrival;;
          ret false
      | Some SSE.DONE =>
          setStreamingMessageRef None;;
          updateConnectionStatus DISCONNECTED;;
          call onComplete;;
          ret true
      | Some SSE.ERROR =>
          setStreamingMessageRef None;;
          setError (match Json.field "data" sseMessage with
                    | None | Some Json.Null => None
                    | Some v => Some (coerce v)
                    end);;
          setMetrics metricsOnError;;
          updateConnectionStatus ERROR;;
          call (onError (Some (match Json.field "data" sseMessage with
                               | None => ""
                               | Some v => coerce v
                               end)));;
          ret true
      | None => ret false
      end
  end.

(** The body of [for (const line of lines)] for one line; [true] when it
    returns from [handleStreamingResponse]. *)
Definition onLine (requestId : string) (startTime arrival : Z) (line : string) : M Hook bool :=
  if JS.startsWith line "data: " then
    let data := JS.slice 6 line in
    if negb (JS.truthy (JS.trim data)) then ret false
    else
      tryCatch
        (match Json.parse data with
         | Some sseMessage => onRecord requestId startTime arrival sseMessage
         | None => throw (ErrorObject "Unexpected token in JSON")
         end)
        (fun _ => ret false)
  else ret false.

Fixpoint forLines (requestId : string) (startTime arrival : Z) (lines : list string)
    : M Hook bool :=
  match lines with
  | [] => ret false
  | line :: rest =>
      returned ← onLine requestId startTime arrival line;
      if (returned : bool) then ret true else forLines requestId startTime arrival rest
  end.

(** [while (true)] over the reads of the body. *)
Fixpoint whileRead (requestId : string) (startTime : Z) (reader : ReadableBody) : M Hook unit :=
  match reader with
  | Done => ret tt
  | ReadError e => throw e
  | Read value arrival rest =>
      let chunk := value in
      let lines := JS.split JS.LF chunk in
      returned ← forLines requestId startTime arrival lines;
      if (returned : bool) then ret tt else whileRead requestId startTime rest
  end.

Definition handleStreamingResponse (response : HttpResponse) (requestId : string) (clock : Z)
    : M Hook unit :=
  match body response with
  | None => throw (ErrorObject "No response body")
  | Some reader =>
      prev ← gets messages;
      let assistantMessage :=
        {| role := assistant; content := ""; timestamp := Some clock; metadata := None |} in
      let nextMessages := prev ++ [assistantMessage] in
      setStreamingMessageRef (Some ((length nextMessages - 1)%nat, requestId));;
      setMessages (fun _ => nextMessages);;
      updateConnectionStatus CONNECTED;;
      let startTime := clock in
      tryFinally
        (whileRead requestId startTime reader)
        (setStreamingMessageRef None;;
         updateConnectionStatus DISCONNECTED)
  end.

(** The message of a response that is not [ok]. *)
Definition errorMessageOf (response : HttpResponse) : string :=
  let errorMessage := "Request failed with status " +:+ JS.ofNat (status response) in
  match json response with
  | Normal (Some (String a e)) => String a e
  | Normal _ => errorMessage
  | Abrupt _ =>
      match text response with
      | Normal t => t
      | Abrupt _ => errorMessage
      end
  end.

(** The updater of [setMessages] on a response that is not [ok]. *)
Definition standIn (errorMessage : string) (clock : Z) (prev : list ChatMessage)
    : list ChatMessage :=
  match last prev with
  | None => prev
  | Some lastMessage =>
      let lastIndex := (length prev - 1)%nat in
      if decide (role lastMessage = assistant) then
        <[lastIndex := {| role := role lastMessage;
                          content := errorMessage;
                          timestamp := timestamp lastMessage;
                          metadata := Some (<["error" := Json.Bool true]>
                                              (default ∅ (metadata lastMessage))) |}]> prev
      else
        prev ++ [ {| role := assistant;
                     content := errorMessage;
                     timestamp := Some clock;
                     metadata := Some {[ "error" := Json.Bool true ]} |} ]
  end.

Definition sendMessageCore (net : Network) (content : string)
    (currentMessages : list ChatMessage) (payload : option JsRecord) : M Hook unit :=
  loading ← gets isLoading;
  if negb (JS.truthy (JS.trim content)) || loading then ret tt
  else
    setLastPayloadRef payload;;
    call onStart;;
    setError None;;
    updateConnectionStatus CONNECTING;;
    setMetrics (fun _ => metricsOnSend (now net));;
    let userMessage :=
      {| role := user; content := JS.trim content; timestamp := Some (now net);
         metadata := None |} in
    let newMessages := currentMessages ++ [userMessage] in
    setMessages (fun _ => newMessages);;
    setIsLoading true;;
    tryFinally
      (tryCatch
         (recordFetch {| fetchUrl := apiUrl options;
                         fetchMessages := newMessages;
                         fetchPayload := default ∅ payload |};;
          response ← lift (fetchResult net);
          if negb (ok response) then
            let errorMessage := errorMessageOf response in
            setStreamingMessageRef None;;
            updateConnectionStatus ERROR;;
            setError (Some errorMessage);;
            setMessages (standIn errorMessage (later net))
          else
            let requestId := uuid net in
            handleStreamingResponse response requestId (later net);;
            match last newMessages with
            | Some lastMessage => call (onSuccess lastMessage)
            | None => ret tt
            end)
         (fun errorObj =>
            setError (messageOf errorObj);;
            updateConnectionStatus ERROR;;
            call (onError (messageOf errorObj));;
            let errorMessage :=
              {| role := assistant;
                 content := "Sorry, there was an error processing your request.";
                 timestamp := Some (later net);
                 metadata := None |} in
            setMessages (fun prev => prev ++ [errorMessage])))
      (setIsLoading false).

Definition sendMessage (net : Network) (content : string) (payload : option JsRecord)
    : M Hook unit :=
  setLastPayloadRef payload;;
  currentMessages ← gets messages;
  sendMessageCore net content currentMessages payload.

(** [optionsRef.current.maxRetries || 3]: an absent maximum, and one of
    zero, count as three. *)
Definition maxRetriesOr3 : Z :=
  match maxRetries options with
  | Some 0 | None => 3
  | Some n => n
  end.

Definition retry (net : Network) : M Hook unit :=
  count ← gets retryCount;
  currentMessages ← gets messages;
  if count >=? maxRetriesOr3 then
    setError (Some "Maximum retry attempts reached")
  else
    setRetryCount (fun prev => prev + 1);;
    setError None;;
    match last currentMessages with
    | Some lastUserMessage =>
        if decide (role lastUserMessage = user) then
          payload ← gets lastPayloadRef;
          sendMessageCore net (Client.content lastUserMessage)
            (take (length currentMessages - 1) currentMessages) payload
        else ret tt
    | None => ret tt
    end.

End UseChat.

(** The state a computation leaves. *)
Definition run {A} (m : M Hook A) (h : Hook) : Hook := (m h).2.

(** A computation keeps the part [f] of the state: whatever the state it
    starts in and however it ends, [f] reads the same afterwards. *)
Definition Keeps {A X} (f : Hook -> X) (m : M Hook A) : Prop :=
  forall h, f (m h).2 = f h.

(** The roles of the messages and their metadata, in order. *)
Definition roles (h : Hook) : list Role := role <$> messages h.
Definition flags (h : Hook) : list (option JsRecord) := metadata <$> messages h.

(** What reading a stream has no business with: the calls of [fetch], the
    retry counter, the cached payload, the in-flight flag, the input, and the
    roles and metadata of the messages. *)
Definition besideStream (h : Hook)
    : list FetchCall * Z * option JsRecord * bool * string
      * list Role * list (option JsRecord) :=
  (fetched h, retryCount h, lastPayloadRef h, isLoading h, input h, roles h, flags h).

(** What the decoder makes of one line of a read: the type and the data
    of the record it parses to, if it does. A line that does not start with
    [data: ], is blank after it, does not parse, or parses to a record of no
    known type, is skipped. *)
Definition recordOf (line : string) : option (SSE.SSEEventType * string) :=
  if JS.startsWith line "data: " then
    let data := JS.slice 6 line in
    if negb (JS.truthy (JS.trim data)) then None
    else
      match Json.parse data with
      | None | Some Json.Null => None
      | Some sseMessage =>
          match Json.field "type" sseMessage with
          | Some (Json.Str t) =>
              match SSE.ofName t with
              | Some type => Some (type, coerceMember (Json.field "data" sseMessage))
              | None => None
              end
          | _ => None
          end
      end
  else None.

(** The text of the content records of some lines, up to the first
    terminal record, and whether there is one. *)
Fixpoint contentOfLines (lines : list string) : string * bool :=
  match lines with
  | [] => ("", false)
  | line :: rest =>
      match recordOf line with
      | Some (SSE.CONTENT, data) =>
          let '(text, terminal) := contentOfLines rest in (data +:+ text, terminal)
      | Some (SSE.DONE, _) | Some (SSE.ERROR, _) => ("", true)
      | Some (SSE.METADATA, _) | None => contentOfLines rest
      end
  end.

(** The same for a body, read by read, until a read fails. *)
Fixpoint contentOfBody (reader : ReadableBody) : string :=
  match reader with
  | Done | ReadError _ => ""
  | Read value _ rest =>
      let '(text, terminal) := contentOfLines (JS.split JS.LF value) in
      if terminal then text else text +:+ contentOfBody rest
  end.

(** Whether a message bears the error flag, [metadata.error === true]. *)
Definition flagged (m : ChatMessage) : bool :=
  match metadata m with
  | Some record =>
      match record !! "error" with
      | Some (Json.Bool true) => true
      | _ => false
      end
  | None => false
  end.

(** The read that fails, when the reading of a body gets to it: no terminal
    record comes before it. *)
Fixpoint failureOfBody (reader : ReadableBody) : option Thrown :=
  match reader with
  | Done => None
  | ReadError e => Some e
  | Read value _ rest =>
      if (contentOfLines (JS.split JS.LF value)).2 then None else failureOfBody rest
  end.

(** The message [sendMessageCore] adds for the user. *)
Definition userMessageOf (net : Network) (content : string) : ChatMessage :=
  {| role := user; content := JS.trim content; timestamp := Some (now net);
     metadata := None |}.

(** The message its [catch] block adds. *)
Definition apologyOf (net : Network) : ChatMessage :=
  {| role := assistant;
     content := "Sorry, there was an error processing your request.";
     timestamp := Some (later net);
     metadata := None |}.

(** The latency list holds one sample for each content record counted, up
    to ten of them. *)
Definition latencyWindow (m : PerformanceMetrics) : Prop :=
  length (latency m) = Nat.min 10 (messageCount m).

(** A computation maintains [P]: from a state where it holds, it holds in
    the state the computation leaves, however it ends. *)
Definition Maintains {A} (P : Hook -> Prop) (m : M Hook A) : Prop :=
  forall h, P h -> P (m h).2.

(** The states of a session: the hook as it is first rendered, and what a
    call of [sendMessage], [retry] or [clearMessages] makes of a state of the
    session, each call running to its end before the next one is made. *)
Inductive Session (options : UseChatOptions) : Hook -> Prop :=
| session_initial : Session options initial
| session_sendMessage net content payload h :
    Session options h -> Session options (run (sendMessage options net content payload) h)
| session_retry net h :
    Session options h -> Session options (run (retry options net) h)
| session_clearMessages h :
    Session options h -> Session options (run clearMessages h).

End Client.

(** ** Sample deployments, requests and transports *)

Module Scenario.

Import Server.

(** A development deployment with a key for OpenAI. *)
Definition env : gmap string string := {[ "OPENAI_API_KEY" := "sk-test" ]}.

Definition systemPrompt : string := "You are a helpful assistant.".

Definition platform : Platform :=
  {| randomUUID := "req-1"; nowAtStart := 1000; nowAtLog := 1250;
     isoAtMetadata := "2025-01-01T00:00:00.000Z";
     isoAtLog := "2025-01-01T00:00:00.250Z" |}.

(** A chunk whose first choice has [token] for its delta content. *)
Definition chunkWith (token : Json.value) : option ChatCompletionChunk :=
  Some {| choices := Some [ {| delta := Some {| content := Some token |} |} ] |}.

(** A chunk with a delta that has no content (the role chunk, the final
    chunk with its finish reason). *)
Definition chunkWithout : option ChatCompletionChunk :=
  Some {| choices := Some [ {| delta := Some {| content := None |} |} ] |}.

(** An upstream that yields two fragments and ends. *)
Definition completes (call : CreateCall) : Completion ChatCompletionStream :=
  Normal (StreamChunk chunkWithout
         (StreamChunk (chunkWith (Json.Str "Hel"))
         (StreamChunk (chunkWith (Json.Str "lo"))
         (StreamChunk chunkWithout StreamEnd)))).

(** An upstream that yields two fragments and throws. *)
Definition aborts (call : CreateCall) : Completion ChatCompletionStream :=
  Normal (StreamChunk (chunkWith (Json.Str "Hel"))
         (StreamChunk (chunkWith (Json.Str "lo"))
         (StreamThrow (ErrorObject "upstream reset")))).

Definition hello : list VercelChatMessage :=
  [ {| role := user; messageContent := "Hello!" |} ].

Definition request (origin : option string) (messages : option (list VercelChatMessage))
    (provider : option string) : NextRequest :=
  {| headers := match origin with
                | Some o => {[ "origin" := o ]}
                | None => ∅
                end;
     json := Normal {| bodyMessages := messages; bodyProvider := provider |} |}.

Definition POST (upstream : CreateCall -> Completion ChatCompletionStream)
    (req : NextRequest) : Completion Response * State :=
  Server.POST env normalizeProviderName_spec systemPrompt upstream platform req fresh.

Definition statusOf (result : Completion Response * State) : option nat :=
  match result.1 with
  | Normal r => Some (status r)
  | Abrupt _ => None
  end.

(** The chunks of the event stream of a response. *)
Definition streamOf (result : Completion Response * State) : list string :=
  match result.1 with
  | Normal r =>
      match body r with
      | EventStream chunks => chunks
      | JsonBody _ _ => []
      end
  | Abrupt _ => []
  end.

(** The client side. *)

Definition options : Client.UseChatOptions :=
  {| Client.apiUrl := "/api/chat"; Client.maxRetries := None; Client.retryDelay := None |}.

(** A transport that hands over each chunk of the server in one read. *)
Fixpoint reads (chunks : list string) (clock : Z) : Client.ReadableBody :=
  match chunks with
  | [] => Client.Done
  | chunk :: rest => Client.Read chunk clock (reads rest (clock + 10))
  end.

(** The same bytes, cut after every [size] of them. *)
Fixpoint cut (fuel size : nat) (text : string) : list string :=
  match fuel, text with
  | S fuel', String _ _ => JS.sliceTo size text :: cut fuel' size (JS.slice size text)
  | _, _ => []
  end.

Definition rechunk (size : nat) (chunks : list string) : list string :=
  let text := JS.join "" chunks in
  cut (String.length text) size text.

(** A response with status 200 and the given body. *)
Definition streaming (reader : Client.ReadableBody) : Client.HttpResponse :=
  {| Client.status := 200;
     Client.json := Abrupt (ErrorObject "Unexpected token d in JSON");
     Client.text := Abrupt (ErrorObject "body stream already read");
     Client.body := Some reader |}.

(** A response with the status and the JSON error body of the route. *)
Definition refusal (status : nat) (error : string) : Client.HttpResponse :=
  {| Client.status := status;
     Client.json := Normal (Some error);
     Client.text := Abrupt (ErrorObject "body stream already read");
     Client.body := None |}.

Definition network (result : Completion Client.HttpResponse) : Client.Network :=
  {| Client.fetchResult := result; Client.uuid := "stream-1";
     Client.now := 5000; Client.later := 5100 |}.

(** The network in front of the route, for a request from the development
    origin with the messages of the client: one read per chunk written. *)
Definition relayed (upstream : CreateCall -> Completion ChatCompletionStream)
    : Client.Network :=
  network (Normal (streaming
    (reads (streamOf (POST upstream (request (Some "http://localhost:3000") (Some hello) None)))
       5100))).

(** The same, the bytes arriving in reads of [size] of them. *)
Definition relayedBy (size : nat) (upstream : CreateCall -> Completion ChatCompletionStream)
    : Client.Network :=
  network (Normal (streaming
    (reads (rechunk size
       (streamOf (POST upstream (request (Some "http://localhost:3000") (Some hello) None))))
       5100))).

Definition payload : Client.JsRecord := {[ "mode" := Json.Str "qa" ]}.





(** The connection statuses reported, in order. *)
Definition statuses (h : Client.Hook) : list Client.ConnectionStatus :=
  omap (fun cb => match cb with
                  | Client.onConnectionChange status => Some status
                  | _ => None
                  end) (Client.called h).

(** The content of the last message. *)
Definition lastContent (h : Client.Hook) : option string :=
  Client.content <$> last (Client.messages h).

(** A transport that hands over the chunks of each group in one read. *)
Definition coalesced (groups : list (list string)) (clock : Z) : Client.ReadableBody :=
  reads (map (JS.join "") groups) clock.

(** A production deployment with a key for OpenAI. *)
Definition production : gmap string string :=
  {[ "NODE_ENV" := "production"; "OPENAI_API_KEY" := "sk-test" ]}.

(** The request of the sample conversation from the development origin. *)
Definition asking : NextRequest :=
  request (Some "http://localhost:3000") (Some hello) None.

(** A body whose reads give the chunks and then fail. *)
Fixpoint readsUntil (chunks : list string) (clock : Z) (e : Thrown) : Client.ReadableBody :=
  match chunks with
  | [] => Client.ReadError e
  | chunk :: rest => Client.Read chunk clock (readsUntil rest (clock + 10) e)
  end.

(** The network in front of the route, the connection breaking after the
    first two frames. *)
Definition interrupted (upstream : CreateCall -> Completion ChatCompletionStream)
    : Client.Network :=
  network (Normal (streaming
    (readsUntil (take 2 (streamOf (POST upstream asking))) 5100
       (ErrorObject "network error")))).

(** A read that holds a comment and a blank line, as a proxy sends to keep
    the connection open. *)
Definition keepAlive : string := ": keep-alive" +:+ nl +:+ nl.

End Scenario.

(** * Properties of the JSON text and of lines *)

Module JsonFacts.

Import Json.
Local Open Scope nat_scope.

Lemma append_nil_r (s : string) : s +:+ "" = s.
Proof.
  induction s as [|a s IH]; [done|].
  change (String a (s +:+ "") = String a s). by rewrite IH.
Qed.

Lemma append_assoc (s1 s2 s3 : string) : (s1 +:+ s2) +:+ s3 = s1 +:+ (s2 +:+ s3).
Proof.
  induction s1 as [|a s1 IH]; [done|].
  change (String a ((s1 +:+ s2) +:+ s3) = String a (s1 +:+ (s2 +:+ s3))). by rewrite IH.
Qed.

Lemma length_append (s1 s2 : string) :
  String.length (s1 +:+ s2) = String.length s1 + String.length s2.
Proof.
  induction s1 as [|a s1 IH]; [done|].
  change (S (String.length (s1 +:+ s2)) = S (String.length s1 + String.length s2)).
  by rewrite IH.
Qed.

Lemma rev_app_append (s acc : string) : String.rev_app s acc = String.rev s +:+ acc.
Proof.
  unfold String.rev. revert acc. induction s as [|a s IH]; intros acc; [done|].
  cbn [String.rev_app]. rewrite IH, (IH (String a "")), append_assoc. done.
Qed.

Lemma rev_append (s1 s2 : string) : String.rev (s1 +:+ s2) = String.rev s2 +:+ String.rev s1.
Proof.
  induction s1 as [|a s1 IH].
  - by rewrite append_nil_r.
  - change (String.rev (String a (s1 +:+ s2)) = String.rev s2 +:+ String.rev (String a s1)).
    unfold String.rev at 1 3. cbn [String.rev_app].
    rewrite !rev_app_append, IH, append_assoc. done.
Qed.

Lemma rev_involutive (s : string) : String.rev (String.rev s) = s.
Proof.
  induction s as [|a s IH]; [done|].
  unfold String.rev at 2. cbn [String.rev_app]. rewrite rev_app_append, rev_append, IH.
  done.
Qed.

(** One character, written and read back. *)
Lemma stringBody_quoteChar c fuel acc rest :
  stringBody (S fuel) acc (quoteChar c +:+ rest) = stringBody fuel (String c acc) rest.
Proof. destruct c as [[] [] [] [] [] [] [] []]; reflexivity. Qed.

Lemma quoteBody_cons c s : quoteBody (String c s) = quoteChar c +:+ quoteBody s.
Proof. reflexivity. Qed.

(** A string literal, written and read back. *)
Lemma stringBody_quoteBody s fuel acc rest :
  String.length s < fuel ->
  stringBody fuel acc (quoteBody s +:+ String JS.dquote rest)
  = Some (String.rev (String.rev_app s acc), rest).
Proof.
  revert fuel acc. induction s as [|c s IH]; intros fuel acc Hfuel.
  - destruct fuel as [|fuel]; [cbn in Hfuel; lia|]. reflexivity.
  - destruct fuel as [|fuel]; [cbn in Hfuel; lia|].
    rewrite quoteBody_cons, append_assoc, stringBody_quoteChar.
    rewrite IH by (cbn in Hfuel; lia). done.
Qed.

Lemma length_quoteChar c : 1 <= String.length (quoteChar c).
Proof. destruct c as [[] [] [] [] [] [] [] []]; vm_compute; lia. Qed.

Lemma length_quoteBody s : String.length s <= String.length (quoteBody s).
Proof.
  induction s as [|c s IH]; [done|].
  rewrite quoteBody_cons, length_append. pose proof (length_quoteChar c). cbn. lia.
Qed.

Lemma quote_append s rest :
  quote s +:+ rest = String JS.dquote (quoteBody s +:+ String JS.dquote rest).
Proof.
  unfold quote.
  change (String JS.dquote ((quoteBody s +:+ String JS.dquote "") +:+ rest)
          = String JS.dquote (quoteBody s +:+ String JS.dquote rest)).
  by rewrite append_assoc.
Qed.

(** A string value at the head of a text. *)
Lemma parseValue_quote s fuel rest :
  parseValue (S fuel) (quote s +:+ rest) = Some (Str s, rest).
Proof.
  rewrite quote_append. cbn [parseValue skipWs].
  change (isWs JS.dquote) with false. cbv iota.
  change (N_of_ascii JS.dquote =? 34)%N with true. cbv iota.
  rewrite stringBody_quoteBody.
  - fold (String.rev s). by rewrite rev_involutive.
  - rewrite length_append. pose proof (length_quoteBody s). cbn. lia.
Qed.

(** One member with a string value, at the head of the members. *)
Lemma parseMembers_member key s fuel rest :
  parseMembers (S (S fuel)) (quote key +:+ ":" +:+ quote s +:+ rest)
  = match skipWs rest with
    | String "," rest' =>
        match parseMembers (S fuel) rest' with
        | Some (members, rest'') => Some ((key, Str s) :: members, rest'')
        | None => None
        end
    | String "}" rest' => Some ([(key, Str s)], rest')
    | _ => None
    end.
Proof.
  rewrite quote_append. cbn [parseMembers skipWs].
  change (isWs JS.dquote) with false. cbv iota.
  change (N_of_ascii JS.dquote =? 34)%N with true. cbv iota.
  rewrite stringBody_quoteBody.
  2:{ rewrite length_append. pose proof (length_quoteBody key). cbn. lia. }
  fold (String.rev key). rewrite rev_involutive.
  change (skipWs (String JS.dquote ?x)) with (String JS.dquote x).
  change (":" +:+ quote s +:+ rest) with (String ":" (quote s +:+ rest)).
  cbn [skipWs]. change (isWs ":") with false. cbv iota.
  rewrite parseValue_quote. reflexivity.
Qed.

(** The members of an object whose values are strings. *)
Lemma parseMembers_strings kv members fuel rest :
  length members < fuel ->
  parseMembers (S fuel) (JS.join "," (map memberText (kv :: members)) +:+ String "}" rest)
  = Some (map stringMember (kv :: members), rest).
Proof.
  revert kv fuel. induction members as [|kv' members IH]; intros [key s] fuel Hfuel.
  - destruct fuel as [|fuel]; [cbn in Hfuel; lia|].
    cbn [map JS.join String.concat]. unfold memberText. cbn [fst snd].
    rewrite !append_assoc, parseMembers_member. reflexivity.
  - destruct fuel as [|fuel]; [cbn in Hfuel; lia|].
    change (JS.join "," (map memberText ((key, s) :: kv' :: members)))
      with (memberText (key, s) +:+ "," +:+ JS.join "," (map memberText (kv' :: members))).
    unfold memberText at 1. cbn [fst snd].
    rewrite !append_assoc, parseMembers_member.
    change ("," +:+ ?x) with (String "," x). cbn [skipWs].
    change (isWs ",") with false. cbv iota.
    rewrite IH by (cbn in Hfuel; lia). reflexivity.
Qed.

Lemma parseValue_members fuel text :
  parseValue (S fuel) (String "{" (String JS.dquote text))
  = match parseMembers fuel (String JS.dquote text) with
    | Some (members, rest) => Some (Obj members, rest)
    | None => None
    end.
Proof. reflexivity. Qed.

Lemma length_members kv members rest :
  length members <
    String.length (JS.join "," (map memberText (kv :: members)) +:+ String "}" rest).
Proof.
  revert kv. induction members as [|kv' members IH]; intros kv.
  - rewrite length_append. cbn. lia.
  - change (JS.join "," (map memberText (kv :: kv' :: members)))
      with (memberText kv +:+ "," +:+ JS.join "," (map memberText (kv' :: members))).
    rewrite !append_assoc, length_append.
    change ("," +:+ ?x) with (String "," x). cbn [String.length length].
    specialize (IH kv'). lia.
Qed.

(** An object whose values are strings, written and read back. *)
Lemma parse_stringify_strings kv members :
  let object := Obj (map stringMember (kv :: members)) in
  parse (stringify object) = Some object.
Proof.
  intros object.
  assert (Htext : stringify object
                  = String "{" (JS.join "," (map memberText (kv :: members)) +:+ "}")).
  { unfold object. cbn [stringify]. rewrite map_map. reflexivity. }
  rewrite Htext. unfold parse.
  assert (Hhead : exists text,
    JS.join "," (map memberText (kv :: members)) +:+ "}" = String JS.dquote text).
  { destruct members; cbn [map JS.join String.concat]; unfold memberText at 1;
      rewrite !append_assoc, quote_append; eauto. }
  destruct Hhead as [text Hhead].
  cbn [String.length]. rewrite Hhead at 2. rewrite parseValue_members, <- Hhead.
  pose proof (length_members kv members "") as Hlength.
  destruct (String.length _) as [|fuel] eqn:Hfuel; [lia|].
  rewrite parseMembers_strings by lia. reflexivity.
Qed.

(** *** Lines *)

Lemma contains_append c s1 s2 : JS.contains c (s1 +:+ s2) = JS.contains c s1 || JS.contains c s2.
Proof.
  induction s1 as [|a s1 IH]; [done|].
  change (Ascii.eqb a c || JS.contains c (s1 +:+ s2)
          = Ascii.eqb a c || JS.contains c s1 || JS.contains c s2).
  by rewrite IH, orb_assoc.
Qed.

Lemma quoteChar_no_LF c : JS.contains JS.LF (quoteChar c) = false.
Proof. destruct c as [[] [] [] [] [] [] [] []]; reflexivity. Qed.

Lemma quote_no_LF s : JS.contains JS.LF (quote s) = false.
Proof.
  unfold quote.
  change (JS.contains JS.LF (quoteBody s +:+ String JS.dquote "") = false).
  rewrite contains_append, orb_false_r.
  induction s as [|c s IH]; [done|].
  by rewrite quoteBody_cons, contains_append, quoteChar_no_LF, IH.
Qed.

Lemma members_no_LF members : JS.contains JS.LF (JS.join "," (map memberText members)) = false.
Proof.
  induction members as [|kv [|kv' members] IH]; [done| |].
  - cbn [map JS.join String.concat]. unfold memberText.
    by rewrite !contains_append, !quote_no_LF.
  - change (JS.join "," (map memberText (kv :: kv' :: members)))
      with (memberText kv +:+ "," +:+ JS.join "," (map memberText (kv' :: members))).
    rewrite !contains_append, IH. unfold memberText.
    by rewrite !contains_append, !quote_no_LF.
Qed.

Lemma split_go_line sep s cur rest :
  JS.contains sep s = false ->
  JS.split_go sep cur (s +:+ String sep rest)
  = String.rev (String.rev_app s cur) :: JS.split_go sep "" rest.
Proof.
  revert cur. induction s as [|a s IH]; intros cur Hs.
  - change (JS.split_go sep cur (String sep rest)
            = String.rev cur :: JS.split_go sep "" rest).
    cbn [JS.split_go]. by rewrite Ascii.eqb_refl.
  - cbn [JS.contains] in Hs. apply orb_false_elim in Hs as [Ha Hs].
    change (JS.split_go sep cur (String a (s +:+ String sep rest))
            = String.rev (String.rev_app s (String a cur)) :: JS.split_go sep "" rest).
    cbn [JS.split_go]. rewrite Ha. by apply IH.
Qed.

(** A text without line feed, followed by two of them, is one line and
    two empty ones. *)
Lemma split_record s :
  JS.contains JS.LF s = false ->
  JS.split JS.LF (s +:+ String JS.LF (String JS.LF "")) = [s; ""; ""].
Proof.
  intros Hs. unfold JS.split. rewrite split_go_line by done.
  fold (String.rev s). by rewrite rev_involutive.
Qed.

(** *** Trimming *)

Lemma trimStart_ends s c :
  Ascii.is_space c = false -> JS.trimStart (s +:+ String c "") <> "".
Proof.
  intros Hc. induction s as [|a s IH].
  - change (JS.trimStart (String c "") <> ""). cbn [JS.trimStart]. by rewrite Hc.
  - change (JS.trimStart (String a (s +:+ String c "")) <> ""). cbn [JS.trimStart].
    by destruct (Ascii.is_space a).
Qed.

Lemma truthy_trim_starts c s :
  Ascii.is_space c = false -> JS.truthy (JS.trim (String c s)) = true.
Proof.
  intros Hc. unfold JS.trim. cbn [JS.trimStart]. rewrite Hc. unfold JS.trimEnd.
  unfold String.rev at 2. cbn [String.rev_app]. rewrite rev_app_append.
  pose proof (trimStart_ends (String.rev s) c Hc) as Hne.
  destruct (JS.trimStart _) as [|a t] eqn:Htrim; [done|].
  destruct (String.rev (String a t)) eqn:Hrev; [|done].
  apply (f_equal String.rev) in Hrev. by rewrite rev_involutive in Hrev.
Qed.

End JsonFacts.

(** * Properties of the server *)

Module ServerFacts.

Import Server.
Local Open Scope nat_scope.

(** Running the plumbing of a computation: binds, state updates and
    projections, leaving the strings alone. *)
Ltac run_server :=
  cbv beta iota zeta delta
    [bind ret throw gets modify lift tryCatch tryFinally enqueue close
     withController withMetrics withConsole withInvocations withCache
     incMessageCount incErrorCount logPerformanceMetrics];
  cbn [metrics controller closed queue errored requestId startTime messageCount
       errorCount clientCache invocations console].

(** ** The relay loop *)

Lemma enqueue_open text s :
  closed (controller s) = false ->
  enqueue text s =
    (Normal tt,
     withController (fun c =>
       {| queue := queue c ++ [text]; closed := closed c; errored := errored c |}) s).
Proof. intros H. unfold enqueue. by rewrite H. Qed.



Lemma stringTokens_cons chunk chunks :
  stringTokens (chunk :: chunks) =
    match asString (tokenOf chunk) with
    | Some token => token :: stringTokens chunks
    | None => stringTokens chunks
    end.
Proof. reflexivity. Qed.

(** The loop on a state with an open controller: it ends as the stream
    does, having written one content frame for each string token. *)
Lemma forAwait_spec stream cache calls lines rid t0 n errs q er :
  forAwait stream
    {| clientCache := cache; invocations := calls; console := lines;
       metrics := {| requestId := rid; startTime := t0; messageCount := n;
                     errorCount := errs |};
       controller := {| queue := q; closed := false; errored := er |} |}
  = (match failureOf stream with None => Normal tt | Some e => Abrupt e end,
     {| clientCache := cache; invocations := calls; console := lines;
        metrics := {| requestId := rid; startTime := t0;
                      messageCount := n + length (stringTokens (chunksOf stream));
                      errorCount := errs |};
        controller :=
          {| queue := q ++ map encode (contentMessages rid n
                                         (stringTokens (chunksOf stream)));
             closed := false; errored := er |} |}).
Proof.
  revert n q. induction stream as [|chunk rest IH|e]; intros n q.
  - simpl. unfold ret. by rewrite Nat.add_0_r, app_nil_r.
  - cbn [forAwait chunksOf failureOf]. rewrite stringTokens_cons.
    unfold relayChunk.
    destruct (asString (tokenOf chunk)) as [token|]; run_server.
    + rewrite IH. cbn [contentMessages map length].
      rewrite <- app_assoc. cbn [app]. unfold encode at 2. cbn [SSE.type SSE.data SSE.id].
      by rewrite Nat.add_succ_r.
    + by rewrite IH.
  - simpl. unfold throw. by rewrite Nat.add_0_r, app_nil_r.
Qed.

(** ** The stream of a response *)

(** What [new ReadableStream({ start })] leaves: the frames written, a
    closed controller, the counters, and one line on the console. *)
Lemma readableStream_spec platform stream model provider s :
  let m := metrics s in
  let tokens := stringTokens (chunksOf stream) in
  let frames :=
    map encode
      (SSE.Message SSE.METADATA (metadataJson platform m model provider)
         (Some (requestId m))
       :: contentMessages (requestId m) (messageCount m) tokens
       ++ [terminalMessage (requestId m) (failureOf stream)]) in
  let errors :=
    match failureOf stream with
    | None => errorCount m
    | Some _ => S (errorCount m)
    end in
  readableStream platform stream model provider s =
    (Normal frames,
     {| clientCache := clientCache s;
        invocations := invocations s;
        console := console s ++
          [ {| logRequestId := requestId m;
               logDuration := (nowAtLog platform - startTime m)%Z;
               logMessageCount := messageCount m + length tokens;
               logErrorCount := errors;
               logError := failureOf stream ≫= messageOf;
               logTimestamp := isoAtLog platform |} ];
        metrics := {| requestId := requestId m; startTime := startTime m;
                      messageCount := messageCount m + length tokens;
                      errorCount := errors |};
        controller := {| queue := frames; closed := true; errored := false |} |}).
Proof.
  destruct s as [cache calls lines [rid t0 n errs] ctl].
  unfold readableStream, start. run_server.
  rewrite forAwait_spec.
  destruct (failureOf stream) as [e|]; run_server;
    cbn [map app terminalMessage mbind option_bind]; unfold encode at 1 3;
    cbn [SSE.type SSE.data SSE.id]; rewrite map_app; reflexivity.
Qed.


(** ** The route *)

Section Route.

Variable env : gmap string string.
Variable normalizeProviderName : option string -> Completion ProviderName.
Variable UNIFIED_SYSTEM_PROMPT : string.
Variable completionsCreate : CreateCall -> Completion ChatCompletionStream.

Local Abbreviation POST :=
  (Server.POST env normalizeProviderName UNIFIED_SYSTEM_PROMPT completionsCreate).
Local Abbreviation chatCompletionStream :=
  (Server.chatCompletionStream env normalizeProviderName completionsCreate).

(** Opening the upstream stream leaves the metrics and the controller of
    the request alone, and calls the provider at most once. *)
Lemma chatCompletionStream_frame params s :
  let '(c, s') := chatCompletionStream params s in
  metrics s' = metrics s /\ controller s' = controller s /\ console s' = console s /\
  match c with
  | Normal (stream, _, _) =>
      exists call, invocations s' = invocations s ++ [call]
                   /\ completionsCreate call = Normal stream
  | Abrupt _ => True
  end.
Proof.
  destruct s as [cache calls lines m ctl].
  unfold Server.chatCompletionStream, getClient. run_server.
  destruct (resolveProvider _ _ _) as [target|e]; [|done].
  destruct (cache !! target) as [entry|]; cbn [clientCache].
  - destruct (completionsCreate _) as [stream|e] eqn:Hcreate; cbn; eauto 10.
  - destruct (resolveConfig env target) as [resolved|e]; [|done].
    run_server. destruct (completionsCreate _) as [stream|e] eqn:Hcreate; cbn; eauto 10.
Qed.

(** [POST] always answers, and with one of five statuses. *)
Lemma POST_returns platform req s :
  exists r s', POST platform req s = (Normal r, s') /\
    (status r = 403 /\ originRejected env req = true
     \/ status r = 401 /\ originRejected env req = false
                      /\ identityMissing env req = true
     \/ (status r = 400 \/ status r = 500 \/ status r = 200)
        /\ originRejected env req = false /\ identityMissing env req = false).
Proof.
  unfold Server.POST. run_server.
  destruct (originRejected env req); [eauto 10|].
  destruct (identityMissing env req); [eauto 10|].
  destruct (json req) as [body|e]; [|eauto 10].
  destruct (resolveProvider _ _ _) as [provider|e]; [|eauto 10].
  destruct (last _) as [lastMessage|]; [|unfold invalidRequest; run_server; eauto 10].
  destruct (negb _); [unfold invalidRequest; run_server; eauto 10|].
  match goal with
  | |- context [Server.chatCompletionStream _ _ _ ?params ?s0] =>
      destruct (chatCompletionStream params s0) as [[[[stream target] model]|e] s1]
  end; [|eauto 10].
  rewrite readableStream_spec. run_server. eauto 10.
Qed.


(** The answer with status 200: the call that opened the upstream stream,
    the frames written for it, and the controller when [start] is over. *)
Lemma POST_streams platform req s r s' :
  POST platform req s = (Normal r, s') ->
  status r = 200 ->
  exists call stream model provider,
    invocations s' = invocations s ++ [call] /\
    completionsCreate call = Normal stream /\
    let frames :=
      metadataMessage platform model provider
        :: contentMessages (randomUUID platform) 0 (stringTokens (chunksOf stream))
        ++ [terminalMessage (randomUUID platform) (failureOf stream)] in
    body r = EventStream (map encode frames) /\
    controller s' = {| queue := map encode frames; closed := true; errored := false |}.
Proof.
  unfold Server.POST. run_server.
  destruct (originRejected env req); [intros [= <- <-]; done|].
  destruct (identityMissing env req); [intros [= <- <-]; done|].
  destruct (json req) as [parsed|e]; [|intros [= <- <-]; done].
  destruct (resolveProvider _ _ _) as [provider|e]; [|intros [= <- <-]; done].
  destruct (last _) as [lastMessage|];
    [|unfold invalidRequest; run_server; intros [= <- <-]; done].
  destruct (negb _); [unfold invalidRequest; run_server; intros [= <- <-]; done|].
  match goal with
  | |- context [Server.chatCompletionStream _ _ _ ?params ?s0] =>
      pose proof (chatCompletionStream_frame params s0) as Hopen;
      destruct (chatCompletionStream params s0) as [[[[stream target] model]|e] s1]
  end; [|intros [= <- <-]; done].
  destruct Hopen as (Hmetrics & _ & _ & call & Hcalls & Hcreate).
  rewrite readableStream_spec, Hmetrics. run_server.
  intros [= <- <-] _. by exists call, stream, model, provider.
Qed.


(** The allow-list has the members of the three lists it is built from. *)
Lemma elem_of_newSet x seen l : x ∈ newSet seen l <-> x ∈ l /\ x ∉ seen.
Proof.
  revert seen. induction l as [|y l IH]; intros seen; cbn [newSet].
  - split; [by intros ?%elem_of_nil | by intros [?%elem_of_nil _]].
  - case_bool_decide as Hseen.
    + rewrite IH. set_solver.
    + rewrite elem_of_cons, IH.
      destruct (decide (x = y)) as [->|Hne]; set_solver.
Qed.

Lemma elem_of_allowedOrigins origin :
  origin ∈ allowedOrigins env <->
  origin ∈ baseOrigins \/ origin ∈ envOrigins env \/ origin ∈ devOrigins env.
Proof.
  unfold allowedOrigins. rewrite elem_of_newSet, !elem_of_app.
  split; [tauto|]. intros H. split; [done|]. apply not_elem_of_nil.
Qed.

Lemma originRejected_true req origin :
  headers req !! "origin" = Some origin ->
  origin <> "" ->
  origin ∉ allowedOrigins env ->
  originRejected env req = true.
Proof.
  intros Hheader Hnonempty Hunknown. unfold originRejected, includes.
  rewrite Hheader, bool_decide_eq_false_2 by done.
  by destruct origin.
Qed.

Lemma originRejected_false req :
  headers req !! "origin" = None \/ headers req !! "origin" = Some "" ->
  originRejected env req = false.
Proof. unfold originRejected. by intros [-> | ->]. Qed.

(** C5. A request whose origin header is not empty and not in the
    allow-list is answered with status 403 and the body
    [{ error: 'Origin not allowed.' }]; the upstream provider is not called
    and no client is made for it. A request with no origin header, or an empty
    one, is never answered with 403. *)
Theorem unknown_origin_rejected platform req s :
  (forall origin,
     headers req !! "origin" = Some origin ->
     origin <> "" ->
     origin ∉ allowedOrigins env ->
     exists r s',
       POST platform req s = (Normal r, s') /\
       status r = 403 /\
       body r = JsonBody (Some "Origin not allowed.") None /\
       invocations s' = invocations s /\
       clientCache s' = clientCache s /\
       controller s' = controller s) /\
  (headers req !! "origin" = None \/ headers req !! "origin" = Some "" ->
   exists r s', POST platform req s = (Normal r, s') /\ status r <> 403).
Proof.
  split.
  - intros origin Hheader Hnonempty Hunknown.
    unfold Server.POST. run_server.
    rewrite (originRejected_true req origin) by done.
    by eexists _, _.
  - intros Horigin. apply originRejected_false in Horigin.
    destruct (POST_returns platform req s) as (r & s' & HPOST & Hstatus).
    exists r, s'. split; [done|].
    destruct Hstatus as [[_ ?]|[[-> _]|[[->|[->| ->]] _]]]; [congruence|done..].
Qed.

(** C6, as the route has it. Of an admitted request (its origin is not
    refused and its identity is known) whose body is JSON: when the provider
    resolves and the messages are missing or empty, or the last one has an
    empty content, the answer has status 400; when the provider does not
    resolve, the answer has status 500, whatever the messages. In both cases
    the upstream provider is not called and no client is made for it. *)
Theorem invalid_conversation_rejected platform req s parsed :
  originRejected env req = false ->
  identityMissing env req = false ->
  json req = Normal parsed ->
  (forall provider,
     resolveProvider env normalizeProviderName (bodyProvider parsed) = Normal provider ->
     default [] (bodyMessages parsed) = [] \/
     (exists lastMessage,
        last (default [] (bodyMessages parsed)) = Some lastMessage /\
        messageContent lastMessage = "") ->
     exists r s',
       POST platform req s = (Normal r, s') /\
       status r = 400 /\
       invocations s' = invocations s /\
       clientCache s' = clientCache s) /\
  (forall e,
     resolveProvider env normalizeProviderName (bodyProvider parsed) = Abrupt e ->
     exists r s',
       POST platform req s = (Normal r, s') /\
       status r = 500 /\
       invocations s' = invocations s /\
       clientCache s' = clientCache s).
Proof.
  intros Horigin Hidentity Hjson. split.
  - intros provider Hprovider Hinvalid.
    unfold Server.POST. run_server.
    rewrite Horigin, Hidentity, Hjson, Hprovider.
    destruct Hinvalid as [-> | (lastMessage & -> & ->)];
      unfold invalidRequest; run_server; by eexists _, _.
  - intros e Hprovider.
    unfold Server.POST. run_server.
    rewrite Horigin, Hidentity, Hjson, Hprovider.
    by eexists _, _.
Qed.

End Route.

(** ** The properties at the sample requests *)


(** A chunk with no delta content, and one whose content is [null], write
    nothing and count nothing. *)
Example relayChunk_skips :
  relayChunk Scenario.chunkWithout fresh = (Normal tt, fresh) /\
  relayChunk (Scenario.chunkWith Json.Null) fresh = (Normal tt, fresh) /\
  relayChunk None fresh = (Normal tt, fresh).
Proof. repeat split. Qed.


(** The same request, the upstream throwing after two fragments. *)
Example frames_of_aborted_stream :
  map (fun text => Client.coerceMember
                     (Json.parse (JS.slice 6 text) ≫= Json.field "type"))
    (Scenario.streamOf (Scenario.POST Scenario.aborts
       (Scenario.request (Some "http://localhost:3000") (Some Scenario.hello) None)))
  = ["metadata"; "content"; "content"; "error"].
Proof. vm_compute. reflexivity. Qed.

Lemma unknown_origin_rejected_witness :
  (exists r s',
     Scenario.POST Scenario.completes
       (Scenario.request (Some "https://evil.example") (Some Scenario.hello) None)
     = (Normal r, s') /\
     status r = 403 /\
     body r = JsonBody (Some "Origin not allowed.") None /\
     invocations s' = [] /\
     clientCache s' = ∅ /\
     controller s' = controller fresh) /\
  (exists r s',
     Scenario.POST Scenario.completes (Scenario.request None (Some Scenario.hello) None)
     = (Normal r, s') /\ status r <> 403).
Proof.
  split.
  - apply (proj1 (unknown_origin_rejected Scenario.env normalizeProviderName_spec
                    Scenario.systemPrompt Scenario.completes Scenario.platform
                    (Scenario.request (Some "https://evil.example") (Some Scenario.hello) None)
                    fresh) "https://evil.example").
    + reflexivity.
    + discriminate.
    + apply (bool_decide_eq_false_1
               ("https://evil.example" ∈ allowedOrigins Scenario.env)).
      vm_compute. reflexivity.
  - apply (proj2 (unknown_origin_rejected Scenario.env normalizeProviderName_spec
                    Scenario.systemPrompt Scenario.completes Scenario.platform
                    (Scenario.request None (Some Scenario.hello) None) fresh)).
    left. reflexivity.
Defined.

(** An admitted request with no messages and a provider that resolves: 400,
    and no call of the upstream. *)
Lemma invalid_conversation_rejected_witness :
  exists r s',
    Scenario.POST Scenario.completes (Scenario.request None (Some []) (Some "qwen"))
    = (Normal r, s') /\
    status r = 400 /\ invocations s' = [] /\ clientCache s' = ∅.
Proof.
  apply (proj1 (invalid_conversation_rejected Scenario.env normalizeProviderName_spec
                  Scenario.systemPrompt Scenario.completes Scenario.platform
                  (Scenario.request None (Some []) (Some "qwen")) fresh
                  {| bodyMessages := Some []; bodyProvider := Some "qwen" |}
                  eq_refl eq_refl eq_refl) qwen).
  - reflexivity.
  - left. reflexivity.
Defined.

(** C6 as the claim has it fails: an admitted request with an empty
    [messages] array and a provider selector that is not recognised is
    answered with 500, not 400, because the provider is resolved before the
    messages are looked at. *)
Lemma invalid_conversation_counterexample :
  let req := Scenario.request None (Some []) (Some "bogus") in
  originRejected Scenario.env req = false /\
  identityMissing Scenario.env req = false /\
  json req = Normal {| bodyMessages := Some []; bodyProvider := Some "bogus" |} /\
  Scenario.statusOf (Scenario.POST Scenario.completes req) = Some 500 /\
  Scenario.statusOf (Scenario.POST Scenario.completes req) <> Some 400.
Proof. vm_compute. repeat split; discriminate. Qed.

End ServerFacts.

(** * Properties of the client *)

Module ClientFacts.

Import Client JsonFacts.
Local Open Scope Z_scope.

(** ** What a computation leaves alone *)

Section Keeps.

Context {X : Type} (f : Hook -> X).

Lemma keeps_ret {A} (a : A) : Keeps f (ret a).
Proof. by intros h. Qed.

Lemma keeps_throw {A} e : Keeps f (throw (A:=A) e).
Proof. by intros h. Qed.

Lemma keeps_lift {A} (c : Completion A) : Keeps f (lift c).
Proof. by intros h. Qed.

Lemma keeps_gets {A} (g : Hook -> A) : Keeps f (gets g).
Proof. by intros h. Qed.

Lemma keeps_modify (g : Hook -> Hook) : (forall h, f (g h) = f h) -> Keeps f (modify g).
Proof. intros Hg h. apply Hg. Qed.

Lemma keeps_bind {A B} (m : M Hook A) (k : A -> M Hook B) :
  Keeps f m -> (forall a, Keeps f (k a)) -> Keeps f (bind m k).
Proof.
  intros Hm Hk h. unfold bind. specialize (Hm h).
  destruct (m h) as [[a|e] h1]; cbn in *; [|done].
  by rewrite Hk.
Qed.

Lemma keeps_tryCatch {A} (m : M Hook A) (handler : Thrown -> M Hook A) :
  Keeps f m -> (forall e, Keeps f (handler e)) -> Keeps f (tryCatch m handler).
Proof.
  intros Hm Hhandler h. unfold tryCatch. specialize (Hm h).
  destruct (m h) as [[a|e] h1]; cbn in *; [done|].
  by rewrite Hhandler.
Qed.

Lemma keeps_tryFinally {A} (m : M Hook A) (fin : M Hook unit) :
  Keeps f m -> Keeps f fin -> Keeps f (tryFinally m fin).
Proof.
  intros Hm Hfin h. unfold tryFinally. specialize (Hm h).
  destruct (m h) as [c h1]. specialize (Hfin h1).
  destruct (fin h1) as [[[]|e] h2]; cbn in *; congruence.
Qed.

End Keeps.

Create HintDb keeps discriminated.

(** Breaking a computation into its steps: a function already dealt with
    is looked up, a step that writes one cell of the state keeps what does
    not read that cell. *)
Ltac keeps :=
  repeat first
    [ solve [auto 1 with keeps nocore]
    | apply keeps_ret | apply keeps_throw | apply keeps_lift | apply keeps_gets
    | apply keeps_bind; [|intros ?]
    | apply keeps_tryCatch; [|intros ?]
    | apply keeps_tryFinally
    | progress unfold updateConnectionStatus, call, setError, setMetrics,
        setStreamingMessageRef, setConnectionStatus, setIsLoading, setRetryCount,
        setLastPayloadRef, recordFetch
    | apply keeps_modify; intros ?; reflexivity ].

(** ** Reading the stream *)

(** Appending to the content of a message changes neither the roles nor
    the metadata of the list. *)
Lemma appendContent_beside (prev : list ChatMessage) index target data :
  prev !! index = Some target ->
  role <$> <[index := appendContent target data]> prev = role <$> prev /\
  metadata <$> <[index := appendContent target data]> prev = metadata <$> prev.
Proof.
  intros Htarget. rewrite !list_fmap_insert. cbn [appendContent role metadata].
  split; apply list_insert_id; by rewrite list_lookup_fmap, Htarget.
Qed.

Lemma onContent_keeps requestId data startTime arrival :
  Keeps besideStream (onContent requestId data startTime arrival).
Proof.
  unfold onContent. keeps.
  unfold setMessages. apply keeps_modify. intros h.
  unfold besideStream, roles, flags. cbn [messages fetched retryCount lastPayloadRef
    isLoading input].
  destruct a as [[index contextId]|]; [|done].
  destruct (negb _); [done|].
  destruct (messages h !! index) as [target|] eqn:Htarget; [|done].
  by destruct (appendContent_beside (messages h) index target data Htarget) as [-> ->].
Qed.

#[local] Hint Resolve onContent_keeps : keeps.

Lemma onRecord_keeps requestId startTime arrival sseMessage :
  Keeps besideStream (onRecord requestId startTime arrival sseMessage).
Proof.
  unfold onRecord.
  destruct sseMessage; try (apply keeps_throw);
    (match goal with
     | |- context [match ?type with Some _ => _ | None => _ end] =>
         destruct type as [[]|]
     end);
    try (destruct (Json.parse _) as [[]|]);
    keeps.
Qed.

#[local] Hint Resolve onRecord_keeps : keeps.

Lemma onLine_keeps requestId startTime arrival line :
  Keeps besideStream (onLine requestId startTime arrival line).
Proof.
  unfold onLine. destruct (JS.startsWith _ _); [|apply keeps_ret].
  destruct (negb _); [apply keeps_ret|].
  keeps. destruct (Json.parse _); keeps.
Qed.

#[local] Hint Resolve onLine_keeps : keeps.

Lemma forLines_keeps requestId startTime arrival lines :
  Keeps besideStream (forLines requestId startTime arrival lines).
Proof.
  induction lines as [|line rest IH]; cbn [forLines]; keeps.
  destruct a; [apply keeps_ret|apply IH].
Qed.

#[local] Hint Resolve forLines_keeps : keeps.

Lemma whileRead_keeps requestId startTime reader :
  Keeps besideStream (whileRead requestId startTime reader).
Proof.
  induction reader as [|value arrival rest IH|e]; cbn [whileRead]; keeps.
  destruct a; [apply keeps_ret|apply IH].
Qed.

#[local] Hint Resolve whileRead_keeps : keeps.

(** Running the plumbing of a computation of the hook. *)
Ltac run_client :=
  cbv beta iota zeta delta
    [bind ret throw gets modify lift tryCatch tryFinally run
     updateConnectionStatus call setMessages setError setMetrics
     setStreamingMessageRef setConnectionStatus setIsLoading setRetryCount
     setLastPayloadRef recordFetch roles flags besideStream
     messages input isLoading error retryCount connectionStatus metrics
     streamingMessageRef lastPayloadRef fetched called fst snd].


(** Naming the cells of a state, so that every projection computes. *)
Ltac open_hook h :=
  destruct h as [? ? ? ? ? ? ? ? ? ? ?];
  cbn [messages input isLoading error retryCount connectionStatus metrics
       streamingMessageRef lastPayloadRef fetched called] in *.

(** However the reading of a stream ends, by a [done] frame, an [error]
    frame, the end of the body or a failed read, the [finally] block runs
    last: the hook is left [DISCONNECTED], with no streaming target. The
    stream has added one assistant message, without metadata, and has touched
    the metadata of no other. *)
Lemma handleStreamingResponse_leaves response reader requestId clock h :
  body response = Some reader ->
  let h' := (handleStreamingResponse response requestId clock h).2 in
  connectionStatus h' = DISCONNECTED /\
  streamingMessageRef h' = None /\
  roles h' = roles h ++ [assistant] /\
  flags h' = flags h ++ [None] /\
  fetched h' = fetched h /\
  retryCount h' = retryCount h /\
  lastPayloadRef h' = lastPayloadRef h /\
  isLoading h' = isLoading h.
Proof.
  intros Hbody. unfold handleStreamingResponse. rewrite Hbody. open_hook h. run_client.
  match goal with
  | |- context [whileRead requestId clock reader ?h1] =>
      pose proof (whileRead_keeps requestId clock reader h1) as Hkeeps;
      destruct (whileRead requestId clock reader h1) as [c h2]
  end.
  open_hook h2.
  run_client. cbv [besideStream roles flags messages fetched retryCount lastPayloadRef
    isLoading input snd] in Hkeeps.
  rewrite !fmap_app in Hkeeps. cbn [fmap list_fmap role metadata] in Hkeeps.
  injection Hkeeps as -> -> -> -> -> Hroles Hflags.
  by destruct c.
Qed.

(** ** What the decoder rebuilds *)

Lemma appendContent_nil m : appendContent m "" = m.
Proof. destruct m. unfold appendContent. cbn [role content timestamp metadata]. by rewrite append_nil_r. Qed.

Lemma appendContent_append m s1 s2 :
  appendContent (appendContent m s1) s2 = appendContent m (s1 +:+ s2).
Proof. unfold appendContent. cbn [role content timestamp metadata]. by rewrite append_assoc. Qed.

(** One line, read while the message at [index] is the streaming target:
    a content record is appended to that message, a terminal record returns,
    anything else is passed over. *)
Lemma onLine_content requestId startTime arrival line h index target :
  streamingMessageRef h = Some (index, requestId) ->
  messages h !! index = Some target ->
  let result := onLine requestId startTime arrival line h in
  match recordOf line with
  | Some (SSE.CONTENT, data) =>
      result.1 = Normal false /\
      messages result.2 = <[index := appendContent target data]> (messages h) /\
      streamingMessageRef result.2 = Some (index, requestId)
  | Some (SSE.DONE, _) | Some (SSE.ERROR, _) =>
      result.1 = Normal true /\ messages result.2 = messages h
  | Some (SSE.METADATA, _) | None =>
      result.1 = Normal false /\
      messages result.2 = messages h /\
      streamingMessageRef result.2 = Some (index, requestId)
  end.
Proof.
  intros Href Htarget. unfold onLine, recordOf.
  destruct (JS.startsWith _ _); [|done].
  destruct (negb _); [done|].
  open_hook h. subst.
  destruct (Json.parse _) as [sseMessage|]; [|done].
  unfold onRecord.
  destruct sseMessage as [| | | | |members]; try done.
  cbn [Json.field].
  destruct (Json.lookupLast "type" members) as [[| | |t| |]|]; try done.
  destruct (SSE.ofName t) as [[]|]; try done.
  - unfold onContent. run_client. rewrite String.eqb_refl. cbn [negb]. by rewrite Htarget.
  - run_client. by destruct (Json.parse _) as [[]|].
Qed.

Lemma forLines_content requestId startTime arrival lines h index target :
  streamingMessageRef h = Some (index, requestId) ->
  messages h !! index = Some target ->
  let result := forLines requestId startTime arrival lines h in
  result.1 = Normal (contentOfLines lines).2 /\
  messages result.2 =
    <[index := appendContent target (contentOfLines lines).1]> (messages h) /\
  ((contentOfLines lines).2 = false ->
   streamingMessageRef result.2 = Some (index, requestId)).
Proof.
  revert h target. induction lines as [|line rest IH]; intros h target Href Htarget.
  - cbn. rewrite appendContent_nil, list_insert_id; done.
  - cbn [forLines contentOfLines]. unfold bind.
    pose proof (onLine_content requestId startTime arrival line h index target Href Htarget)
      as Hline.
    destruct (onLine requestId startTime arrival line h) as [c h1].
    cbv zeta in Hline. cbn [fst snd] in Hline.
    destruct (recordOf line) as [[[] data]|].
    + destruct Hline as (-> & Hmessages & Href1).
      assert (Htarget1 : messages h1 !! index = Some (appendContent target data)).
      { rewrite Hmessages. apply list_lookup_insert_eq. by eapply lookup_lt_Some. }
      specialize (IH h1 _ Href1 Htarget1).
      destruct (contentOfLines rest) as [text terminal]. cbn [fst snd] in *.
      destruct IH as (Hreturned & Hrest & Hkeep).
      rewrite Hreturned, Hrest, Hmessages, list_insert_insert_eq, appendContent_append.
      done.
    + destruct Hline as (-> & Hmessages). cbn [fst snd].
      rewrite appendContent_nil, list_insert_id; done.
    + destruct Hline as (-> & Hmessages). cbn [fst snd].
      rewrite appendContent_nil, list_insert_id; done.
    + destruct Hline as (-> & Hmessages & Href1).
      rewrite <- Hmessages in Htarget. rewrite <- Hmessages.
      by apply IH.
    + destruct Hline as (-> & Hmessages & Href1).
      rewrite <- Hmessages in Htarget. rewrite <- Hmessages.
      by apply IH.
Qed.

Lemma whileRead_content requestId startTime reader h index target :
  streamingMessageRef h = Some (index, requestId) ->
  messages h !! index = Some target ->
  messages (whileRead requestId startTime reader h).2 =
    <[index := appendContent target (contentOfBody reader)]> (messages h).
Proof.
  revert h target. induction reader as [|value arrival rest IH|e]; intros h target Href Htarget.
  - cbn. rewrite appendContent_nil, list_insert_id; done.
  - cbn [whileRead contentOfBody]. unfold bind.
    pose proof (forLines_content requestId startTime arrival (JS.split JS.LF value) h index
                  target Href Htarget) as Hlines.
    destruct (forLines requestId startTime arrival (JS.split JS.LF value) h) as [c h1].
    cbv zeta in Hlines. cbn [fst snd] in Hlines.
    destruct (contentOfLines (JS.split JS.LF value)) as [text terminal].
    cbn [fst snd] in Hlines. destruct Hlines as (-> & Hmessages & Hkeep).
    destruct terminal; [done|].
    assert (Htarget1 : messages h1 !! index = Some (appendContent target text)).
    { rewrite Hmessages. apply list_lookup_insert_eq. by eapply lookup_lt_Some. }
    rewrite (IH h1 _ (Hkeep eq_refl) Htarget1).
    by rewrite Hmessages, list_insert_insert_eq, appendContent_append.
  - cbn. rewrite appendContent_nil, list_insert_id; done.
Qed.

(** The message a stream leaves is the text of the content records the
    decoder has parsed, in the order of their arrival, up to the first
    terminal record: no record that parses is moved, merged, repeated or
    left out. *)
Lemma handleStreamingResponse_content response reader requestId clock h :
  body response = Some reader ->
  messages (handleStreamingResponse response requestId clock h).2 =
    messages h ++
    [ {| role := assistant; content := contentOfBody reader; timestamp := Some clock;
         metadata := None |} ].
Proof.
  intros Hbody. unfold handleStreamingResponse. rewrite Hbody. open_hook h. run_client.
  match goal with
  | |- context [whileRead requestId clock reader ?h1] =>
      pose proof (whileRead_content requestId clock reader h1 (length messages0)
                    {| role := assistant; content := ""; timestamp := Some clock;
                       metadata := None |}) as Hcontent;
      destruct (whileRead requestId clock reader h1) as [c h2]
  end.
  open_hook h2. cbn [streamingMessageRef messages snd] in Hcontent.
  rewrite length_app, Nat.add_sub in Hcontent.
  rewrite insert_app_r_alt, Nat.sub_diag in Hcontent by done.
  specialize (Hcontent eq_refl). rewrite lookup_app_r, Nat.sub_diag in Hcontent by done.
  specialize (Hcontent eq_refl). subst. run_client. by destruct c.
Qed.

Section UseChat.

Variable options : UseChatOptions.

Local Abbreviation sendMessageCore := (Client.sendMessageCore options).
Local Abbreviation sendMessage := (Client.sendMessage options).
Local Abbreviation retry := (Client.retry options).

(** The guard of [sendMessageCore]: blank text, or a request in flight. *)
Lemma sendMessageCore_rejected net content currentMessages payload h :
  JS.trim content = "" \/ isLoading h = true ->
  sendMessageCore net content currentMessages payload h = (Normal tt, h).
Proof.
  intros Hguard. unfold Client.sendMessageCore. open_hook h. run_client.
  destruct Hguard as [-> | ->]; [done|].
  by rewrite orb_true_r.
Qed.

Lemma truthy_trim content : JS.trim content <> "" -> JS.truthy (JS.trim content) = true.
Proof. by destruct (JS.trim content). Qed.

(** Past its guard, [sendMessageCore] caches the payload, calls [fetch]
    once, with the messages it was given and the new user message, and is no
    longer loading when it is over. Whatever the outcome, the last message is
    then an assistant message: the streamed one, the stand-in of a response
    that is not ok, or the apology of the [catch] block. *)
Lemma sendMessageCore_dispatched net content currentMessages payload h :
  JS.trim content <> "" ->
  isLoading h = false ->
  let h' := run (sendMessageCore net content currentMessages payload) h in
  let userMessage :=
    {| role := user; content := JS.trim content; timestamp := Some (now net);
       metadata := None |} in
  fetched h' =
    fetched h ++ [ {| fetchUrl := apiUrl options;
                      fetchMessages := currentMessages ++ [userMessage];
                      fetchPayload := default ∅ payload |} ] /\
  retryCount h' = retryCount h /\
  lastPayloadRef h' = payload /\
  isLoading h' = false /\
  last (roles h') = Some assistant.
Proof.
  intros Htext Hloading. unfold Client.sendMessageCore. open_hook h. subst.
  run_client. rewrite truthy_trim by done. cbn [negb orb].
  destruct (fetchResult net) as [response|e]; run_client.
  2:{ by rewrite fmap_last, last_snoc. }
  destruct (ok response); cbn [negb]; run_client.
  - destruct (body response) as [reader|] eqn:Hbody.
    + match goal with
      | |- context [handleStreamingResponse response ?rid ?clock ?h1] =>
          pose proof (handleStreamingResponse_leaves response reader rid clock h1 Hbody)
            as (_ & _ & Hroles & _ & Hfetched & Hretry & Hpayload & _);
          destruct (handleStreamingResponse response rid clock h1) as [c h2]
      end.
      open_hook h2.
      cbv [snd roles messages fetched retryCount lastPayloadRef] in Hroles, Hfetched,
        Hretry, Hpayload.
      subst. run_client.
      destruct c as [[]|e]; run_client; rewrite ?last_snoc; run_client;
        rewrite ?fmap_last, ?last_snoc; rewrite <- ?fmap_last, ?Hroles, ?last_snoc; done.
    + unfold handleStreamingResponse. rewrite Hbody. run_client.
      by rewrite fmap_last, last_snoc.
  - unfold standIn. rewrite last_snoc. cbn [role].
    destruct (decide (user = assistant)) as [[=]|_].
    by rewrite fmap_last, last_snoc.
Qed.

(** ** Sending *)


(** ** Retrying *)





(** After any request that [sendMessage] has sent, whether it succeeded or
    failed, the last message is an assistant message; so a [retry] then sends
    nothing: it counts the attempt, clears the error, and stops. *)
Lemma retry_after_sendMessage_sends_nothing net net' text payload h :
  JS.trim text <> "" ->
  isLoading h = false ->
  let attempted := run (sendMessage net text payload) h in
  let retried := run (retry net') attempted in
  fetched retried = fetched attempted /\ messages retried = messages attempted.
Proof.
  intros Htext Hloading attempted retried.
  assert (Hlast : last (roles attempted) = Some assistant).
  { unfold attempted, Client.sendMessage, run. open_hook h. subst.
    cbv [bind setLastPayloadRef modify gets messages].
    match goal with
    | |- context [Client.sendMessageCore options net text ?msgs payload ?h1] =>
        apply (sendMessageCore_dispatched net text msgs payload h1 Htext eq_refl)
    end. }
  unfold retried, Client.retry, run. clearbody attempted. open_hook attempted.
  cbv [roles messages] in Hlast. rewrite fmap_last in Hlast. run_client.
  destruct (_ >=? _); [done|]. run_client.
  destruct (last _) as [lastMessage|]; [|done].
  injection Hlast as Hrole.
  destruct (decide (role lastMessage = user)) as [Huser|_]; [congruence|done].
Qed.

End UseChat.

(** ** The hook on the sample transports *)

Import Scenario.

(** The request of the sample conversation, relayed from an upstream that
    completes, one read per frame: the assistant message is the two
    fragments, and the hook ends [DISCONNECTED]. *)
Example completed_stream :
  let h := run (sendMessage options (relayed completes) "Hello!" None) initial in
  content <$> messages h = ["Hello!"; "Hello"] /\
  roles h = [user; assistant] /\
  connectionStatus h = DISCONNECTED /\
  error h = None /\
  statuses h = [CONNECTING; CONNECTED; DISCONNECTED; DISCONNECTED].
Proof. vm_compute. repeat split. Qed.

(** C1, on the code. The upstream throws after two fragments; the server
    sends metadata, two content frames and an error frame, and the client
    reads them one frame a read. The assistant message keeps the text of the
    two fragments, and the error is recorded. But the message bears no error
    flag (it has no metadata at all), and the connection status, set to
    [ERROR] on the error frame, is set to [DISCONNECTED] by the [finally]
    block right after: that is the status the hook ends with. The hook then
    reports success for the user message. *)
Theorem error_frame_leaves_disconnected_unflagged :
  let h := run (sendMessage options (relayed aborts) "Hello!" None) initial in
  content <$> messages h = ["Hello!"; "Hello"] /\
  roles h = [user; assistant] /\
  flags h = [None; None] /\
  flagged <$> messages h = [false; false] /\
  error h = Some "upstream reset" /\
  statuses h = [CONNECTING; CONNECTED; ERROR; DISCONNECTED] /\
  connectionStatus h = DISCONNECTED /\
  connectionStatus h <> ERROR /\
  last (called h) =
    Some (onSuccess {| role := user; content := "Hello!"; timestamp := Some 5000;
                       metadata := None |}).
Proof. vm_compute. repeat split; discriminate. Qed.

(** The sibling path does flag: a response that is not ok is turned into
    an assistant message with [metadata.error] true, and leaves the status at
    [ERROR]. *)
Example refused_request_is_flagged :
  let h := run (sendMessage options (network (Normal (refusal 500 "upstream reset")))
                  "Hello!" None) initial in
  content <$> messages h = ["Hello!"; "upstream reset"] /\
  flagged <$> messages h = [false; true] /\
  connectionStatus h = ERROR.
Proof. vm_compute. repeat split. Qed.

(** C2, on the code. A request fails (the relay answers 500); the session
    holds the user message and the assistant stand-in, in the [ERROR] state,
    with the payload cached. [retry], well below the maximum, then sends
    nothing: it looks for the user message in the last place of the list,
    finds the stand-in there, and only counts the attempt and clears the
    error. The same holds after a stream that ended in an error frame. *)
Theorem retry_after_failure_sends_nothing :
  let failed := run (sendMessage options (network (Normal (refusal 500 "upstream reset")))
                       "Hello!" (Some payload)) initial in
  let retried := run (retry options (relayed completes)) failed in
  roles failed = [user; assistant] /\
  connectionStatus failed = ERROR /\
  lastPayloadRef failed = Some payload /\
  length (fetched failed) = 1%nat /\
  retryCount retried = 1 /\
  fetched retried = fetched failed /\
  messages retried = messages failed /\
  error retried = None /\
  let aborted := run (sendMessage options (relayed aborts) "Hello!" (Some payload)) initial in
  fetched (run (retry options (relayed completes)) aborted) = fetched aborted.
Proof. vm_compute. repeat split. Qed.

(** C4, on the code. The same frames of a completed stream, once one frame
    a read and once the same bytes in reads of 200 bytes, which cuts the first
    content frame in two. One frame a read, the message is the concatenation
    of the fragments. Cut, the first fragment is lost: each read is split into
    lines on its own, the head of the cut frame does not parse and its tail
    does not start with [data: ], so both are skipped. *)
Theorem fragment_lost_across_reads :
  let frames := streamOf
    (Scenario.POST completes (request (Some "http://localhost:3000") (Some hello) None)) in
  let whole := run (sendMessage options (relayed completes) "Hello!" None) initial in
  let cut := run (sendMessage options (relayedBy 200 completes) "Hello!" None) initial in
  JS.join "" (rechunk 200 frames) = JS.join "" frames /\
  length (rechunk 200 frames) = 2%nat /\
  lastContent whole = Some "Hello" /\
  lastContent cut = Some "lo" /\
  connectionStatus cut = DISCONNECTED /\
  error cut = None.
Proof. vm_compute. repeat split. Qed.

(** The two reads of the cut transport, line by line, as the decoder
    takes them: the head of the cut frame is the last line of the first read,
    its tail the first line of the second; neither is a record. *)
Example decoder_on_cut_reads :
  let frames := streamOf
    (Scenario.POST completes (request (Some "http://localhost:3000") (Some hello) None)) in
  map (fun read => recordOf <$> JS.split JS.LF read) (rechunk 200 frames)
  = [ [ Some (SSE.METADATA,
              Server.metadataJson platform (Server.createPerformanceMetrics platform)
                "gpt-4o-mini" Server.openai);
        None; None ];
      [ None; None; Some (SSE.CONTENT, "lo"); None; Some (SSE.DONE, ""); None; None ] ].
Proof. vm_compute. reflexivity. Qed.





End ClientFacts.

(** * The two sides together *)

Module RelayFacts.

Import Json JsonFacts.

Lemma encode_text m :
  Server.encode m
  = ("data: " +:+ stringify (Obj (map stringMember (Server.membersOf m))))
      +:+ String JS.LF (String JS.LF "").
Proof.
  destruct m as [type data [[|a i]|]]; unfold Server.encode, Server.buildSSEMessage;
    cbn [SSE.type SSE.data SSE.id]; by rewrite append_assoc.
Qed.

Lemma ofName_name type : SSE.ofName (SSE.name type) = Some type.
Proof. by destruct type. Qed.

(** A frame of the server is, for the decoder, one line that holds its
    record, and two empty lines. *)
Lemma split_encode m :
  exists line,
    JS.split JS.LF (Server.encode m) = [line; ""; ""] /\
    Client.recordOf line = Some (SSE.type m, SSE.data m).
Proof.
  rewrite encode_text. eexists. split.
  - apply split_record. rewrite contains_append. cbn [orb JS.contains Ascii.eqb].
    change (JS.contains JS.LF (stringify (Obj (map stringMember (Server.membersOf m))))
            = false).
    cbn [stringify]. rewrite map_map.
    change (JS.contains JS.LF ("{" +:+ JS.join "," (map memberText (Server.membersOf m)) +:+ "}") = false).
    by rewrite !contains_append, members_no_LF.
  - unfold Client.recordOf.
    change (JS.startsWith ("data: " +:+ ?json) "data: ") with true. cbv iota.
    change (JS.slice 6 ("data: " +:+ ?json)) with json. cbv zeta.
    assert (Htrim : JS.truthy (JS.trim
              (stringify (Obj (map stringMember (Server.membersOf m))))) = true).
    { cbn [stringify]. 
      change ("{" +:+ ?x) with (String "{" x).
      by apply truthy_trim_starts. }
    rewrite Htrim. cbn [negb].
    unfold Server.membersOf at 1. rewrite parse_stringify_strings.
    destruct m as [type data [[|a i]|]]; cbn; by rewrite ofName_name.
Qed.

Lemma contentOfLines_encode m :
  Client.contentOfLines (JS.split JS.LF (Server.encode m))
  = match SSE.type m with
    | SSE.CONTENT => (SSE.data m, false)
    | SSE.METADATA => ("", false)
    | SSE.DONE | SSE.ERROR => ("", true)
    end.
Proof.
  destruct (split_encode m) as (line & -> & Hrecord).
  cbn [Client.contentOfLines]. rewrite Hrecord.
  change (Client.recordOf "") with (@None (SSE.SSEEventType * string)). cbv iota.
  destruct (SSE.type m); [|done..]. by rewrite append_nil_r.
Qed.

(** What the decoder rebuilds from the frames of the server, one frame a
    read. *)
Lemma contentOfBody_reads frames clock :
  Client.contentOfBody (Scenario.reads (map Server.encode frames) clock) = Server.textOf frames.
Proof.
  revert clock. induction frames as [|m rest IH]; intros clock; [done|].
  cbn [map Scenario.reads Client.contentOfBody Server.textOf].
  rewrite contentOfLines_encode.
  destruct (SSE.type m); cbv iota beta; by rewrite ?IH.
Qed.

Lemma textOf_contentMessages requestId n tokens terminal :
  SSE.isTerminal (SSE.type terminal) = true ->
  Server.textOf (Server.contentMessages requestId n tokens ++ [terminal]) = JS.join "" tokens.
Proof.
  intros Hterminal. revert n. induction tokens as [|token rest IH]; intros n.
  - cbn. by destruct (SSE.type terminal).
  - cbn [Server.contentMessages app Server.textOf SSE.type SSE.data]. rewrite IH.
    destruct rest; [by rewrite append_nil_r|done].
Qed.

(** The route and the hook, end to end, on a transport that hands over each
    frame in a read of its own. Whatever the upstream stream yields, and
    whether it ends or throws, the stream adds one assistant message to the
    conversation, whose content is the concatenation of the string tokens of
    the upstream stream in their order; the message has no metadata, and the
    hook is left [DISCONNECTED]. *)
Theorem relay_end_to_end env normalizeProviderName prompt completionsCreate
    platform req s r s' chunks response requestId arrival clock h :
  Server.POST env normalizeProviderName prompt completionsCreate platform req s
    = (Normal r, s') ->
  Server.status r = 200%nat ->
  Server.body r = Server.EventStream chunks ->
  Client.body response = Some (Scenario.reads chunks arrival) ->
  exists call stream,
    completionsCreate call = Normal stream /\
    let h' := (Client.handleStreamingResponse response requestId clock h).2 in
    Client.messages h' =
      Client.messages h ++
      [ {| Client.role := Client.assistant;
           Client.content := JS.join "" (Server.stringTokens (Server.chunksOf stream));
           Client.timestamp := Some clock;
           Client.metadata := None |} ] /\
    Client.connectionStatus h' = Client.DISCONNECTED /\
    Client.streamingMessageRef h' = None.
Proof.
  intros HPOST Hstatus Hbody Hresponse.
  destruct (ServerFacts.POST_streams env normalizeProviderName prompt
              completionsCreate platform req s r s' HPOST Hstatus)
    as (call & stream & model & provider & _ & Hcreate & Hframes & _).
  exists call, stream. split; [done|].
  cbv zeta in Hframes. rewrite Hbody in Hframes. injection Hframes as ->.
  pose proof (ClientFacts.handleStreamingResponse_leaves response _ requestId clock h
                Hresponse) as (Hstatus' & Href & _).
  cbv zeta. rewrite (ClientFacts.handleStreamingResponse_content response _ requestId clock h
                       Hresponse).
  change (Server.encode ?m :: map Server.encode ?frames)
    with (map Server.encode (m :: frames)).
  rewrite contentOfBody_reads. cbn [Server.textOf Server.metadataMessage SSE.type].
  rewrite textOf_contentMessages; [done|].
  by destruct (Server.failureOf stream).
Qed.

End RelayFacts.

(** * Properties of slashes and white space *)

Module TextFacts.

Import JsonFacts.
Local Open Scope nat_scope.

Lemma dropSlashes_cons a s :
  JS.dropSlashes (String a s) = if Ascii.eqb a "/" then JS.dropSlashes s else String a s.
Proof. destruct a as [[] [] [] [] [] [] [] []]; reflexivity. Qed.

Lemma dropSlashes_slashes s :
  exists n, s = JS.slashes n +:+ JS.dropSlashes s /\
            forall t, JS.dropSlashes s <> String "/" t.
Proof.
  induction s as [|a s (n & Hs & Hhead)].
  - exists 0. split; [done|]. intros t. discriminate.
  - rewrite dropSlashes_cons. destruct (Ascii.eqb_spec a "/") as [->|Ha].
    + exists (S n). split; [|done]. cbn [JS.slashes].
      change (String "/" s = String "/" (JS.slashes n +:+ JS.dropSlashes s)).
      by rewrite <- Hs.
    + exists 0. split; [done|]. intros t [= ? _]. done.
Qed.

Lemma dropSlashes_id s : (forall t, s <> String "/" t) -> JS.dropSlashes s = s.
Proof.
  destruct s as [|a s]; [done|]. intros Hhead. rewrite dropSlashes_cons.
  destruct (Ascii.eqb_spec a "/") as [->|Ha]; [|done]. by destruct (Hhead s).
Qed.

Lemma rev_slashes n : String.rev (JS.slashes n) = JS.slashes n.
Proof.
  induction n as [|n IH]; [done|].
  cbn [JS.slashes]. unfold String.rev at 1. cbn [String.rev_app].
  rewrite rev_app_append, IH. clear IH.
  induction n as [|n IH]; [done|].
  cbn [JS.slashes]. change (String "/" (JS.slashes n +:+ "/") = String "/" (String "/" (JS.slashes n))).
  by rewrite IH.
Qed.

Lemma rev_snoc s a : String.rev (s +:+ String a "") = String a (String.rev s).
Proof. by rewrite rev_append. Qed.

(** *** Trimming *)









End TextFacts.

(** * Properties of the prompt builder *)

Module PromptFacts.

Import Server TextFacts.


Lemma pushSection_blank label value sections :
  JS.trim value = "" -> pushSection label (Some value) sections = sections.
Proof. intros Hblank. unfold pushSection. by rewrite Hblank. Qed.

Lemma buildUnifiedUserPrompt_blank_history question blank instructions :
  JS.trim blank = "" ->
  buildUnifiedUserPrompt question (Some blank) instructions
    = buildUnifiedUserPrompt question None instructions.
Proof.
  intros Hblank. unfold buildUnifiedUserPrompt. cbv zeta.
  by rewrite (pushSection_blank _ blank).
Qed.


End PromptFacts.

(** * Properties of the provider module *)

Module ProviderFacts.

Import Server TextFacts JsonFacts.

(** What is left has no slash at its end. *)
Lemma stripTrailingSlashes_end url s : JS.stripTrailingSlashes url <> s +:+ "/".
Proof.
  unfold JS.stripTrailingSlashes.
  destruct (dropSlashes_slashes (String.rev url)) as (n & _ & Hhead).
  intros Hs. apply (f_equal String.rev) in Hs.
  rewrite rev_involutive, rev_snoc in Hs. by destruct (Hhead (String.rev s)).
Qed.

(** X2. [sanitizeBaseUrl] removes the slashes at the end of a URL and
    nothing else: the URL is the result followed by slashes only, the result
    does not end in a slash, and sanitizing twice is sanitizing once. *)
Theorem sanitizeBaseUrl_strips_slashes url :
  (exists n, url = sanitizeBaseUrl url +:+ JS.slashes n) /\
  (forall s, sanitizeBaseUrl url <> s +:+ "/") /\
  sanitizeBaseUrl (sanitizeBaseUrl url) = sanitizeBaseUrl url.
Proof.
  split; [|split; [apply stripTrailingSlashes_end|]];
    unfold sanitizeBaseUrl, JS.stripTrailingSlashes;
    destruct (dropSlashes_slashes (String.rev url)) as (n & Hrev & Hhead).
  - exists n. apply (f_equal String.rev) in Hrev.
    by rewrite rev_involutive, rev_append, rev_slashes in Hrev.
  - by rewrite rev_involutive, dropSlashes_id.
Qed.

Section Provider.

Variable env : gmap string string.

Local Abbreviation keyOf provider := (env !! apiKeyEnv (PROVIDER_CONFIGS provider)).

Lemma resolveConfig_cases provider :
  match resolveConfig env provider with
  | Normal resolved =>
      exists key, keyOf provider = Some key /\ key <> "" /\
        resolved =
          {| Server.provider := provider;
             apiKey := key;
             baseURL := sanitizeBaseUrl
                          (default (defaultBaseUrl (PROVIDER_CONFIGS provider))
                             (env !! baseUrlEnv (PROVIDER_CONFIGS provider)));
             chatModel := default (fallbackChatModel (PROVIDER_CONFIGS provider))
                            (env !! chatModelEnv (PROVIDER_CONFIGS provider)) |}
  | Abrupt e =>
      (keyOf provider = None \/ keyOf provider = Some "") /\
      e = ErrorObject
            (displayName (PROVIDER_CONFIGS provider) +:+ " API key not configured. Please set "
               +:+ apiKeyEnv (PROVIDER_CONFIGS provider) +:+ " in your environment.")
  end.
Proof.
  unfold resolveConfig. cbv zeta.
  destruct (keyOf provider) as [[|a key]|]; [by split; [right|] | | by split; [left|]].
  exists (String a key). by split.
Qed.

End Provider.

(** X3. [getClient] makes the client of a provider once. When it returns
    an entry, the cache holds that entry for the provider and is unchanged for
    every other provider; a further call returns the same entry and leaves
    the state as it is, whatever the environment has become. An entry made on
    this call is the one [resolveConfig] gives, with its key and a base URL
    that does not end in a slash. When it throws, the configuration could not
    be resolved, and the state, the cache included, is unchanged. *)
Theorem getClient_caches env env' provider s :
  match getClient env provider s with
  | (Normal entry, s') =>
      clientCache s' !! provider = Some entry /\
      (forall other, other <> provider -> clientCache s' !! other = clientCache s !! other) /\
      getClient env' provider s' = (Normal entry, s') /\
      (clientCache s !! provider = None ->
       resolveConfig env provider = Normal (config entry) /\
       clientApiKey (client entry) = apiKey (config entry) /\
       clientBaseURL (client entry) = baseURL (config entry) /\
       forall t, clientBaseURL (client entry) <> t +:+ "/")
  | (Abrupt e, s') =>
      s' = s /\ clientCache s !! provider = None /\ resolveConfig env provider = Abrupt e
  end.
Proof.
  destruct s as [cache calls lines m ctl].
  unfold getClient. ServerFacts.run_server.
  destruct (cache !! provider) as [entry|] eqn:Hcached.
  - cbn [clientCache]. rewrite Hcached. done.
  - pose proof (resolveConfig_cases env provider) as Hresolved.
    destruct (resolveConfig env provider) as [resolved|e]; ServerFacts.run_server; [|done].
    rewrite lookup_insert_eq. split; [done|]. split; [|split; [done|]].
    + intros other Hother. by rewrite lookup_insert_ne.
    + intros _. cbn [config client clientApiKey clientBaseURL]. split; [done|].
      split; [done|]. split; [done|].
      destruct Hresolved as (key & _ & _ & ->). cbn [baseURL].
      apply stripTrailingSlashes_end.
Qed.

End ProviderFacts.

(** * Properties of the answers of the route *)

Module RouteFacts.

Import Server ServerFacts TextFacts JsonFacts.
Local Open Scope nat_scope.


Section Route.

Variable env : gmap string string.

Lemma allowedOrigins_head :
  exists rest, allowedOrigins env = "https://intranet.bank.local" :: rest.
Proof.
  unfold allowedOrigins, baseOrigins. cbn [app newSet].
  rewrite bool_decide_eq_false_2 by apply not_elem_of_nil. eauto.
Qed.

Lemma firstAllowedOrigin_intranet : firstAllowedOrigin env = "https://intranet.bank.local".
Proof. unfold firstAllowedOrigin. by destruct allowedOrigins_head as [rest ->]. Qed.

Lemma elem_of_envOrigins origin :
  origin ∈ envOrigins env <->
  exists listed entry,
    env !! "ALLOWED_ORIGINS" = Some listed /\
    entry ∈ JS.split "," listed /\ origin = JS.trim entry /\ origin <> "".
Proof.
  unfold envOrigins. destruct (env !! "ALLOWED_ORIGINS") as [[|a listed]|].
  - split; [by intros ?%elem_of_nil|].
    intros (listed & entry & [= <-] & Hentry & -> & Hne).
    cbn in Hentry. apply list_elem_of_singleton in Hentry as ->. done.
  - rewrite list_elem_of_filter, list_elem_of_fmap. split.
    + intros (Htruthy & entry & -> & Hentry). exists (String a listed), entry.
      repeat split; [done|]. by destruct (JS.trim entry).
    + intros (listed' & entry & [= <-] & Hentry & -> & Hne).
      split; [by destruct (JS.trim entry)|eauto].
  - split; [by intros ?%elem_of_nil|]. by intros (? & ? & [=] & _).
Qed.

Lemma elem_of_devOrigins origin :
  origin ∈ devOrigins env <->
  env !! "NODE_ENV" <> Some "production" /\
  origin ∈ ["http://localhost:3000"; "http://127.0.0.1:3000";
            "http://localhost:3001"; "http://127.0.0.1:3001"].
Proof.
  unfold devOrigins, isProduction. case_bool_decide as Hproduction.
  - split; [by intros ?%elem_of_nil|]. by intros [? _].
  - tauto.
Qed.

Lemma allowedOrigins_nonempty_members : "" ∉ allowedOrigins env.
Proof.
  rewrite (elem_of_allowedOrigins env), elem_of_envOrigins, elem_of_devOrigins.
  intros [Hbase|[(listed & entry & _ & _ & _ & Hne)|[_ Hdev]]]; [|done|].
  - apply list_elem_of_singleton in Hbase. discriminate.
  - set_solver.
Qed.


Variable normalizeProviderName : option string -> Completion ProviderName.
Variable UNIFIED_SYSTEM_PROMPT : string.
Variable completionsCreate : CreateCall -> Completion ChatCompletionStream.

Local Abbreviation POST :=
  (Server.POST env normalizeProviderName UNIFIED_SYSTEM_PROMPT completionsCreate).
Local Abbreviation chatCompletionStream :=
  (Server.chatCompletionStream env normalizeProviderName completionsCreate).

(** The origin a response allows. *)
Lemma effectiveOrigin_allowed req :
  effectiveOrigin env req =
    match headers req !! "origin" with
    | Some origin =>
        if bool_decide (origin ∈ allowedOrigins env) then origin
        else "https://intranet.bank.local"
    | None => "https://intranet.bank.local"
    end.
Proof.
  unfold effectiveOrigin, includes. rewrite firstAllowedOrigin_intranet.
  destruct (headers req !! "origin") as [[|a origin]|]; [|done..].
  by rewrite bool_decide_eq_false_2 by apply allowedOrigins_nonempty_members.
Qed.

Lemma originRejected_allowed req :
  originRejected env req = true ->
  match headers req !! "origin" with
  | Some origin =>
      if bool_decide (origin ∈ allowedOrigins env) then origin
      else "https://intranet.bank.local"
  | None => "https://intranet.bank.local"
  end = "https://intranet.bank.local".
Proof.
  unfold originRejected, includes.
  destruct (headers req !! "origin") as [origin|]; [|done].
  by destruct (bool_decide _); [rewrite andb_false_r|].
Qed.

Lemma corsHeaders_lookup allowOrigin :
  corsHeaders allowOrigin !! "Access-Control-Allow-Origin" = Some allowOrigin /\
  corsHeaders allowOrigin !! "Vary" = Some "Origin".
Proof. unfold corsHeaders. split; by simplify_map_eq. Qed.

Lemma streamHeaders_lookup allowOrigin :
  streamHeaders allowOrigin !! "Access-Control-Allow-Origin" = Some allowOrigin /\
  streamHeaders allowOrigin !! "Vary" = Some "Origin".
Proof. unfold streamHeaders. split; by simplify_map_eq. Qed.

(** X5. Every response of [POST], whatever its status, carries
    [Vary: Origin] and an [Access-Control-Allow-Origin] header whose value is
    a member of the allow-list: the origin of the request when that is listed,
    and the intranet origin otherwise. *)
Theorem response_allows_one_listed_origin platform req s :
  exists r s' allowed,
    POST platform req s = (Normal r, s') /\
    responseHeaders r !! "Access-Control-Allow-Origin" = Some allowed /\
    responseHeaders r !! "Vary" = Some "Origin" /\
    allowed ∈ allowedOrigins env /\
    allowed =
      match headers req !! "origin" with
      | Some origin =>
          if bool_decide (origin ∈ allowedOrigins env) then origin
          else "https://intranet.bank.local"
      | None => "https://intranet.bank.local"
      end.
Proof.
  assert (Hlisted : forall allowed,
    allowed =
      match headers req !! "origin" with
      | Some origin =>
          if bool_decide (origin ∈ allowedOrigins env) then origin
          else "https://intranet.bank.local"
      | None => "https://intranet.bank.local"
      end -> allowed ∈ allowedOrigins env).
  { intros allowed ->.
    assert (Hfirst : "https://intranet.bank.local" ∈ allowedOrigins env).
    { destruct allowedOrigins_head as [rest ->]. left. }
    destruct (headers req !! "origin") as [origin|]; [|done].
    by case_bool_decide. }
  assert (Hjson : forall error requestId status (s' : State),
    exists r s0 allowed,
      (Normal (jsonResponse error requestId status (effectiveOrigin env req)), s')
        = (Normal r, s0) /\
      responseHeaders r !! "Access-Control-Allow-Origin" = Some allowed /\
      responseHeaders r !! "Vary" = Some "Origin" /\
      allowed ∈ allowedOrigins env /\
      allowed =
        match headers req !! "origin" with
        | Some origin =>
            if bool_decide (origin ∈ allowedOrigins env) then origin
            else "https://intranet.bank.local"
        | None => "https://intranet.bank.local"
        end).
  { intros error requestId status s'. eexists _, _, _. split; [done|].
    cbn [responseHeaders jsonResponse].
    destruct (corsHeaders_lookup (effectiveOrigin env req)) as [-> ->].
    split; [done|]. split; [done|].
    split; [apply Hlisted|]; apply effectiveOrigin_allowed. }
  unfold Server.POST. run_server.
  destruct (originRejected env req) eqn:Horigin.
  { eexists _, _, _. split; [done|]. cbn [responseHeaders jsonResponse].
    destruct (corsHeaders_lookup (firstAllowedOrigin env)) as [-> ->].
    rewrite firstAllowedOrigin_intranet, originRejected_allowed by done.
    split; [done|]. split; [done|]. split; [|done].
    destruct allowedOrigins_head as [rest ->]. left. }
  destruct (identityMissing env req); [apply Hjson|].
  destruct (json req) as [parsed|e]; [|apply Hjson].
  destruct (resolveProvider _ _ _) as [provider|e]; [|apply Hjson].
  destruct (last _) as [lastMessage|]; [|unfold invalidRequest; run_server; apply Hjson].
  destruct (negb _); [unfold invalidRequest; run_server; apply Hjson|].
  match goal with
  | |- context [Server.chatCompletionStream _ _ _ ?params ?s0] =>
      destruct (chatCompletionStream params s0) as [[[[stream target] model]|e] s1]
  end; [|apply Hjson].
  rewrite readableStream_spec. run_server.
  eexists _, _, _. split; [done|]. cbn [responseHeaders].
  destruct (streamHeaders_lookup (effectiveOrigin env req)) as [-> ->].
  split; [done|]. split; [done|].
  split; [apply Hlisted|]; apply effectiveOrigin_allowed.
Qed.

(** *** The identity of the caller *)

Lemma orElse_nonempty value fallback : fallback <> "" -> JS.orElse value fallback <> "".
Proof. by destruct value as [[|a v]|]. Qed.

Lemma identityOf_missing header fallback :
  fallback <> "" ->
  JS.truthy (default "" (identityOf env header fallback)) = false <->
  header = Some "" \/ (header = None /\ env !! "NODE_ENV" = Some "production").
Proof.
  intros Hfallback. unfold identityOf, isProduction.
  destruct header as [[|a v]|]; cbn.
  - split; [by left|done].
  - split; [done|]. by intros [|[]].
  - case_bool_decide as Hproduction; cbn.
    + split; [by right|done].
    + destruct fallback; [done|]. split; [done|]. by intros [|[]].
Qed.

Lemma identityMissing_iff req :
  identityMissing env req = true <->
  (headers req !! "x-internal-user-id" = Some "" \/
   (headers req !! "x-internal-user-id" = None /\ env !! "NODE_ENV" = Some "production")) \/
  (headers req !! "x-tenant-id" = Some "" \/
   (headers req !! "x-tenant-id" = None /\ env !! "NODE_ENV" = Some "production")).
Proof.
  unfold identityMissing, userId, tenantId.
  rewrite orb_true_iff, !negb_true_iff, !identityOf_missing; [done|..];
    by apply orElse_nonempty.
Qed.

(** X6. Of a request whose origin is not refused, the answer has status
    401 exactly when one of the headers [x-internal-user-id] and
    [x-tenant-id] is empty, or is missing while [NODE_ENV] is [production].
    Such an answer has the body [{ error: 'Missing authentication context.' }];
    the provider is not called, no client is made and nothing is logged. *)
Theorem identity_required platform req s :
  originRejected env req = false ->
  let missing header :=
    headers req !! header = Some "" \/
    (headers req !! header = None /\ env !! "NODE_ENV" = Some "production") in
  exists r s',
    POST platform req s = (Normal r, s') /\
    (status r = 401 <-> missing "x-internal-user-id" \/ missing "x-tenant-id") /\
    (status r = 401 ->
     body r = JsonBody (Some "Missing authentication context.") None /\
     invocations s' = invocations s /\
     clientCache s' = clientCache s /\
     console s' = console s).
Proof.
  intros Horigin. cbv zeta beta. pose proof (identityMissing_iff req) as Hmissing.
  destruct (identityMissing env req) eqn:Hidentity.
  - unfold Server.POST. run_server. rewrite Horigin, Hidentity.
    eexists _, _. split; [done|]. split; [|done].
    split; [intros _; by apply Hmissing|done].
  - destruct (POST_returns env normalizeProviderName UNIFIED_SYSTEM_PROMPT completionsCreate
                platform req s) as (r & s' & HPOST & Hstatus).
    exists r, s'. split; [done|].
    assert (Hnot : status r <> 401).
    { destruct Hstatus as [[_ Hrejected]|[(_ & _ & Hlacking)|[[->|[->| ->]] _]]];
        [by rewrite Horigin in Hrejected|by rewrite Hidentity in Hlacking|done..]. }
    split; [|done]. split; [done|]. intros Hlacks. apply Hmissing in Hlacks. done.
Qed.

(** *** What is logged *)

(** X7. [POST] writes one line of metrics to the console when it answers
    with 200 or 500, and none otherwise. The line has the request id, the
    time since the start of the request, and the counters as the request
    leaves them; for 500 they are one error and no message, and the body of
    the response carries the error of the line and the request id. An answer
    with 400 counts one error and logs nothing. *)
Theorem metrics_logged_once platform req s :
  exists r s',
    POST platform req s = (Normal r, s') /\
    (status r = 200 \/ status r = 500 ->
     exists line,
       console s' = console s ++ [line] /\
       logRequestId line = randomUUID platform /\
       logDuration line = (nowAtLog platform - nowAtStart platform)%Z /\
       logTimestamp line = isoAtLog platform /\
       logMessageCount line = messageCount (metrics s') /\
       logErrorCount line = errorCount (metrics s') /\
       (status r = 500 ->
        logErrorCount line = 1 /\ logMessageCount line = 0 /\
        body r = JsonBody (logError line) (Some (randomUUID platform)))) /\
    (status r <> 200 -> status r <> 500 ->
     console s' = console s /\
     (status r = 400 <-> errorCount (metrics s') = 1)).
Proof.
  destruct s as [cache calls lines m ctl].
  unfold Server.POST. run_server.
  destruct (originRejected env req).
  { eexists _, _. split; [done|]. cbn. split; [by intros [|]|]. done. }
  destruct (identityMissing env req).
  { eexists _, _. split; [done|]. cbn. split; [by intros [|]|]. done. }
  assert (Hfailed : forall e cache' calls',
    exists r s',
      (Normal (jsonResponse (messageOf e) (Some (randomUUID platform)) 500
                 (effectiveOrigin env req)),
       {| clientCache := cache'; invocations := calls';
          console := lines ++
            [ {| logRequestId := randomUUID platform;
                 logDuration := (nowAtLog platform - nowAtStart platform)%Z;
                 logMessageCount := 0; logErrorCount := 1;
                 logError := Some e ≫= messageOf;
                 logTimestamp := isoAtLog platform |} ];
          metrics := {| requestId := randomUUID platform; startTime := nowAtStart platform;
                        messageCount := 0; errorCount := 1 |};
          controller := ctl |}) = (Normal r, s') /\
      (status r = 200 \/ status r = 500 ->
       exists line,
         console s' = lines ++ [line] /\
         logRequestId line = randomUUID platform /\
         logDuration line = (nowAtLog platform - nowAtStart platform)%Z /\
         logTimestamp line = isoAtLog platform /\
         logMessageCount line = messageCount (metrics s') /\
         logErrorCount line = errorCount (metrics s') /\
         (status r = 500 ->
          logErrorCount line = 1 /\ logMessageCount line = 0 /\
          body r = JsonBody (logError line) (Some (randomUUID platform)))) /\
      (status r <> 200 -> status r <> 500 ->
       console s' = lines /\ (status r = 400 <-> errorCount (metrics s') = 1))).
  { intros e cache' calls'. eexists _, _. split; [done|]. cbn. split; [|done].
    intros _. eexists. by repeat split. }
  destruct (json req) as [parsed|e]; [|apply Hfailed].
  destruct (resolveProvider _ _ _) as [provider|e]; [|apply Hfailed].
  assert (Hinvalid : exists r s',
    invalidRequest (effectiveOrigin env req)
      {| clientCache := cache; invocations := calls; console := lines;
         metrics := createPerformanceMetrics platform; controller := ctl |}
    = (Normal r, s') /\
    (status r = 200 \/ status r = 500 ->
     exists line,
       console s' = lines ++ [line] /\
       logRequestId line = randomUUID platform /\
       logDuration line = (nowAtLog platform - nowAtStart platform)%Z /\
       logTimestamp line = isoAtLog platform /\
       logMessageCount line = messageCount (metrics s') /\
       logErrorCount line = errorCount (metrics s') /\
       (status r = 500 ->
        logErrorCount line = 1 /\ logMessageCount line = 0 /\
        body r = JsonBody (logError line) (Some (randomUUID platform)))) /\
    (status r <> 200 -> status r <> 500 ->
     console s' = lines /\ (status r = 400 <-> errorCount (metrics s') = 1))).
  { unfold invalidRequest. run_server. eexists _, _. split; [done|]. cbn.
    split; [by intros [|]|]. done. }
  destruct (last _) as [lastMessage|]; [|apply Hinvalid].
  destruct (negb _); [apply Hinvalid|].
  match goal with
  | |- context [Server.chatCompletionStream _ _ _ ?params ?s0] =>
      pose proof (chatCompletionStream_frame env normalizeProviderName completionsCreate
                    params s0) as Hopen;
      destruct (chatCompletionStream params s0) as [[[[stream target] model]|e] s1]
  end.
  - destruct Hopen as (Hmetrics & _ & Hconsole & _).
    rewrite readableStream_spec, Hmetrics, Hconsole. run_server.
    eexists _, _. split; [done|]. cbn. split; [|done].
    intros _. eexists. split; [done|]. by repeat split.
  - destruct Hopen as (Hmetrics & Hcontroller & Hconsole & _).
    destruct s1 as [cache1 calls1 lines1 m1 ctl1]. cbn in Hmetrics, Hcontroller, Hconsole.
    subst. run_server. apply Hfailed.
Qed.

(** *** The call of the upstream provider *)

(** What [chatCompletionStream] hands to the provider. *)
Lemma chatCompletionStream_call params s :
  match chatCompletionStream params s with
  | (Normal (stream, target, model), s') =>
      exists entry,
        resolveProvider env normalizeProviderName (paramProvider params) = Normal target /\
        clientCache s' !! target = Some entry /\
        (clientCache s !! target = None -> resolveConfig env target = Normal (config entry)) /\
        model = default (chatModel (config entry)) (paramModel params) /\
        invocations s' =
          invocations s ++
          [ {| callClient := client entry;
               callModel := model;
               callMessages := paramMessages params;
               callTemperature := default 2%Z (paramTemperature params);
               callStream := true |} ]
  | (Abrupt e, s') =>
      resolveProvider env normalizeProviderName (paramProvider params) = Abrupt e \/
      (exists target,
         resolveProvider env normalizeProviderName (paramProvider params) = Normal target /\
         clientCache s !! target = None /\
         resolveConfig env target = Abrupt e /\ s' = s) \/
      (exists call, invocations s' = invocations s ++ [call] /\
                    completionsCreate call = Abrupt e)
  end.
Proof.
  destruct s as [cache calls lines m ctl].
  unfold Server.chatCompletionStream, getClient. run_server.
  destruct (resolveProvider _ _ _) as [target|e]; [|by left].
  destruct (cache !! target) as [entry|] eqn:Hcached; cbn [clientCache].
  - destruct (completionsCreate _) as [stream|e] eqn:Hcreate; cbn.
    + exists entry. by rewrite Hcached.
    + right. right. eauto.
  - destruct (resolveConfig env target) as [resolved|e] eqn:Hresolved; [|right; left; eauto].
    run_server. destruct (completionsCreate _) as [stream|e] eqn:Hcreate; cbn.
    + eexists. rewrite lookup_insert_eq. done.
    + right. right. eauto.
Qed.

(** X8. When [POST] answers with 200 it has called the provider once. The
    call has two messages: a system message with the trimmed system prompt,
    and a user message built by [buildUnifiedUserPrompt] from the content of
    the last message of the request, the messages before it as [role: content]
    lines, and the instructions of the route. Its temperature is 0.4 (four
    tenths), it asks for a stream, and its client and model are those of the
    cache entry of the provider, resolved from the environment when the cache
    had none. *)
Theorem upstream_call_of_a_conversation platform req s r s' :
  POST platform req s = (Normal r, s') ->
  status r = 200 ->
  exists parsed lastMessage call entry,
    json req = Normal parsed /\
    let messages := default [] (bodyMessages parsed) in
    last messages = Some lastMessage /\
    messageContent lastMessage <> "" /\
    invocations s' = invocations s ++ [call] /\
    callMessages call =
      [ {| pRole := system; pContent := JS.trim UNIFIED_SYSTEM_PROMPT |};
        {| pRole := user;
           pContent :=
             buildUnifiedUserPrompt (messageContent lastMessage)
               (Some (JS.join nl (map formatMessage (take (length messages - 1) messages))))
               (Some CHAT_USER_PROMPT_INSTRUCTIONS) |} ] /\
    callTemperature call = 4%Z /\
    callStream call = true /\
    callClient call = client entry /\
    callModel call = chatModel (config entry) /\
    (exists target,
       clientCache s' !! target = Some entry /\
       (clientCache s !! target = None -> resolveConfig env target = Normal (config entry))).
Proof.
  unfold Server.POST. run_server.
  destruct (originRejected env req); [intros [= <- <-]; done|].
  destruct (identityMissing env req); [intros [= <- <-]; done|].
  destruct (json req) as [parsed|e]; [|intros [= <- <-]; done].
  destruct (resolveProvider _ _ _) as [provider|e]; [|intros [= <- <-]; done].
  destruct (last _) as [lastMessage|] eqn:Hlast;
    [|unfold invalidRequest; run_server; intros [= <- <-]; done].
  destruct (negb _) eqn:Hcontent; [unfold invalidRequest; run_server; intros [= <- <-]; done|].
  match goal with
  | |- context [Server.chatCompletionStream _ _ _ ?params ?s0] =>
      pose proof (chatCompletionStream_call params s0) as Hopen;
      destruct (chatCompletionStream params s0) as [[[[stream target] model]|e] s1]
  end; [|intros [= <- <-]; done].
  destruct Hopen as (entry & _ & Hentry & Hresolved & Hmodel & Hcalls).
  cbn [paramMessages paramTemperature paramModel default] in Hmodel, Hcalls.
  destruct s1 as [cache1 calls1 lines1 m1 ctl1]. cbn in Hentry, Hresolved, Hcalls. subst.
  rewrite readableStream_spec. run_server.
  intros [= <- <-] _. eexists parsed, lastMessage, _, entry.
  split; [done|]. cbv zeta. split; [done|].
  split; [by destruct (messageContent lastMessage)|]. split; [done|].
  cbn [callMessages callTemperature callStream callClient callModel].
  split; [|by eauto 10].
  unfold buildProviderMessages. cbv zeta. do 3 f_equal.
  destruct (JS.join nl _) as [|a history] eqn:Hhistory; [|done].
  cbn [JS.truthy].
  symmetry. by apply PromptFacts.buildUnifiedUserPrompt_blank_history.
Qed.


(** *** The answers of the route *)

(** X10. [POST] always answers: it does not throw, whatever the request, the
    provider and the upstream stream do. The status is one of 200, 400, 401,
    403 and 500. With 200 the body is the event stream, whose controller is
    closed and not in error; with any other status the body is a JSON object,
    no stream controller is touched, and the object carries a request id
    exactly when the status is 500. *)
Theorem POST_always_answers platform req s :
  exists r s',
    POST platform req s = (Normal r, s') /\
    (status r = 200 \/ status r = 400 \/ status r = 401 \/ status r = 403 \/ status r = 500) /\
    (status r = 200 ->
     exists chunks, body r = EventStream chunks /\
       controller s' = {| queue := chunks; closed := true; errored := false |}) /\
    (status r <> 200 ->
     exists message requestId, body r = JsonBody message requestId /\
       controller s' = controller s /\
       (requestId <> None <-> status r = 500)).
Proof.
  destruct s as [cache calls lines m ctl].
  unfold Server.POST. run_server.
  destruct (originRejected env req).
  { eexists _, _. split; [done|]. cbn. split; [tauto|]. split; [done|].
    intros _. eexists _, _. split; [done|]. split; [done|]. by split. }
  destruct (identityMissing env req).
  { eexists _, _. split; [done|]. cbn. split; [tauto|]. split; [done|].
    intros _. eexists _, _. split; [done|]. split; [done|]. by split. }
  destruct (json req) as [parsed|e].
  2:{ eexists _, _. split; [done|]. cbn. split; [tauto|]. split; [done|].
      intros _. eexists _, _. by repeat split. }
  destruct (resolveProvider _ _ _) as [provider|e].
  2:{ eexists _, _. split; [done|]. cbn. split; [tauto|]. split; [done|].
      intros _. eexists _, _. by repeat split. }
  assert (Hinvalid : exists r s',
    invalidRequest (effectiveOrigin env req)
      {| clientCache := cache; invocations := calls; console := lines;
         metrics := createPerformanceMetrics platform; controller := ctl |}
    = (Normal r, s') /\
    (status r = 200 \/ status r = 400 \/ status r = 401 \/ status r = 403 \/ status r = 500) /\
    (status r = 200 ->
     exists chunks, body r = EventStream chunks /\
       controller s' = {| queue := chunks; closed := true; errored := false |}) /\
    (status r <> 200 ->
     exists message requestId, body r = JsonBody message requestId /\
       controller s' = ctl /\
       (requestId <> None <-> status r = 500))).
  { unfold invalidRequest. run_server. eexists _, _. split; [done|]. cbn.
    split; [tauto|]. split; [done|].
    intros _. eexists _, _. split; [done|]. split; [done|]. by split. }
  destruct (last _) as [lastMessage|]; [|apply Hinvalid].
  destruct (negb _); [apply Hinvalid|].
  match goal with
  | |- context [Server.chatCompletionStream _ _ _ ?params ?s0] =>
      pose proof (chatCompletionStream_frame env normalizeProviderName completionsCreate
                    params s0) as Hopen;
      destruct (chatCompletionStream params s0) as [[[[stream target] model]|e] s1]
  end.
  - rewrite readableStream_spec. run_server.
    eexists _, _. split; [done|]. cbn. split; [tauto|]. split; [eauto|done].
  - destruct Hopen as (_ & Hcontroller & _). run_server.
    eexists _, _. split; [done|]. cbn. split; [tauto|]. split; [done|].
    intros _. eexists _, _. by repeat split.
Qed.

(** *** Validation *)

(** X11. Of an admitted request with a JSON body whose provider resolves,
    the answer has status 400 exactly when there is no message or the content
    of the last message is empty. The test is on the content as it is sent: a
    content of white space is not refused. An answer with 400 has the body
    [{ error: 'Invalid request: missing messages or content' }], calls no
    provider and logs nothing. *)
Theorem refused_with_400_iff platform req s parsed provider :
  originRejected env req = false ->
  identityMissing env req = false ->
  json req = Normal parsed ->
  resolveProvider env normalizeProviderName (bodyProvider parsed) = Normal provider ->
  exists r s',
    POST platform req s = (Normal r, s') /\
    (status r = 400 <->
     match last (default [] (bodyMessages parsed)) with
     | None => True
     | Some lastMessage => messageContent lastMessage = ""
     end) /\
    (status r = 400 ->
     body r = JsonBody (Some "Invalid request: missing messages or content") None /\
     invocations s' = invocations s /\ console s' = console s).
Proof.
  intros Horigin Hidentity Hjson Hprovider.
  destruct s as [cache calls lines m ctl].
  unfold Server.POST. run_server. rewrite Horigin, Hidentity, Hjson, Hprovider.
  destruct (last _) as [lastMessage|].
  2:{ unfold invalidRequest. run_server. eexists _, _. split; [done|]. by cbn. }
  destruct (messageContent lastMessage) as [|a content] eqn:Hcontent; cbn [JS.truthy negb].
  { unfold invalidRequest. run_server. eexists _, _. split; [done|]. by cbn. }
  match goal with
  | |- context [Server.chatCompletionStream _ _ _ ?params ?s0] =>
      destruct (chatCompletionStream params s0) as [[[[stream target] model]|e] s1]
  end.
  - rewrite readableStream_spec. run_server.
    eexists _, _. split; [done|]. cbn. by split.
  - run_server. eexists _, _. split; [done|]. cbn. by split.
Qed.

(** *** A provider without a key *)

(** X12. An admitted request with a valid conversation, for a provider
    that has no client in the cache and whose API key is missing from the
    environment or empty, is answered with 500. The error of the body names
    the provider and the variable to set; the provider is not called, no
    client is cached and no stream is opened. *)
Theorem missing_api_key_is_500 platform req s parsed lastMessage provider target :
  originRejected env req = false ->
  identityMissing env req = false ->
  json req = Normal parsed ->
  last (default [] (bodyMessages parsed)) = Some lastMessage ->
  messageContent lastMessage <> "" ->
  resolveProvider env normalizeProviderName (bodyProvider parsed) = Normal provider ->
  normalizeProviderName (Some (providerString provider)) = Normal target ->
  clientCache s !! target = None ->
  env !! apiKeyEnv (PROVIDER_CONFIGS target) = None \/
    env !! apiKeyEnv (PROVIDER_CONFIGS target) = Some "" ->
  exists r s',
    POST platform req s = (Normal r, s') /\
    status r = 500 /\
    body r =
      JsonBody
        (Some (displayName (PROVIDER_CONFIGS target) +:+ " API key not configured. Please set "
                 +:+ apiKeyEnv (PROVIDER_CONFIGS target) +:+ " in your environment."))
        (Some (randomUUID platform)) /\
    invocations s' = invocations s /\
    clientCache s' = clientCache s /\
    controller s' = controller s.
Proof.
  intros Horigin Hidentity Hjson Hlast Hcontent Hprovider Htarget Hcache Hkey.
  destruct s as [cache calls lines m ctl]. cbn [clientCache] in Hcache.
  unfold Server.POST. run_server. rewrite Horigin, Hidentity, Hjson, Hprovider, Hlast.
  destruct (messageContent lastMessage) as [|a content]; [done|]. cbn [JS.truthy negb].
  unfold Server.chatCompletionStream, getClient, resolveProvider. run_server.
  cbn [paramProvider].
  replace (match providerString provider with
           | "" => normalizeProviderName (env !! "PROVIDER")
           | String a0 p => normalizeProviderName (Some (String a0 p))
           end) with (normalizeProviderName (Some (providerString provider)))
    by (by destruct provider).
  rewrite Htarget. cbn [clientCache]. rewrite Hcache.
  unfold resolveConfig. cbv zeta.
  destruct Hkey as [-> | ->]; run_server; eexists _, _; by repeat split.
Qed.

(** *** The ids of the frames *)





Lemma ids_contentMessages requestId n tokens :
  map SSE.id (contentMessages requestId n tokens)
  = map (fun k => Some (requestId +:+ "-" +:+ JS.ofNat k)) (seq (S n) (length tokens)).
Proof.
  revert n. induction tokens as [|token rest IH]; intros n; [done|].
  cbn [contentMessages map SSE.id length seq]. by rewrite IH.
Qed.





End Route.

End RouteFacts.

(** * Properties of the requests and sessions of the hook *)

Module HookFacts.

Import Client ClientFacts JsonFacts.
Local Open Scope Z_scope.

(** ** Lines that are no record *)

Lemma onLine_skips requestId startTime arrival line h :
  recordOf line = None ->
  onLine requestId startTime arrival line h = (Normal false, h).
Proof.
  unfold recordOf, onLine.
  destruct (JS.startsWith _ _); [|done].
  destruct (negb _); [done|].
  destruct (Json.parse _) as [sseMessage|]; [|done].
  unfold onRecord.
  destruct sseMessage as [| | | | |members]; try done.
  cbn [Json.field].
  destruct (Json.lookupLast "type" members) as [[| | |t| |]|]; try done.
  by destruct (SSE.ofName t).
Qed.

Lemma forLines_skips requestId startTime arrival lines h :
  Forall (fun line => recordOf line = None) lines ->
  forLines requestId startTime arrival lines h = (Normal false, h).
Proof.
  induction 1 as [|line lines Hline _ IH]; [done|].
  cbn [forLines]. unfold bind. by rewrite onLine_skips.
Qed.

(** X14. A read none of whose lines is a record (a line that does not
    start with [data: ], is blank after it, is not JSON, or is JSON of no
    known type) is passed over: the loop goes on with the next read from the
    state it had. *)
Theorem read_without_record_is_passed_over requestId startTime value arrival rest h :
  Forall (fun line => recordOf line = None) (JS.split JS.LF value) ->
  whileRead requestId startTime (Read value arrival rest) h
  = whileRead requestId startTime rest h.
Proof.
  intros Hlines. cbn [whileRead]. unfold bind. by rewrite forLines_skips.
Qed.

(** ** How the reading of a body ends *)

Lemma whileRead_completion requestId startTime reader h index target :
  streamingMessageRef h = Some (index, requestId) ->
  messages h !! index = Some target ->
  (whileRead requestId startTime reader h).1
  = match failureOfBody reader with
    | None => Normal tt
    | Some e => Abrupt e
    end.
Proof.
  revert h target. induction reader as [|value arrival rest IH|e]; intros h target Href Htarget;
    [done| |done].
  cbn [whileRead failureOfBody]. unfold bind.
  pose proof (forLines_content requestId startTime arrival (JS.split JS.LF value) h index
                target Href Htarget) as Hlines.
  destruct (forLines requestId startTime arrival (JS.split JS.LF value) h) as [c h1].
  cbv zeta in Hlines. cbn [fst snd] in Hlines.
  destruct Hlines as (-> & Hmessages & Hkeep).
  destruct (contentOfLines (JS.split JS.LF value)).2; [done|].
  eapply (IH h1); [by apply Hkeep|].
  rewrite Hmessages. apply list_lookup_insert_eq. by eapply lookup_lt_Some.
Qed.

Lemma handleStreamingResponse_completion response reader requestId clock h :
  body response = Some reader ->
  (handleStreamingResponse response requestId clock h).1
  = match failureOfBody reader with
    | None => Normal tt
    | Some e => Abrupt e
    end.
Proof.
  intros Hbody. unfold handleStreamingResponse. rewrite Hbody. open_hook h. run_client.
  match goal with
  | |- context [whileRead requestId clock reader ?h1] =>
      pose proof (whileRead_completion requestId clock reader h1 (length messages0)
                    {| role := assistant; content := ""; timestamp := Some clock;
                       metadata := None |}) as Hcompletion;
      destruct (whileRead requestId clock reader h1) as [c h2]
  end.
  cbn [streamingMessageRef messages fst] in Hcompletion.
  rewrite length_app, Nat.add_sub in Hcompletion.
  specialize (Hcompletion eq_refl). rewrite lookup_app_r, Nat.sub_diag in Hcompletion by done.
  specialize (Hcompletion eq_refl). subst. open_hook h2. run_client. done.
Qed.

(** ** What a computation maintains *)

Section Maintains.

Context (P : Hook -> Prop).

Lemma maintains_ret {A} (a : A) : Maintains P (ret a).
Proof. by intros h. Qed.

Lemma maintains_throw {A} e : Maintains P (throw (A:=A) e).
Proof. by intros h. Qed.

Lemma maintains_lift {A} (c : Completion A) : Maintains P (lift c).
Proof. by intros h. Qed.

Lemma maintains_gets {A} (g : Hook -> A) : Maintains P (gets g).
Proof. by intros h. Qed.

Lemma maintains_modify (g : Hook -> Hook) : (forall h, P h -> P (g h)) -> Maintains P (modify g).
Proof. intros Hg h. apply Hg. Qed.

Lemma maintains_bind {A B} (m : M Hook A) (k : A -> M Hook B) :
  Maintains P m -> (forall a, Maintains P (k a)) -> Maintains P (bind m k).
Proof.
  intros Hm Hk h Hh. unfold bind. specialize (Hm h Hh).
  destruct (m h) as [[a|e] h1]; cbn in *; [|done].
  by apply Hk.
Qed.

Lemma maintains_tryCatch {A} (m : M Hook A) (handler : Thrown -> M Hook A) :
  Maintains P m -> (forall e, Maintains P (handler e)) -> Maintains P (tryCatch m handler).
Proof.
  intros Hm Hhandler h Hh. unfold tryCatch. specialize (Hm h Hh).
  destruct (m h) as [[a|e] h1]; cbn in *; [done|].
  by apply Hhandler.
Qed.

Lemma maintains_tryFinally {A} (m : M Hook A) (fin : M Hook unit) :
  Maintains P m -> Maintains P fin -> Maintains P (tryFinally m fin).
Proof.
  intros Hm Hfin h Hh. unfold tryFinally. specialize (Hm h Hh).
  destruct (m h) as [c h1]. specialize (Hfin h1 Hm).
  by destruct (fin h1) as [[[]|e] h2].
Qed.

End Maintains.

Create HintDb maintains discriminated.

(** Breaking a computation into its steps, for a property of the metrics:
    a step that writes another cell maintains it. *)
Ltac maintains :=
  repeat first
    [ solve [auto 1 with maintains nocore]
    | apply maintains_ret | apply maintains_throw | apply maintains_lift
    | apply maintains_gets
    | apply maintains_bind; [|intros ?]
    | apply maintains_tryCatch; [|intros ?]
    | apply maintains_tryFinally
    | progress unfold updateConnectionStatus, call, setError, setMessages,
        setStreamingMessageRef, setConnectionStatus, setIsLoading, setRetryCount,
        setLastPayloadRef, recordFetch
    | apply maintains_modify; intros ? ?; assumption ].

(** ** The latency window *)

Lemma latencyWindow_metricsOnContent elapsed prev :
  latencyWindow prev -> latencyWindow (metricsOnContent elapsed prev).
Proof.
  unfold latencyWindow, metricsOnContent. cbn [latency messageCount]. intros Hprev.
  rewrite length_app, length_drop. cbn [length]. lia.
Qed.

Lemma setMetrics_window f :
  (forall prev, latencyWindow prev -> latencyWindow (f prev)) ->
  Maintains (fun h => latencyWindow (metrics h)) (setMetrics f).
Proof. intros Hf. unfold setMetrics. apply maintains_modify. intros h. apply Hf. Qed.

Lemma onRecord_window requestId startTime arrival sseMessage :
  Maintains (fun h => latencyWindow (metrics h))
    (onRecord requestId startTime arrival sseMessage).
Proof.
  unfold onRecord, onContent.
  destruct sseMessage; try (apply maintains_throw);
    (match goal with
     | |- context [match ?type with Some _ => _ | None => _ end] =>
         destruct type as [[]|]
     end);
    try (destruct (Json.parse _) as [[]|]);
    maintains;
    apply setMetrics_window; try (apply latencyWindow_metricsOnContent); by intros [].
Qed.

#[local] Hint Resolve onRecord_window : maintains.

Lemma onLine_window requestId startTime arrival line :
  Maintains (fun h => latencyWindow (metrics h)) (onLine requestId startTime arrival line).
Proof.
  unfold onLine. destruct (JS.startsWith _ _); [|apply maintains_ret].
  destruct (negb _); [apply maintains_ret|].
  maintains. destruct (Json.parse _); maintains.
Qed.

#[local] Hint Resolve onLine_window : maintains.

Lemma forLines_window requestId startTime arrival lines :
  Maintains (fun h => latencyWindow (metrics h)) (forLines requestId startTime arrival lines).
Proof.
  induction lines as [|line rest IH]; cbn [forLines]; maintains.
  destruct a; [apply maintains_ret|apply IH].
Qed.

#[local] Hint Resolve forLines_window : maintains.

Lemma whileRead_window requestId startTime reader :
  Maintains (fun h => latencyWindow (metrics h)) (whileRead requestId startTime reader).
Proof.
  induction reader as [|value arrival rest IH|e]; cbn [whileRead]; maintains.
  destruct a; [apply maintains_ret|apply IH].
Qed.

#[local] Hint Resolve whileRead_window : maintains.

Lemma handleStreamingResponse_window response requestId clock :
  Maintains (fun h => latencyWindow (metrics h))
    (handleStreamingResponse response requestId clock).
Proof.
  unfold handleStreamingResponse. destruct (body response); maintains.
Qed.

#[local] Hint Resolve handleStreamingResponse_window : maintains.

(** ** Clearing the conversation *)

(** X15. Once [clearMessages] has emptied the conversation, what is still
    read of a stream adds nothing to it: the content records find no message
    at the index of the streaming target and are dropped. The list stays
    empty and the retry counter at zero; the calls of [fetch], the cached
    payload and the in-flight flag are as they were. *)
Theorem cleared_conversation_stays_empty rid t0 reader h :
  let h' := run (clearMessages;; whileRead rid t0 reader) h in
  messages h' = [] /\
  retryCount h' = 0 /\
  fetched h' = fetched h /\
  lastPayloadRef h' = lastPayloadRef h /\
  isLoading h' = isLoading h.
Proof.
  unfold clearMessages. open_hook h. run_client.
  match goal with
  | |- context [whileRead rid t0 reader ?h1] =>
      pose proof (whileRead_keeps rid t0 reader h1) as Hkeeps;
      destruct (whileRead rid t0 reader h1) as [c h2]
  end.
  open_hook h2.
  cbv [besideStream roles flags messages fetched retryCount lastPayloadRef isLoading input
       snd] in Hkeeps.
  injection Hkeeps as -> -> -> -> -> Hroles _. apply fmap_nil_inv in Hroles. by subst.
Qed.

(** ** The outcomes of a request *)

Section UseChat.

Variable options : UseChatOptions.

Local Abbreviation sendMessageCore := (Client.sendMessageCore options).
Local Abbreviation sendMessage := (Client.sendMessage options).
Local Abbreviation retry := (Client.retry options).

(** X16. A [sendMessage] whose [fetch] fails adds two messages to the
    conversation: the user message, with the text trimmed, and an assistant
    message with the apology, which bears no error flag. The error is the
    message of the failure, the status is [ERROR], the hook is no longer
    loading, [fetch] was called once with the conversation and the user
    message, and the callbacks are [onStart], [onConnectionChange] twice and
    [onError]. *)
Theorem failed_fetch_is_apologised_for net question payload h e :
  JS.trim question <> "" ->
  isLoading h = false ->
  fetchResult net = Abrupt e ->
  let h' := run (sendMessage net question payload) h in
  messages h' = messages h ++ [userMessageOf net question; apologyOf net] /\
  flagged (apologyOf net) = false /\
  error h' = messageOf e /\
  connectionStatus h' = ERROR /\
  isLoading h' = false /\
  fetched h' =
    fetched h ++ [ {| fetchUrl := apiUrl options;
                      fetchMessages := messages h ++ [userMessageOf net question];
                      fetchPayload := default ∅ payload |} ] /\
  called h' =
    called h ++ [onStart; onConnectionChange CONNECTING; onConnectionChange ERROR;
                 onError (messageOf e)].
Proof.
  intros Htext Hloading Hfetch.
  unfold Client.sendMessage, Client.sendMessageCore. open_hook h. subst.
  run_client. rewrite truthy_trim by done. cbn [negb orb]. rewrite Hfetch. run_client.
  rewrite <- !app_assoc. done.
Qed.

(** X17. A [sendMessage] whose response is not ok adds the user message
    and one assistant stand-in with the error message as its content and
    [metadata.error] true; no message already there is overwritten. The error
    is that message, the status is [ERROR], the hook is no longer loading,
    and neither [onError] nor [onSuccess] is called. The message is empty
    only when the body is not JSON and its text is empty. *)
Theorem refused_response_is_flagged net question payload h response :
  JS.trim question <> "" ->
  isLoading h = false ->
  fetchResult net = Normal response ->
  ok response = false ->
  let h' := run (sendMessage net question payload) h in
  let standIn :=
    {| role := assistant; content := errorMessageOf response;
       timestamp := Some (later net);
       metadata := Some {[ "error" := Json.Bool true ]} |} in
  messages h' = messages h ++ [userMessageOf net question; standIn] /\
  flagged standIn = true /\
  error h' = Some (errorMessageOf response) /\
  connectionStatus h' = ERROR /\
  isLoading h' = false /\
  streamingMessageRef h' = None /\
  called h' = called h ++ [onStart; onConnectionChange CONNECTING; onConnectionChange ERROR] /\
  (errorMessageOf response = "" ->
   (exists e, json response = Abrupt e) /\ text response = Normal "").
Proof.
  intros Htext Hloading Hfetch Hok.
  unfold Client.sendMessage, Client.sendMessageCore. open_hook h. subst.
  run_client. rewrite truthy_trim by done. cbn [negb orb]. rewrite Hfetch. run_client.
  rewrite Hok. cbn [negb]. run_client.
  unfold Client.standIn. rewrite last_snoc. cbn [role].
  destruct (decide (user = assistant)) as [[=]|_].
  rewrite <- !app_assoc. repeat split.
  - unfold errorMessageOf in *.
    destruct (json response) as [[[|a message]|]|e']; try done; eauto.
  - unfold errorMessageOf in *.
    destruct (json response) as [[[|a message]|]|e']; try done.
    by destruct (text response) as [[|a t]|].
Qed.


(** X19. A [sendMessage] whose body fails while it is read keeps the
    assistant message with the text read so far, and adds the apology after
    it: the conversation grows by three messages. The error is the message of
    the failure, the status is [ERROR], the hook is not loading and has no
    streaming target, and the last callback is [onError]. *)
Theorem failed_read_keeps_the_partial_message net question payload h response reader e :
  JS.trim question <> "" ->
  isLoading h = false ->
  fetchResult net = Normal response ->
  ok response = true ->
  body response = Some reader ->
  failureOfBody reader = Some e ->
  let h' := run (sendMessage net question payload) h in
  messages h' =
    messages h ++
    [ userMessageOf net question;
      {| role := assistant; content := contentOfBody reader;
         timestamp := Some (later net); metadata := None |};
      apologyOf net ] /\
  error h' = messageOf e /\
  connectionStatus h' = ERROR /\
  isLoading h' = false /\
  streamingMessageRef h' = None /\
  last (called h') = Some (onError (messageOf e)).
Proof.
  intros Htext Hloading Hfetch Hok Hbody Hfailure.
  unfold Client.sendMessage, Client.sendMessageCore. open_hook h. subst.
  run_client. rewrite truthy_trim by done. cbn [negb orb]. rewrite Hfetch. run_client.
  rewrite Hok. cbn [negb]. run_client.
  match goal with
  | |- context [handleStreamingResponse response ?rid ?clock ?h1] =>
      pose proof (handleStreamingResponse_leaves response reader rid clock h1 Hbody)
        as (Hstatus & Href & _);
      pose proof (handleStreamingResponse_content response reader rid clock h1 Hbody)
        as Hmessages;
      pose proof (handleStreamingResponse_completion response reader rid clock h1 Hbody)
        as Hcompletion;
      destruct (handleStreamingResponse response rid clock h1) as [c h2]
  end.
  rewrite Hfailure in Hcompletion. cbn [fst snd] in *.
  open_hook h2. cbn [messages] in Hmessages. subst.
  run_client. rewrite last_snoc, <- !app_assoc. done.
Qed.

(** ** The states of a session *)

Lemma sendMessageCore_window net content currentMessages payload :
  Maintains (fun h => latencyWindow (metrics h))
    (sendMessageCore net content currentMessages payload).
Proof.
  unfold Client.sendMessageCore. apply maintains_bind; [apply maintains_gets|intros loading].
  destruct (_ || _); [apply maintains_ret|].
  maintains.
  - unfold setMetrics. apply maintains_modify. by intros h _.
  - destruct (negb _); maintains. destruct (last _); maintains.
Qed.

Lemma sendMessageCore_settles net content currentMessages payload h :
  streamingMessageRef h = None ->
  streamingMessageRef (run (sendMessageCore net content currentMessages payload) h) = None.
Proof.
  intros Href. unfold Client.sendMessageCore. open_hook h. subst. run_client.
  destruct (_ || _); [done|]. run_client.
  destruct (fetchResult net) as [response|e]; run_client; [|done].
  destruct (ok response); cbn [negb]; run_client; [|done].
  destruct (body response) as [reader|] eqn:Hbody.
  - match goal with
    | |- context [handleStreamingResponse response ?rid ?clock ?h1] =>
        pose proof (handleStreamingResponse_leaves response reader rid clock h1 Hbody)
          as (_ & Hnone & _);
        destruct (handleStreamingResponse response rid clock h1) as [c h2]
    end.
    open_hook h2. cbn [snd] in Hnone. subst. run_client.
    destruct c as [[]|e]; run_client; [|done].
    by destruct (last _).
  - unfold handleStreamingResponse. rewrite Hbody. by run_client.
Qed.

(** What every state of a session satisfies. *)
Lemma session_invariant h :
  Session options h ->
  isLoading h = false /\
  streamingMessageRef h = None /\
  (last (roles h) = None \/ last (roles h) = Some assistant) /\
  0 <= retryCount h <= Z.max 0 (maxRetriesOr3 options) /\
  latencyWindow (metrics h).
Proof.
  induction 1 as [|net content payload h _ (Hloading & Href & Hlast & Hcount & Hwindow)
                  |net h _ (Hloading & Href & Hlast & Hcount & Hwindow)
                  |h _ (Hloading & Href & Hlast & Hcount & Hwindow)].
  - split; [done|]. split; [done|]. split; [by left|]. split; [cbn; lia|done].
  - assert (Hsent : run (sendMessage net content payload) h
                    = run (sendMessageCore net content (messages h) payload)
                        (run (setLastPayloadRef payload) h)).
    { unfold Client.sendMessage. open_hook h. by run_client. }
    rewrite Hsent. clear Hsent.
    set (h0 := run (setLastPayloadRef payload) h).
    assert (H0 : isLoading h0 = false /\ streamingMessageRef h0 = None /\
                 roles h0 = roles h /\ retryCount h0 = retryCount h /\
                 metrics h0 = metrics h).
    { unfold h0. open_hook h. by run_client. }
    destruct H0 as (Hloading0 & Href0 & Hroles0 & Hcount0 & Hmetrics0). clearbody h0.
    split; [|split; [by apply sendMessageCore_settles|split; [|split]]].
    + destruct (decide (JS.trim content = "")) as [Hblank|Htext].
      * unfold run. by rewrite sendMessageCore_rejected by (by left).
      * by destruct (sendMessageCore_dispatched options net content (messages h) payload h0
                       Htext Hloading0) as (_ & _ & _ & ? & _).
    + destruct (decide (JS.trim content = "")) as [Hblank|Htext].
      * unfold run. rewrite sendMessageCore_rejected by (by left). cbn [snd]. by rewrite Hroles0.
      * destruct (sendMessageCore_dispatched options net content (messages h) payload h0
                    Htext Hloading0) as (_ & _ & _ & _ & ->). by right.
    + destruct (decide (JS.trim content = "")) as [Hblank|Htext].
      * unfold run. rewrite sendMessageCore_rejected by (by left). cbn [snd]. lia.
      * destruct (sendMessageCore_dispatched options net content (messages h) payload h0
                    Htext Hloading0) as (_ & -> & _). lia.
    + apply sendMessageCore_window. by rewrite Hmetrics0.
  - unfold Client.retry. open_hook h. subst. run_client.
    destruct (Z.geb_spec retryCount0 (maxRetriesOr3 options)); run_client; [done|].
    unfold roles in Hlast. cbn [messages] in Hlast.
    pose proof Hlast as Hrole. rewrite fmap_last in Hrole.
    destruct (last messages0) as [lastMessage|];
      [|run_client; split; [done|]; split; [done|]; split; [done|]; split; [lia|done]].
    destruct (decide (role lastMessage = user)) as [Huser|_].
    { cbn in Hrole. destruct Hrole; congruence. }
    run_client. split; [done|]. split; [done|]. split; [done|]. split; [lia|done].
  - unfold clearMessages. open_hook h. subst. run_client.
    split; [done|]. split; [done|]. split; [by left|]. split; [lia|done].
Qed.


(** X21. In every state of a session [retry] sends no request: the
    conversation never ends with a user message there, so the test on the last
    message fails. The calls of [fetch], the messages and the callbacks are
    unchanged. *)
Theorem retry_sends_nothing_in_a_session net h :
  Session options h ->
  let h' := run (retry net) h in
  fetched h' = fetched h /\ messages h' = messages h /\ called h' = called h.
Proof.
  intros Hsession.
  destruct (session_invariant h Hsession) as (_ & _ & Hlast & _).
  unfold Client.retry. open_hook h. run_client.
  destruct (_ >=? _); run_client; [done|].
  unfold roles in Hlast. cbn [messages] in Hlast. rewrite fmap_last in Hlast.
  destruct (last messages0) as [lastMessage|]; [|done].
  destruct (decide (role lastMessage = user)) as [Huser|_]; [|done].
  cbn in Hlast. destruct Hlast; congruence.
Qed.

End UseChat.

End HookFacts.

(** * Properties of the frames on the wire *)

Module WireFacts.

Import Json JsonFacts RelayFacts.
Import Server Scenario.

Lemma encode_lineOf m : Server.encode m = lineOf m +:+ String JS.LF (String JS.LF "").
Proof. apply encode_text. Qed.

Lemma lineOf_no_LF m : JS.contains JS.LF (lineOf m) = false.
Proof.
  unfold lineOf. rewrite contains_append. cbn [orb JS.contains Ascii.eqb].
  change (JS.contains JS.LF (stringify (Obj (map stringMember (Server.membersOf m)))) = false).
  cbn [stringify]. rewrite map_map.
  change (JS.contains JS.LF ("{" +:+ JS.join "," (map memberText (Server.membersOf m)) +:+ "}")
          = false).
  by rewrite !contains_append, members_no_LF.
Qed.

Lemma recordOf_lineOf m : Client.recordOf (lineOf m) = Some (SSE.type m, SSE.data m).
Proof.
  destruct (split_encode m) as (line & Hsplit & Hrecord).
  rewrite encode_lineOf, split_record in Hsplit by apply lineOf_no_LF.
  by injection Hsplit as ->.
Qed.

Lemma split_encode_app m rest :
  JS.split JS.LF (Server.encode m +:+ rest) = lineOf m :: "" :: JS.split JS.LF rest.
Proof.
  rewrite encode_lineOf, append_assoc. unfold JS.split.
  change (String JS.LF (String JS.LF "") +:+ rest) with (String JS.LF (String JS.LF rest)).
  rewrite split_go_line by apply lineOf_no_LF.
  fold (String.rev (lineOf m)). rewrite rev_involutive.
  cbn [JS.split_go]. by rewrite Ascii.eqb_refl.
Qed.

Lemma join_cons (s : string) (l : list string) : JS.join "" (s :: l) = s +:+ JS.join "" l.
Proof. destruct l; [by rewrite append_nil_r|done]. Qed.

Lemma split_frames group :
  JS.split JS.LF (JS.join "" (map Server.encode group))
  = flat_map (fun m => [lineOf m; ""]) group ++ [""].
Proof.
  induction group as [|m group IH]; [done|].
  cbn [map flat_map]. by rewrite join_cons, split_encode_app, IH.
Qed.




Lemma concat_map_inv {A B} (f : A -> B) groups l :
  concat groups = map f l ->
  exists grouped, groups = map (map f) grouped /\ concat grouped = l.
Proof.
  revert l. induction groups as [|group groups IH]; intros l Hl.
  - exists []. split; [done|]. symmetry in Hl. by apply map_eq_nil in Hl.
  - cbn [concat] in Hl. symmetry in Hl.
    apply fmap_app_inv in Hl as (k1 & k2 & -> & Hk2 & ->).
    destruct (IH k2 Hk2) as (grouped & -> & <-).
    by exists (k1 :: grouped).
Qed.

(** X22. A frame written by [buildSSEMessage] is, for the decoder of the
    hook, one line and two empty lines: the line holds no line feed and is
    read back as the record of the type and the data that were written,
    whatever characters the data holds; an empty line is no record. *)
Theorem frame_is_read_back type data id :
  exists line,
    JS.split JS.LF (Server.buildSSEMessage type data id) = [line; ""; ""] /\
    JS.contains JS.LF line = false /\
    Client.recordOf line = Some (type, data) /\
    Client.recordOf "" = None.
Proof.
  exists (lineOf (SSE.Message type data id)).
  change (Server.buildSSEMessage type data id) with (Server.encode (SSE.Message type data id)).
  rewrite encode_lineOf, split_record by apply lineOf_no_LF.
  split; [done|]. split; [apply lineOf_no_LF|]. split; [apply recordOf_lineOf|done].
Qed.


End WireFacts.

(** * The request id, from the route to the hook *)

Module MetadataFacts.

Import Json JsonFacts RelayFacts WireFacts.
Import Client ClientFacts HookFacts.

(** The text of a frame after [data: ] is read back as the object that
    was written. *)
Lemma parse_lineOf m :
  JS.startsWith (Server.lineOf m) "data: " = true /\
  JS.truthy (JS.trim (JS.slice 6 (Server.lineOf m))) = true /\
  Json.parse (JS.slice 6 (Server.lineOf m)) = Some (Obj (map stringMember (Server.membersOf m))).
Proof.
  unfold Server.lineOf.
  change (JS.startsWith ("data: " +:+ ?json) "data: ") with true.
  change (JS.slice 6 ("data: " +:+ ?json)) with json.
  split; [done|]. split.
  - cbn [stringify]. change ("{" +:+ ?x) with (String "{" x). by apply truthy_trim_starts.
  - unfold Server.membersOf at 1. by rewrite parse_stringify_strings.
Qed.

(** A line that is no metadata record leaves the request id of the
    metrics as it is. *)
Lemma onLine_keeps_requestId rid t0 arrival line (v : option string) :
  (forall data, recordOf line <> Some (SSE.METADATA, data)) ->
  Maintains (fun h => requestId (metrics h) = v) (onLine rid t0 arrival line).
Proof.
  intros Hrecord. unfold onLine. unfold recordOf in Hrecord.
  destruct (JS.startsWith _ _); [|apply maintains_ret].
  destruct (negb _); [apply maintains_ret|].
  apply maintains_tryCatch; [|intros ?; apply maintains_ret].
  destruct (Json.parse _) as [sseMessage|]; [|apply maintains_throw].
  unfold onRecord.
  destruct sseMessage as [| | | | |members]; cbn [Json.field] in *;
    try (apply maintains_throw); try (apply maintains_ret).
  destruct (Json.lookupLast "type" members) as [[| | |t| |]|]; try (apply maintains_ret).
  destruct (SSE.ofName t) as [[]|]; try (apply maintains_ret).
  - unfold onContent. maintains.
  - maintains.
  - maintains.
  - by destruct (Hrecord (coerceMember (Json.lookupLast "data" members))).
Qed.

Lemma contentMessages_no_metadata requestId n tokens :
  Forall (fun m => SSE.type m <> SSE.METADATA) (Server.contentMessages requestId n tokens).
Proof.
  revert n. induction tokens as [|token tokens IH]; intros n; [constructor|].
  cbn [Server.contentMessages]. by constructor.
Qed.

Section RequestId.

Variable platform : Server.Platform.
Variable model : string.
Variable provider : Server.ProviderName.

Local Abbreviation metadata := (Server.metadataMessage platform model provider).
Local Abbreviation known h :=
  (requestId (metrics h) = Some (Server.randomUUID platform)).

(** The metadata frame of the route, as the hook takes it. *)
Lemma onLine_metadata rid t0 arrival h :
  let result := onLine rid t0 arrival (Server.lineOf metadata) h in
  result.1 = Normal false /\
  requestId (metrics result.2) = Some (Server.randomUUID platform) /\
  startTime (metrics result.2) = arrival.
Proof.
  unfold onLine. destruct (parse_lineOf metadata) as (-> & -> & ->). cbn [negb].
  unfold Server.metadataMessage, Server.membersOf. cbn [SSE.type SSE.data SSE.id].
  assert (Hdata : Json.parse
    (Server.metadataJson platform (Server.createPerformanceMetrics platform) model provider)
    = Some (Obj (map stringMember
        [ ("requestId", Server.randomUUID platform);
          ("timestamp", Server.isoAtMetadata platform);
          ("model", model);
          ("provider", Server.providerString provider) ]))).
  { exact (parse_stringify_strings ("requestId", Server.randomUUID platform)
             [ ("timestamp", Server.isoAtMetadata platform);
               ("model", model);
               ("provider", Server.providerString provider) ]). }
  open_hook h.
  destruct (Server.randomUUID platform) as [|a uuid] eqn:Huuid;
    unfold onRecord; cbn [map stringMember fst snd Json.field Json.lookupLast String.eqb
                          Ascii.eqb Bool.eqb];
    cbn [coerceMember coerce SSE.ofName String.eqb Ascii.eqb Bool.eqb];
    rewrite Hdata; by run_client.
Qed.

Local Abbreviation writesNoOtherId := (Server.writesNoOtherId platform model provider).

(** Every such frame maintains the request id once it is known: the
    metadata frame sets it, the others do not write it. *)
Lemma onLine_frame rid t0 arrival m :
  writesNoOtherId m -> Maintains (fun h => known h) (onLine rid t0 arrival (Server.lineOf m)).
Proof.
  intros [-> | Htype].
  - intros h _. apply onLine_metadata.
  - apply onLine_keeps_requestId. intros data. rewrite recordOf_lineOf. congruence.
Qed.

Lemma forLines_frames rid t0 arrival frames lines :
  Forall writesNoOtherId frames ->
  Maintains (fun h => known h) (forLines rid t0 arrival lines) ->
  Maintains (fun h => known h)
    (forLines rid t0 arrival (flat_map (fun m => [Server.lineOf m; ""]) frames ++ lines)).
Proof.
  intros Hframes Hlines. induction Hframes as [|m frames Hm _ IH]; [done|].
  cbn [flat_map app forLines].
  apply maintains_bind; [by apply onLine_frame|]. intros [|]; [apply maintains_ret|].
  apply maintains_bind; [|intros [|]; [apply maintains_ret|apply IH]].
  intros h. by rewrite onLine_skips.
Qed.

Lemma forLines_blank rid t0 arrival :
  Maintains (fun h => known h) (forLines rid t0 arrival [""]).
Proof. intros h. by rewrite forLines_skips by (by repeat constructor). Qed.

Lemma whileRead_coalesced rid t0 grouped clock :
  Forall writesNoOtherId (concat grouped) ->
  Maintains (fun h => known h)
    (whileRead rid t0 (Scenario.coalesced (map (map Server.encode) grouped) clock)).
Proof.
  unfold Scenario.coalesced. revert clock.
  induction grouped as [|group grouped IH]; intros clock Hframes; [apply maintains_ret|].
  cbn [concat] in Hframes. apply Forall_app in Hframes as [Hgroup Hrest].
  cbn [map Scenario.reads whileRead]. rewrite split_frames.
  apply maintains_bind; [apply forLines_frames; [done|apply forLines_blank]|].
  intros [|]; [apply maintains_ret|by apply IH].
Qed.

Lemma forLines_learns rid t0 arrival group h :
  Forall writesNoOtherId group ->
  known (forLines rid t0 arrival
           (flat_map (fun m => [Server.lineOf m; ""]) (metadata :: group) ++ [""]) h).2.
Proof.
  intros Hgroup. cbn [flat_map app forLines]. unfold bind at 1.
  destruct (onLine_metadata rid t0 arrival h) as (Hreturned & Hknown & _).
  destruct (onLine rid t0 arrival (Server.lineOf metadata) h) as [c h1].
  cbn [fst snd] in Hreturned, Hknown. subst c. cbv beta iota.
  revert h1 Hknown. apply (maintains_bind (fun h => known h)).
  - intros h1. by rewrite onLine_skips.
  - intros [|]; [apply maintains_ret|].
    apply forLines_frames; [done|apply forLines_blank].
Qed.

Lemma whileRead_learns rid t0 grouped clock rest h :
  concat grouped = metadata :: rest ->
  Forall writesNoOtherId rest ->
  known (whileRead rid t0 (Scenario.coalesced (map (map Server.encode) grouped) clock) h).2.
Proof.
  unfold Scenario.coalesced. revert clock h.
  induction grouped as [|group grouped IH]; intros clock h Hfirst Hrest; [done|].
  cbn [map Scenario.reads whileRead]. rewrite split_frames.
  destruct group as [|m group].
  - cbn [flat_map app]. unfold bind. rewrite forLines_skips by (by repeat constructor).
    by apply IH.
  - cbn [concat app] in Hfirst. injection Hfirst as -> Hfirst. subst rest.
    apply Forall_app in Hrest as [Hgroup Hrest].
    unfold bind at 1.
    pose proof (forLines_learns rid t0 clock group h Hgroup) as Hlines.
    destruct (forLines rid t0 clock _ h) as [[[|]|e] h2]; cbn [snd] in Hlines |- *;
      [done| |done].
    by apply (whileRead_coalesced rid t0 grouped (clock + 10)%Z Hrest h2).
Qed.

End RequestId.

(** X24. On the same transports, once the stream of a response with status
    200 is read, the metrics of the hook hold the request id of the server:
    the metadata frame sets it and no later frame writes it. *)
Theorem client_learns_the_request_id env normalizeProviderName prompt completionsCreate
    platform req s r s' chunks groups response rid arrival clock h :
  Server.POST env normalizeProviderName prompt completionsCreate platform req s
    = (Normal r, s') ->
  Server.status r = 200%nat ->
  Server.body r = Server.EventStream chunks ->
  concat groups = chunks ->
  Client.body response = Some (Scenario.coalesced groups arrival) ->
  let h' := (handleStreamingResponse response rid clock h).2 in
  requestId (metrics h') = Some (Server.randomUUID platform).
Proof.
  intros HPOST Hstatus Hbody Hgroups Hresponse.
  destruct (ServerFacts.POST_streams env normalizeProviderName prompt
              completionsCreate platform req s r s' HPOST Hstatus)
    as (call & stream & model & provider & _ & _ & Hframes & _).
  cbv zeta in Hframes. rewrite Hbody in Hframes. injection Hframes as Hframes.
  rewrite Hframes in Hgroups.
  change (Server.encode ?m :: map Server.encode ?frames)
    with (map Server.encode (m :: frames)) in Hgroups.
  apply concat_map_inv in Hgroups as (grouped & -> & Hgrouped).
  assert (Hrest : Forall (Server.writesNoOtherId platform model provider)
    (Server.contentMessages (Server.randomUUID platform) 0
       (Server.stringTokens (Server.chunksOf stream))
     ++ [Server.terminalMessage (Server.randomUUID platform) (Server.failureOf stream)])).
  { apply Forall_app. split.
    - eapply Forall_impl; [apply contentMessages_no_metadata|]. intros m Hm. by right.
    - constructor; [|constructor]. right. by destruct (Server.failureOf stream). }
  cbv zeta. unfold handleStreamingResponse. rewrite Hresponse. open_hook h. run_client.
  match goal with
  | |- context [whileRead rid clock ?reader ?h1] =>
      pose proof (whileRead_learns platform model provider rid clock grouped arrival _ h1
                    Hgrouped Hrest) as Hknown;
      destruct (whileRead rid clock reader h1) as [c h2]
  end.
  open_hook h2. cbn [snd metrics] in Hknown. run_client. by destruct c.
Qed.

End MetadataFacts.

(** * The properties at the sample requests and transports *)

Module SampleFacts.
Import Server Scenario.
Local Open Scope nat_scope.


(** The client of OpenAI, made with the key of the sample deployment, is
    still returned once the environment has lost the key. *)
Lemma getClient_caches_witness :
  exists entry s',
    getClient env openai fresh = (Normal entry, s') /\
    clientCache fresh !! openai = None /\
    apiKey (config entry) = "sk-test" /\
    getClient ∅ openai s' = (Normal entry, s').
Proof.
  pose proof (ProviderFacts.getClient_caches env ∅ openai fresh) as Hcached.
  destruct (getClient env openai fresh) as [[entry|e] s'] eqn:Hget;
    [|by vm_compute in Hget].
  destruct Hcached as (_ & _ & Hagain & _).
  exists entry, s'. split; [reflexivity|]. split; [reflexivity|]. split; [|exact Hagain].
  vm_compute in Hget. by injection Hget as <- _.
Defined.

(** The sample request logs one line, with two messages counted. *)
Lemma metrics_logged_once_witness :
  exists r s' line,
    Scenario.POST completes asking = (Normal r, s') /\
    status r = 200 /\
    console s' = [line] /\
    logMessageCount line = 2.
Proof.
  destruct (RouteFacts.metrics_logged_once env normalizeProviderName_spec systemPrompt
              completes platform asking fresh)
    as (r & s' & HPOST & Hlogged & _).
  assert (Hstatus : status r = 200) by (vm_compute in HPOST; by injection HPOST as <- _).
  destruct (Hlogged (or_introl Hstatus)) as (line & Hconsole & _ & _ & _ & Hcount & _).
  exists r, s', line. split; [exact HPOST|]. split; [exact Hstatus|].
  split; [exact Hconsole|]. rewrite Hcount.
  vm_compute in HPOST. by injection HPOST as _ <-.
Defined.

(** The sample request is answered with a closed stream. *)
Lemma POST_always_answers_witness :
  exists r s' chunks,
    Scenario.POST completes asking = (Normal r, s') /\
    status r = 200 /\
    body r = EventStream chunks /\
    controller s' = {| queue := chunks; closed := true; errored := false |}.
Proof.
  destruct (RouteFacts.POST_always_answers env normalizeProviderName_spec systemPrompt
              completes platform asking fresh)
    as (r & s' & HPOST & _ & Hstream & _).
  assert (Hstatus : status r = 200) by (vm_compute in HPOST; by injection HPOST as <- _).
  destruct (Hstream Hstatus) as (chunks & Hbody & Hcontroller).
  exists r, s', chunks. split; [exact HPOST|]. split; [exact Hstatus|].
  split; [exact Hbody|exact Hcontroller].
Defined.

(** In production, a request without identity headers: 401. *)
Lemma identity_required_witness :
  originRejected production (request None (Some hello) None) = false /\
  exists r s',
    Server.POST production normalizeProviderName_spec systemPrompt completes platform
      (request None (Some hello) None) fresh = (Normal r, s') /\
    status r = 401.
Proof.
  split; [reflexivity|].
  destruct (RouteFacts.identity_required production normalizeProviderName_spec systemPrompt
              completes platform (request None (Some hello) None) fresh eq_refl)
    as (r & s' & HPOST & Hstatus & _).
  exists r, s'. split; [exact HPOST|].
  apply Hstatus. left. right. split; reflexivity.
Defined.

(** The sample request: one call, of two messages, at four tenths, for
    the fallback model of OpenAI. *)
Lemma upstream_call_of_a_conversation_witness :
  let result := Scenario.POST completes asking in
  statusOf result = Some 200 /\
  exists call,
    invocations result.2 = [call] /\
    pRole <$> callMessages call = [system; user] /\
    callTemperature call = 4%Z /\
    callModel call = "gpt-4o-mini".
Proof.
  intros result.
  destruct result as [[r|e] s'] eqn:Hresult; [|by vm_compute in Hresult].
  assert (Hstatus : status r = 200) by (vm_compute in Hresult; by injection Hresult as <- _).
  destruct (RouteFacts.upstream_call_of_a_conversation env normalizeProviderName_spec
              systemPrompt completes platform asking fresh r s' Hresult Hstatus)
    as (parsed & lastMessage & call & entry & _ & _ & _ & Hcalls & Hmessages & Htemperature
        & _ & _ & Hmodel & _).
  unfold statusOf. cbn [fst snd]. rewrite Hstatus. split; [reflexivity|].
  exists call. split; [exact Hcalls|]. rewrite Hmessages. split; [reflexivity|].
  split; [exact Htemperature|].
  vm_compute in Hresult. injection Hresult as _ <-. cbn in Hcalls.
  injection Hcalls as <-. reflexivity.
Defined.


(** No message, and a provider that resolves: 400. *)
Lemma refused_with_400_iff_witness :
  exists r s',
    Scenario.POST completes (request None (Some []) (Some "qwen")) = (Normal r, s') /\
    status r = 400 /\
    body r = JsonBody (Some "Invalid request: missing messages or content") None.
Proof.
  destruct (RouteFacts.refused_with_400_iff env normalizeProviderName_spec systemPrompt
              completes platform (request None (Some []) (Some "qwen")) fresh
              {| bodyMessages := Some []; bodyProvider := Some "qwen" |} qwen
              eq_refl eq_refl eq_refl eq_refl)
    as (r & s' & HPOST & Hiff & Hbody).
  exists r, s'. split; [exact HPOST|].
  assert (Hstatus : status r = 400) by (apply Hiff; exact I).
  split; [exact Hstatus|]. apply Hbody, Hstatus.
Defined.

(** The sample deployment has no key for Qwen. *)
Lemma missing_api_key_is_500_witness :
  exists r s',
    Scenario.POST completes (request None (Some hello) (Some "qwen")) = (Normal r, s') /\
    status r = 500 /\
    body r =
      JsonBody
        (Some "Qwen API key not configured. Please set QWEN_API_KEY in your environment.")
        (Some "req-1") /\
    invocations s' = [].
Proof.
  destruct (RouteFacts.missing_api_key_is_500 env normalizeProviderName_spec systemPrompt
              completes platform (request None (Some hello) (Some "qwen")) fresh
              {| bodyMessages := Some hello; bodyProvider := Some "qwen" |}
              {| role := user; messageContent := "Hello!" |} qwen qwen
              eq_refl eq_refl eq_refl eq_refl ltac:(discriminate) eq_refl eq_refl eq_refl
              (or_introl eq_refl))
    as (r & s' & HPOST & Hstatus & Hbody & Hcalls & _).
  exists r, s'. split; [exact HPOST|]. split; [exact Hstatus|].
  split; [exact Hbody|exact Hcalls].
Defined.



(** The same read: the hook holds the request id of the platform. *)
Lemma client_learns_the_request_id_witness :
  let h := (Client.handleStreamingResponse
              (streaming (coalesced [streamOf (Scenario.POST completes asking)] 5100))
              "stream-1" 5100 Client.initial).2 in
  Client.requestId (Client.metrics h) = Some "req-1".
Proof.
  destruct (Scenario.POST completes asking) as [[r|e] s'] eqn:Hresult;
    [|by vm_compute in Hresult].
  assert (Hstatus : status r = 200) by (vm_compute in Hresult; by injection Hresult as <- _).
  assert (Hbody : body r = EventStream (streamOf (Normal r, s')))
    by (vm_compute in Hresult; by injection Hresult as <- _).
  exact (MetadataFacts.client_learns_the_request_id env normalizeProviderName_spec
           systemPrompt completes platform asking fresh r s' (streamOf (Normal r, s'))
           [streamOf (Normal r, s')]
           (streaming (coalesced [streamOf (Normal r, s')] 5100))
           "stream-1" 5100%Z 5100%Z Client.initial
           Hresult Hstatus Hbody (app_nil_r _) eq_refl).
Defined.

(** A keep-alive comment is passed over. *)
Lemma read_without_record_is_passed_over_witness :
  Forall (fun line => Client.recordOf line = None) (JS.split JS.LF keepAlive) /\
  Client.whileRead "stream-1" 5100 (Client.Read keepAlive 5110 Client.Done) Client.initial
  = (Normal tt, Client.initial).
Proof.
  assert (Hlines : Forall (fun line => Client.recordOf line = None)
                     (JS.split JS.LF keepAlive)).
  { assert (Hsplit : JS.split JS.LF keepAlive = [": keep-alive"; ""; ""])
      by (vm_compute; reflexivity).
    rewrite Hsplit. repeat constructor. }
  split; [exact Hlines|].
  exact (HookFacts.read_without_record_is_passed_over "stream-1" 5100%Z keepAlive 5110%Z
           Client.Done Client.initial Hlines).
Defined.

(** A [fetch] that is rejected. *)
Lemma failed_fetch_is_apologised_for_witness :
  let h := Client.run (Client.sendMessage options
                         (network (Abrupt (ErrorObject "Failed to fetch"))) " Hello! " None)
             Client.initial in
  Client.content <$> Client.messages h
    = ["Hello!"; "Sorry, there was an error processing your request."] /\
  Client.error h = Some "Failed to fetch" /\
  Client.connectionStatus h = Client.ERROR.
Proof.
  destruct (HookFacts.failed_fetch_is_apologised_for options
              (network (Abrupt (ErrorObject "Failed to fetch"))) " Hello! " None
              Client.initial (ErrorObject "Failed to fetch")
              ltac:(discriminate) eq_refl eq_refl)
    as (Hmessages & _ & Herror & Hconnection & _).
  cbv zeta. rewrite Hmessages. split; [reflexivity|]. split; [exact Herror|exact Hconnection].
Defined.

(** The 401 of the route, as the hook shows it. *)
Lemma refused_response_is_flagged_witness :
  let h := Client.run (Client.sendMessage options
                         (network (Normal (refusal 401 "Missing authentication context.")))
                         "Hello!" None)
             Client.initial in
  Client.content <$> Client.messages h = ["Hello!"; "Missing authentication context."] /\
  Client.flagged <$> Client.messages h = [false; true] /\
  Client.connectionStatus h = Client.ERROR.
Proof.
  destruct (HookFacts.refused_response_is_flagged options
              (network (Normal (refusal 401 "Missing authentication context.")))
              "Hello!" None Client.initial
              (refusal 401 "Missing authentication context.")
              ltac:(discriminate) eq_refl eq_refl eq_refl)
    as (Hmessages & _ & _ & Hconnection & _).
  cbv zeta. rewrite Hmessages. split; [reflexivity|]. split; [reflexivity|exact Hconnection].
Defined.


(** The connection breaks after the first fragment. *)
Lemma failed_read_keeps_the_partial_message_witness :
  let h := Client.run (Client.sendMessage options (interrupted completes) "Hello!" None)
             Client.initial in
  Client.content <$> Client.messages h
    = ["Hello!"; "Hel"; "Sorry, there was an error processing your request."] /\
  Client.error h = Some "network error" /\
  Client.connectionStatus h = Client.ERROR.
Proof.
  destruct (HookFacts.failed_read_keeps_the_partial_message options (interrupted completes)
              "Hello!" None Client.initial
              (streaming (readsUntil (take 2 (streamOf (Scenario.POST completes asking))) 5100
                            (ErrorObject "network error")))
              (readsUntil (take 2 (streamOf (Scenario.POST completes asking))) 5100
                 (ErrorObject "network error"))
              (ErrorObject "network error")
              ltac:(discriminate) eq_refl eq_refl eq_refl eq_refl
              ltac:(vm_compute; reflexivity))
    as (Hmessages & Herror & Hconnection & _).
  cbv zeta. rewrite Hmessages. split; [vm_compute; reflexivity|].
  split; [exact Herror|exact Hconnection].
Defined.


(** A request answered with 500, then a retry. *)
Lemma retry_sends_nothing_in_a_session_witness :
  let failed := Client.run (Client.sendMessage options
                              (network (Normal (refusal 500 "upstream reset")))
                              "Hello!" (Some payload)) Client.initial in
  Client.Session options failed /\
  length (Client.fetched failed) = 1 /\
  Client.fetched (Client.run (Client.retry options (relayed completes)) failed)
    = Client.fetched failed.
Proof.
  assert (Hsession : Client.Session options
    (Client.run (Client.sendMessage options (network (Normal (refusal 500 "upstream reset")))
                   "Hello!" (Some payload)) Client.initial)).
  { apply Client.session_sendMessage, Client.session_initial. }
  destruct (HookFacts.retry_sends_nothing_in_a_session options (relayed completes) _ Hsession)
    as (Hfetched & _).
  cbv zeta. split; [exact Hsession|]. split; [reflexivity|exact Hfetched].
Defined.

End SampleFacts.
